(** * Continuity plugin: the hash-chained action stream, its validator and
  the session restorer

A shallow embedding of [lib/store.ts] (class [ContinuityStore]),
[lib/integrity.ts] (class [IntegrityValidator]) and [lib/session.ts]
(class [SessionRestorer]).

Modelling choices, in one place:
- text is [string], a sequence of bytes; non-ASCII characters are their
  UTF-8 bytes and pass through the serializer unchanged;
- a JavaScript object is an association list in property order;
- [number] is [Z] (sequence numbers, byte counts, epoch milliseconds);
  the one quotient the program forms, the gap in minutes, is a [Q];
- the file system is a finite map from path (a directory and a file
  name) to content; I/O faults and the wall clock come from an
  environment record, one per call;
- a JavaScript exception is the [Threw] result of the store monad;
- [createHash("sha256")] is FIPS 180-4 SHA-256, written out. *)

From Stdlib Require Import ZArith QArith.
From stdpp Require Import base option list strings gmap sorting.
From Stdlib Require Import Ascii.
From Stdlib Require String.

Local Open Scope Z_scope.

(* ===================================================================== *)
(** * Text helpers (the [String.prototype] methods the program calls)    *)
(* ===================================================================== *)

Module Text.

Definition nl : ascii := "010"%char.
Definition dq : ascii := "034"%char.      (* the double quote *)
Definition bsl : ascii := "092"%char.     (* the backslash *)

(** [q s] is [s] between double quotes. *)
Definition q (s : string) : string := String dq (s +:+ String dq EmptyString).

Definition code (c : ascii) : Z := Z.of_N (N_of_ascii c).

Definition bytes (s : string) : list Z := map code (String.list_ascii_of_string s).

(** [s.startsWith(p)] *)
Fixpoint startsWith (p s : string) : bool :=
  match p, s with
  | EmptyString, _ => true
  | String a p', String b s' => if ascii_dec a b then startsWith p' s' else false
  | String _ _, EmptyString => false
  end.

(** [s.includes(p)] *)
Fixpoint includes (p s : string) : bool :=
  startsWith p s ||
  match s with
  | EmptyString => false
  | String _ s' => includes p s'
  end.

(** [s.endsWith(p)] *)
Definition endsWith (p s : string) : bool :=
  startsWith (String.rev p) (String.rev s).

(** White space as [String.prototype.trim] sees it, ASCII range. *)
Definition is_ws (c : ascii) : bool :=
  let n := code c in
  (n =? 32) || ((9 <=? n) && (n <=? 13)).

(** [!s.trim()]: the line has only white space. *)
Fixpoint blank (s : string) : bool :=
  match s with
  | EmptyString => true
  | String c s' => is_ws c && blank s'
  end.

(** [s.split("\n")], with the current piece accumulated in reverse. *)
Fixpoint split_go (cur : string) (s : string) : list string :=
  match s with
  | EmptyString => [String.rev cur]
  | String c s' =>
      if ascii_dec c nl then String.rev cur :: split_go EmptyString s'
      else split_go (String c cur) s'
  end.

Definition split_nl (s : string) : list string := split_go EmptyString s.

(** [content.split("\n").filter(line => line.trim())] *)
Definition lines (content : string) : list string :=
  filter (fun l => blank l = false) (split_nl content).

(** [s.split("T")[0]] *)
Fixpoint before (sep : ascii) (s : string) : string :=
  match s with
  | EmptyString => EmptyString
  | String c s' => if ascii_dec c sep then EmptyString else String c (before sep s')
  end.

(** ** Predicates used to state facts about texts *)

(** Characters of a string, as a predicate over all of them. *)
Fixpoint all (P : ascii -> bool) (s : string) : bool :=
  match s with
  | EmptyString => true
  | String c s' => P c && all P s'
  end.

Definition not_nl (c : ascii) : bool := negb (bool_decide (c = nl)).

(** [unlines ls] is each line followed by a newline. *)
Fixpoint unlines (ls : list string) : string :=
  match ls with
  | [] => EmptyString
  | l :: ls' => l +:+ String nl (unlines ls')
  end.

End Text.

(* ===================================================================== *)
(** * SHA-256 (FIPS 180-4), hex lower case                               *)
(* ===================================================================== *)

Module Sha256.

Definition w32 (x : Z) : Z := x mod 2 ^ 32.
Definition add32 (x y : Z) : Z := w32 (x + y).
Definition rotr (n x : Z) : Z :=
  w32 (Z.lor (Z.shiftr x n) (Z.shiftl x (32 - n))).
Definition shr (n x : Z) : Z := Z.shiftr x n.
Definition not32 (x : Z) : Z := Z.lxor x (2 ^ 32 - 1).

Definition Ch (x y z : Z) : Z := Z.lxor (Z.land x y) (Z.land (not32 x) z).
Definition Maj (x y z : Z) : Z :=
  Z.lxor (Z.lxor (Z.land x y) (Z.land x z)) (Z.land y z).
Definition bsig0 (x : Z) : Z := Z.lxor (Z.lxor (rotr 2 x) (rotr 13 x)) (rotr 22 x).
Definition bsig1 (x : Z) : Z := Z.lxor (Z.lxor (rotr 6 x) (rotr 11 x)) (rotr 25 x).
Definition ssig0 (x : Z) : Z := Z.lxor (Z.lxor (rotr 7 x) (rotr 18 x)) (shr 3 x).
Definition ssig1 (x : Z) : Z := Z.lxor (Z.lxor (rotr 17 x) (rotr 19 x)) (shr 10 x).

(** The 64 round constants (FIPS 180-4, 4.2.2), written in decimal. *)
Definition K : list Z :=
  [ 1116352408; 1899447441; 3049323471; 3921009573; 961987163; 1508970993;
    2453635748; 2870763221; 3624381080; 310598401; 607225278; 1426881987;
    1925078388; 2162078206; 2614888103; 3248222580; 3835390401; 4022224774;
    264347078; 604807628; 770255983; 1249150122; 1555081692; 1996064986;
    2554220882; 2821834349; 2952996808; 3210313671; 3336571891; 3584528711;
    113926993; 338241895; 666307205; 773529912; 1294757372; 1396182291;
    1695183700; 1986661051; 2177026350; 2456956037; 2730485921; 2820302411;
    3259730800; 3345764771; 3516065817; 3600352804; 4094571909; 275423344;
    430227734; 506948616; 659060556; 883997877; 958139571; 1322822218;
    1537002063; 1747873779; 1955562222; 2024104815; 2227730452; 2361852424;
    2428436474; 2756734187; 3204031479; 3329325298 ].

(** The initial hash value (FIPS 180-4, 5.3.3), written in decimal. *)
Definition H0 : list Z :=
  [ 1779033703; 3144134277; 1013904242; 2773480762; 1359893119; 2600822924;
    528734635; 1541459225 ].

(** Big-endian bytes of a [k]-byte quantity. *)
Fixpoint be_bytes (k : nat) (x : Z) : list Z :=
  match k with
  | O => []
  | S k' => (Z.shiftr x (8 * Z.of_nat k')) mod 256 :: be_bytes k' x
  end.

(** Message padding: 0x80, zeros up to 56 mod 64, the bit length on 64 bits. *)
Definition pad (msg : list Z) : list Z :=
  let len := Z.of_nat (length msg) in
  msg ++ [128] ++ repeat 0 (Z.to_nat ((55 - len) mod 64)) ++ be_bytes 8 (8 * len).

Fixpoint be_words (n : nat) (bs : list Z) : list Z :=
  match n with
  | O => []
  | S n' =>
      match bs with
      | b0 :: b1 :: b2 :: b3 :: rest =>
          (b0 * 2 ^ 24 + b1 * 2 ^ 16 + b2 * 2 ^ 8 + b3) :: be_words n' rest
      | _ => []
      end
  end.

Definition nthZ (l : list Z) (i : nat) : Z := nth i l 0.

(** Message schedule: [ws] holds W_0 .. W_{t-1}; add [n] more words. *)
Fixpoint schedule (n : nat) (ws : list Z) : list Z :=
  match n with
  | O => ws
  | S n' =>
      let t := length ws in
      let wt := add32 (add32 (ssig1 (nthZ ws (t - 2))) (nthZ ws (t - 7)))
                      (add32 (ssig0 (nthZ ws (t - 15))) (nthZ ws (t - 16))) in
      schedule n' (ws ++ [wt])
  end.

Record regs := Regs { ra : Z; rb : Z; rc : Z; rd : Z; re : Z; rf : Z; rg : Z; rh : Z }.

Definition round (r : regs) (kw : Z * Z) : regs :=
  let t1 := add32 (add32 (add32 (rh r) (bsig1 (re r))) (add32 (Ch (re r) (rf r) (rg r)) (fst kw))) (snd kw) in
  let t2 := add32 (bsig0 (ra r)) (Maj (ra r) (rb r) (rc r)) in
  Regs (add32 t1 t2) (ra r) (rb r) (rc r) (add32 (rd r) t1) (re r) (rf r) (rg r).

Definition regs_of (h : list Z) : regs :=
  Regs (nthZ h 0) (nthZ h 1) (nthZ h 2) (nthZ h 3)
       (nthZ h 4) (nthZ h 5) (nthZ h 6) (nthZ h 7).

Definition compress (h : list Z) (block : list Z) : list Z :=
  let ws := schedule 48 (be_words 16 block) in
  let r := fold_left round (combine K ws) (regs_of h) in
  [ add32 (nthZ h 0) (ra r); add32 (nthZ h 1) (rb r);
    add32 (nthZ h 2) (rc r); add32 (nthZ h 3) (rd r);
    add32 (nthZ h 4) (re r); add32 (nthZ h 5) (rf r);
    add32 (nthZ h 6) (rg r); add32 (nthZ h 7) (rh r) ].

(** Fold [compress] over the 64-byte blocks; [n] bounds their number. *)
Fixpoint blocks (n : nat) (h : list Z) (bs : list Z) : list Z :=
  match n with
  | O => h
  | S n' =>
      match bs with
      | [] => h
      | _ => blocks n' (compress h (take 64 bs)) (drop 64 bs)
      end
  end.

Definition digest (msg : list Z) : list Z :=
  let p := pad msg in
  blocks (length p) H0 p.

Definition hex_digit (d : Z) : ascii :=
  if d <? 10 then ascii_of_N (Z.to_N (48 + d)) else ascii_of_N (Z.to_N (87 + d)).

Fixpoint hex_nibbles (k : nat) (x : Z) : string :=
  match k with
  | O => EmptyString
  | S k' => String (hex_digit ((Z.shiftr x (4 * Z.of_nat k')) mod 16)) (hex_nibbles k' x)
  end.

Fixpoint hex_words (ws : list Z) : string :=
  match ws with
  | [] => EmptyString
  | w :: ws' => hex_nibbles 8 w +:+ hex_words ws'
  end.

(** [createHash("sha256").update(content).digest("hex")] *)
Definition sha256_hex (content : string) : string :=
  hex_words (digest (Text.bytes content)).

End Sha256.

(* ===================================================================== *)
(** * JSON values, [JSON.stringify] and [JSON.parse]                     *)
(* ===================================================================== *)

Module Json.

(** The JavaScript values the program passes around.  [Undefined] is the
    value of an optional field set to [undefined]; [BigInt] stands for
    the values on which [JSON.stringify] throws a TypeError. *)
Unset Elimination Schemes.
Inductive value :=
| Undefined
| Null
| Bool (b : bool)
| Num (n : Z)
| BigInt (n : Z)
| Str (s : string)
| Arr (l : list value)
| Obj (l : list (string * value)).
Set Elimination Schemes.

Definition is_undefined (v : value) : bool :=
  match v with Undefined => true | _ => false end.

(** ** Numbers *)

Definition digit_char (d : Z) : ascii := ascii_of_N (Z.to_N (48 + d)).

Definition is_digit (c : ascii) : bool :=
  (48 <=? Text.code c) && (Text.code c <=? 57).

Fixpoint dec_go (fuel : nat) (n : Z) : string :=
  match fuel with
  | O => EmptyString
  | S f =>
      if n <? 10 then String (digit_char n) EmptyString
      else dec_go f (n / 10) +:+ String (digit_char (n mod 10)) EmptyString
  end.

(** Decimal digits of a natural number. *)
Definition dec (n : Z) : string := dec_go (S (Z.to_nat (Z.log2 n))) n.

(** [Number.prototype.toString] on an integer. *)
Definition number (n : Z) : string :=
  if n <? 0 then String "-" (dec (- n)) else dec n.

(** Value of a digit string, most significant digit first. *)
Fixpoint horner (acc : Z) (s : string) : Z :=
  match s with
  | EmptyString => acc
  | String c s' => horner (acc * 10 + (Text.code c - 48)) s'
  end.

(** The longest prefix of digits, and what follows it. *)
Fixpoint span_digits (s : string) : string * string :=
  match s with
  | String c s' =>
      if is_digit c then let (ds, r) := span_digits s' in (String c ds, r)
      else (EmptyString, s)
  | EmptyString => (EmptyString, EmptyString)
  end.

(** A number literal continues into a fraction or an exponent. *)
Definition frac_or_exp (s : string) : bool :=
  match s with
  | String c _ => (Text.code c =? 46) || (Text.code c =? 101) || (Text.code c =? 69)
  | EmptyString => false
  end.

(** JSON [int]: [0] or a non-zero digit followed by digits.  Fractions
    and exponents are not modelled: such a literal is reported as
    unparseable. *)
Definition parse_nat (s : string) : option (Z * string) :=
  let (ds, r) := span_digits s in
  if frac_or_exp r then None
  else
    match ds with
    | EmptyString => None
    | String c EmptyString => Some (Text.code c - 48, r)
    | String c _ => if Text.code c =? 48 then None else Some (horner 0 ds, r)
    end.

(** ** Strings *)

Definition hex_of (c : ascii) : option Z :=
  let n := Text.code c in
  if (48 <=? n) && (n <=? 57) then Some (n - 48)
  else if (97 <=? n) && (n <=? 102) then Some (n - 87)
  else if (65 <=? n) && (n <=? 70) then Some (n - 55)
  else None.

Definition chr (n : Z) : ascii := ascii_of_N (Z.to_N n).

(** QuoteJSONString, one character. *)
Definition esc (c : ascii) : string :=
  let n := Text.code c in
  if n =? 34 then String Text.bsl (String Text.dq EmptyString)
  else if n =? 92 then String Text.bsl (String Text.bsl EmptyString)
  else if n =? 8 then String Text.bsl "b"
  else if n =? 12 then String Text.bsl "f"
  else if n =? 10 then String Text.bsl "n"
  else if n =? 13 then String Text.bsl "r"
  else if n =? 9 then String Text.bsl "t"
  else if n <? 32 then
    String Text.bsl ("u00" +:+ String (Sha256.hex_digit (n / 16))
                               (String (Sha256.hex_digit (n mod 16)) EmptyString))
  else String c EmptyString.

Fixpoint quote_body (s : string) : string :=
  match s with
  | EmptyString => EmptyString
  | String c s' => esc c +:+ quote_body s'
  end.

Definition quote (s : string) : string :=
  String Text.dq (quote_body s +:+ String Text.dq EmptyString).

(** UTF-8 bytes of a code point of the basic plane; surrogates, which
    need their pair, are not modelled. *)
Definition utf8 (n : Z) : option string :=
  if n <? 128 then Some (String (chr n) EmptyString)
  else if n <? 2048 then
    Some (String (chr (192 + n / 64)) (String (chr (128 + n mod 64)) EmptyString))
  else if (55296 <=? n) && (n <=? 57343) then None
  else Some (String (chr (224 + n / 4096))
               (String (chr (128 + (n / 64) mod 64))
                  (String (chr (128 + n mod 64)) EmptyString))).

Definition unesc (e : ascii) : option ascii :=
  let n := Text.code e in
  if n =? 34 then Some Text.dq
  else if n =? 92 then Some Text.bsl
  else if n =? 47 then Some "/"%char
  else if n =? 98 then Some (chr 8)
  else if n =? 102 then Some (chr 12)
  else if n =? 110 then Some (chr 10)
  else if n =? 114 then Some (chr 13)
  else if n =? 116 then Some (chr 9)
  else None.

(** The body of a string literal, after its opening quote. *)
Fixpoint parse_str (s : string) : option (string * string) :=
  match s with
  | EmptyString => None
  | String c s1 =>
      if Text.code c =? 34 then Some (EmptyString, s1)
      else if Text.code c =? 92 then
        match s1 with
        | String e s2 =>
            if Text.code e =? 117 then
              match s2 with
              | String h1 (String h2 (String h3 (String h4 s3))) =>
                  match hex_of h1, hex_of h2, hex_of h3, hex_of h4 with
                  | Some a, Some b, Some c', Some d =>
                      match utf8 (((a * 16 + b) * 16 + c') * 16 + d), parse_str s3 with
                      | Some u, Some (r, rest) => Some (u +:+ r, rest)
                      | _, _ => None
                      end
                  | _, _, _, _ => None
                  end
              | _ => None
              end
            else
              match unesc e, parse_str s2 with
              | Some ch, Some (r, rest) => Some (String ch r, rest)
              | _, _ => None
              end
        | EmptyString => None
        end
      else if Text.code c <? 32 then None
      else
        match parse_str s1 with
        | Some (r, rest) => Some (String c r, rest)
        | None => None
        end
  end.

(** ** Objects: property order *)

(** An array index is the canonical decimal form of an integer in
    [0, 2^32 - 2]; JavaScript enumerates such keys first, ascending, and
    the other keys after them in creation order. *)
Definition index_of (k : string) : option Z :=
  match span_digits k with
  | (String c ds, EmptyString) =>
      let n := horner 0 (String c ds) in
      if (n <=? 4294967294) && bool_decide (dec n = k) then Some n else None
  | _ => None
  end.

Definition has_key (k : string) (l : list (string * value)) : bool :=
  existsb (fun kv => bool_decide (kv.1 = k)) l.

Fixpoint obj_get (k : string) (l : list (string * value)) : value :=
  match l with
  | [] => Undefined
  | (k', v) :: l' => if decide (k' = k) then v else obj_get k l'
  end.

Fixpoint obj_replace (k : string) (v : value) (l : list (string * value)) :=
  match l with
  | [] => []
  | (k', v') :: l' =>
      if decide (k' = k) then (k, v) :: l' else (k', v') :: obj_replace k v l'
  end.

Fixpoint obj_insert_index (n : Z) (k : string) (v : value) (l : list (string * value)) :=
  match l with
  | [] => [(k, v)]
  | (k', v') :: l' =>
      match index_of k' with
      | Some n' => if n' <? n then (k', v') :: obj_insert_index n k v l'
                   else (k, v) :: l
      | None => (k, v) :: l
      end
  end.

(** [o[k] = v] on an ordinary object (CreateDataProperty). *)
Definition obj_set (l : list (string * value)) (k : string) (v : value) :=
  if has_key k l then obj_replace k v l
  else match index_of k with
       | Some n => obj_insert_index n k v l
       | None => l ++ [(k, v)]
       end.

(** [const { [k]: _, ...rest } = o]: the object without its property [k]. *)
Definition obj_remove (k : string) (l : list (string * value)) :=
  filter (fun kv => kv.1 <> k) l.

(** ** JSON.stringify *)

(** [None] is a thrown TypeError.  Members whose value is [undefined]
    are left out of an object; in an array [undefined] prints as null.
    The program only ever passes objects at top level. *)
Fixpoint ser (v : value) : option string :=
  match v with
  | Undefined | Null => Some "null"
  | Bool b => Some (if b then "true" else "false")
  | Num n => Some (number n)
  | BigInt _ => None
  | Str s => Some (quote s)
  | Arr l =>
      let fix go (l : list value) : option (list string) :=
        match l with
        | [] => Some []
        | x :: l' =>
            match ser x, go l' with
            | Some sx, Some r => Some (sx :: r)
            | _, _ => None
            end
        end in
      match go l with
      | Some parts => Some ("[" +:+ String.concat "," parts +:+ "]")
      | None => None
      end
  | Obj l =>
      let fix go (l : list (string * value)) : option (list string) :=
        match l with
        | [] => Some []
        | (k, x) :: l' =>
            match ser x, go l' with
            | Some sx, Some r =>
                Some (if is_undefined x then r else (quote k +:+ ":" +:+ sx) :: r)
            | _, _ => None
            end
        end in
      match go l with
      | Some parts => Some ("{" +:+ String.concat "," parts +:+ "}")
      | None => None
      end
  end.

Definition JSON_stringify (v : value) : option string := ser v.

(** The two list traversals of [ser], by name. *)
Fixpoint ser_elems (l : list value) : option (list string) :=
  match l with
  | [] => Some []
  | x :: l' =>
      match ser x, ser_elems l' with
      | Some sx, Some r => Some (sx :: r)
      | _, _ => None
      end
  end.

Fixpoint ser_members (l : list (string * value)) : option (list string) :=
  match l with
  | [] => Some []
  | (k, x) :: l' =>
      match ser x, ser_members l' with
      | Some sx, Some r =>
          Some (if is_undefined x then r else (quote k +:+ ":" +:+ sx) :: r)
      | _, _ => None
      end
  end.

(** ** What a value becomes through [JSON.parse(JSON.stringify(v))] *)

Fixpoint norm (v : value) : value :=
  match v with
  | Undefined => Null
  | Arr l => Arr (map norm l)
  | Obj l =>
      Obj ((fix go (l : list (string * value)) :=
              match l with
              | [] => []
              | (k, x) :: l' =>
                  if is_undefined x then go l' else (k, norm x) :: go l'
              end) l)
  | _ => v
  end.

Fixpoint norm_members (l : list (string * value)) : list (string * value) :=
  match l with
  | [] => []
  | (k, x) :: l' =>
      if is_undefined x then norm_members l' else (k, norm x) :: norm_members l'
  end.

(** ** Well-formed objects: distinct keys, in enumeration order *)

Fixpoint ordered (lo : Z) (ks : list string) : bool :=
  match ks with
  | [] => true
  | k :: ks' =>
      match index_of k with
      | Some n => (lo <? n) && ordered n ks'
      | None => forallb (fun k' => if index_of k' is None then true else false) ks'
      end
  end.

Definition keys_ok (ks : list string) : bool :=
  bool_decide (NoDup ks) && ordered (-1) ks.

Fixpoint wf (v : value) : bool :=
  match v with
  | Arr l => forallb wf l
  | Obj l =>
      keys_ok (map fst l) &&
      (fix go (l : list (string * value)) :=
         match l with
         | [] => true
         | (_, x) :: l' => wf x && go l'
         end) l
  | _ => true
  end.

Fixpoint wf_members (l : list (string * value)) : bool :=
  match l with
  | [] => true
  | (_, x) :: l' => wf x && wf_members l'
  end.

(** The property list of a JavaScript object. *)
Definition wf_object (l : list (string * value)) : bool := wf (Obj l).

(** Number of recursive calls [parse_value] makes on the text of a value. *)
Fixpoint size (v : value) : nat :=
  match v with
  | Arr l => S ((fix go (l : list value) :=
                   match l with [] => O | x :: l' => S (size x + go l') end) l)
  | Obj l => S ((fix go (l : list (string * value)) :=
                   match l with [] => O | (_, x) :: l' => S (size x + go l') end) l)
  | _ => 1%nat
  end.

Fixpoint size_elems (l : list value) : nat :=
  match l with [] => O | x :: l' => S (size x + size_elems l') end.

Fixpoint size_members (l : list (string * value)) : nat :=
  match l with [] => O | (_, x) :: l' => S (size x + size_members l') end.

(** ** JSON.parse *)

Fixpoint skip_ws (s : string) : string :=
  match s with
  | String c s' =>
      let n := Text.code c in
      if (n =? 32) || (n =? 9) || (n =? 10) || (n =? 13) then skip_ws s' else s
  | EmptyString => s
  end.

(** [s] without its prefix [lit], when it starts with it. *)
Fixpoint strip (lit s : string) : option string :=
  match lit, s with
  | EmptyString, _ => Some s
  | String a lit', String b s' => if ascii_dec a b then strip lit' s' else None
  | String _ _, EmptyString => None
  end.

Definition expect (lit : string) (v : value) (s : string) : option (value * string) :=
  match strip lit s with
  | Some r => Some (v, r)
  | None => None
  end.

(** Recursive descent; [fuel] bounds the number of nested calls. *)
Fixpoint parse_value (fuel : nat) (s : string) : option (value * string) :=
  match fuel with
  | O => None
  | S f =>
      match skip_ws s with
      | EmptyString => None
      | String c s1 =>
          let n := Text.code c in
          if n =? 123 then                                   (* { *)
            match skip_ws s1 with
            | String c2 s2 =>
                if Text.code c2 =? 125 then Some (Obj [], s2)
                else parse_members f [] (String c2 s2)
            | EmptyString => None
            end
          else if n =? 91 then                               (* [ *)
            match skip_ws s1 with
            | String c2 s2 =>
                if Text.code c2 =? 93 then Some (Arr [], s2)
                else parse_elems f [] (String c2 s2)
            | EmptyString => None
            end
          else if n =? 34 then                               (* string *)
            match parse_str s1 with
            | Some (str, r) => Some (Str str, r)
            | None => None
            end
          else if n =? 45 then                               (* - *)
            match parse_nat s1 with
            | Some (m, r) => Some (Num (- m), r)
            | None => None
            end
          else if is_digit c then
            match parse_nat (String c s1) with
            | Some (m, r) => Some (Num m, r)
            | None => None
            end
          else if n =? 116 then expect "true" (Bool true) (String c s1)
          else if n =? 102 then expect "false" (Bool false) (String c s1)
          else if n =? 110 then expect "null" Null (String c s1)
          else None
      end
  end
with parse_elems (fuel : nat) (acc : list value) (s : string)
     : option (value * string) :=
  match fuel with
  | O => None
  | S f =>
      match parse_value f s with
      | Some (v, r) =>
          match skip_ws r with
          | String c r' =>
              if Text.code c =? 44 then parse_elems f (v :: acc) r'
              else if Text.code c =? 93 then Some (Arr (rev (v :: acc)), r')
              else None
          | EmptyString => None
          end
      | None => None
      end
  end
with parse_members (fuel : nat) (acc : list (string * value)) (s : string)
     : option (value * string) :=
  match fuel with
  | O => None
  | S f =>
      match skip_ws s with
      | String c s1 =>
          if Text.code c =? 34 then
            match parse_str s1 with
            | Some (k, r) =>
                match skip_ws r with
                | String c2 r2 =>
                    if Text.code c2 =? 58 then
                      match parse_value f r2 with
                      | Some (v, r3) =>
                          match skip_ws r3 with
                          | String c3 r4 =>
                              if Text.code c3 =? 44 then parse_members f (obj_set acc k v) r4
                              else if Text.code c3 =? 125 then Some (Obj (obj_set acc k v), r4)
                              else None
                          | EmptyString => None
                          end
                      | None => None
                      end
                    else None
                | EmptyString => None
                end
            | None => None
            end
          else None
      | EmptyString => None
      end
  end.

(** [JSON.parse(text)]; [None] is a thrown SyntaxError. *)
Definition JSON_parse (text : string) : option value :=
  match parse_value (S (String.length text)) text with
  | Some (v, r) =>
      match skip_ws r with
      | EmptyString => Some v
      | _ => None
      end
  | None => None
  end.

(** ** Predicates used to state the round trip *)

(** What [dec_go] produces on a number its fuel covers. *)
Definition dec_ok (n : Z) (s : string) : Prop :=
  Text.all is_digit s = true /\ horner 0 s = n /\
  exists c t, s = String c t /\ (Text.code c = 48 -> t = EmptyString).

(** A character that may follow a number literal. *)
Definition follow_ok (rest : string) : bool :=
  match rest with
  | EmptyString => true
  | String c _ => negb (is_digit c) && negb (frac_or_exp rest)
  end.

Definition json_ws (c : ascii) : bool :=
  let n := Text.code c in (n =? 32) || (n =? 9) || (n =? 10) || (n =? 13).

(** The characters a serialized value can start with. *)
Definition value_start (c : ascii) : bool :=
  let n := Text.code c in
  (n =? 123) || (n =? 91) || (n =? 34) || (n =? 45) || is_digit c
  || (n =? 116) || (n =? 102) || (n =? 110).

Definition starts (P : ascii -> bool) (s : string) : bool :=
  match s with String c _ => P c | EmptyString => false end.

(** A separator or a closing bracket may follow any value. *)
Definition closer (c : ascii) : bool :=
  let n := Text.code c in (n =? 44) || (n =? 93) || (n =? 125).

(** The text of [v] followed by [rest] parses to [norm v], leaving [rest]. *)
Definition parses (v : value) (s : string) : Prop :=
  forall fuel rest, (size (norm v) <= fuel)%nat -> follow_ok rest = true ->
    parse_value fuel (s +:+ rest) = Some (norm v, rest).

(** A member of the text of an object: its key, a colon, its value. *)
Definition member_parses (kv : string * value) (p : string) : Prop :=
  exists x sx, kv.2 = norm x /\ p = quote kv.1 +:+ ":" +:+ sx /\ parses x sx.

Definition set_member (acc : list (string * value)) (kv : string * value) :=
  obj_set acc kv.1 kv.2.

Definition plain (k : string) : bool :=
  if index_of k is None then true else false.

(** The text [s] of [v] parses back, and is long enough to pay for the
    recursive calls. *)
Definition good (v : value) (s : string) : Prop :=
  parses v s /\ (size (norm v) <= String.length s)%nat.

Definition member_good (kv : string * value) (p : string) : Prop :=
  member_parses kv p /\ (size kv.2 < String.length p)%nat.

End Json.

(* ===================================================================== *)
(** * Date.prototype.toISOString                                          *)
(* ===================================================================== *)

Module Date.

(** Left-pad the decimal digits of [n] with zeros to [width]. *)
Definition pad (width : nat) (n : Z) : string :=
  let d := Json.dec n in
  String.string_of_list_ascii (repeat "0"%char (width - String.length d)) +:+ d.

(** The proleptic Gregorian date of a day count from 1970-01-01. *)
Definition civil (days : Z) : Z * Z * Z :=
  let z := days + 719468 in
  let era := z / 146097 in
  let doe := z - era * 146097 in
  let yoe := (doe - doe / 1460 + doe / 36524 - doe / 146096) / 365 in
  let doy := doe - (365 * yoe + yoe / 4 - yoe / 100) in
  let mp := (5 * doy + 2) / 153 in
  let d := doy - (153 * mp + 2) / 5 + 1 in
  let m := if mp <? 10 then mp + 3 else mp - 9 in
  let y := yoe + era * 400 + (if m <=? 2 then 1 else 0) in
  (y, m, d).

Definition year (y : Z) : string :=
  if (0 <=? y) && (y <=? 9999) then pad 4 y
  else if y <? 0 then String "-" (pad 6 (- y))
  else String "+" (pad 6 y).

(** [new Date(ms).toISOString()] *)
Definition toISOString (ms : Z) : string :=
  let '(y, m, d) := civil (ms / 86400000) in
  let t := ms mod 86400000 in
  year y +:+ "-" +:+ pad 2 m +:+ "-" +:+ pad 2 d +:+ "T"
    +:+ pad 2 (t / 3600000) +:+ ":" +:+ pad 2 (t / 60000 mod 60) +:+ ":"
    +:+ pad 2 (t / 1000 mod 60) +:+ "." +:+ pad 3 (t mod 1000) +:+ "Z".

End Date.

(* ===================================================================== *)
(** * The host: file system, clock, logger and exceptions                *)
(* ===================================================================== *)

Module Host.

Import Json.

(** The [node:fs/promises] calls the program makes. *)
Inductive IoOp :=
| Mkdir | Access | ReadFile | WriteFile | AppendFile | Open | Sync | Close
| Readdir | Statfs.

#[export] Instance IoOp_eq_dec : EqDecision IoOp.
Proof. solve_decision. Defined.

(** A file is named by its directory and its name in it. *)
Definition Path : Type := string * string.

Inductive Err :=
  | EEXIST (path : Path)
  | ENOENT (path : Path)
  | EIO (op : IoOp) (path : Path)
  | TypeError.

(** The logger calls of the store, one constructor per message.
    [DebugLogged] is "Logged action ${storedAction.id} (seq:
    ${storedAction.sequence})"; it keeps the record it prints from. *)
Inductive LogMsg :=
| InfoInitialized (path : Path)
| DebugClosed
| WarnNotInitialized
| WarnEmergencyMode
| ErrorLowDisk
| ErrorSerialization
| DebugLogged (storedAction : list (string * value))
| ErrorWriteFailed (e : Err)
| ErrorEmergencyFailed (e : Err)
| WarnReadFailed (e : Err)
| WarnSaveStateFailed (e : Err).

(** What the outside world answers during one call: the wall clock as
    [Date.now()] reads it, the answer of [statfs]
    ([bavail], [bsize]) and which file-system calls fail. *)
Record Env := {
  now_ms : Z;
  statfs : Z * Z;
  fault : IoOp -> Path -> bool;
}.

(** [new Date().toISOString()] *)
Definition now (env : Env) : string := Date.toISOString (now_ms env).

Record StreamState := { sequence : Z; lastHash : option string }.

(** The private fields of a [ContinuityStore] instance. *)
Record Instance := {
  state : StreamState;
  currentStreamPath : option Path;
  emergencyMode : bool;
  initialized : bool;
}.

(** The instance, the disk and what was logged so far. *)
Record World := {
  mem : Instance;
  fs : gmap Path string;
  logs : list LogMsg;
}.

Definition new_instance : Instance :=
  {| state := {| sequence := 0; lastHash := None |};
     currentStreamPath := None; emergencyMode := false; initialized := false |}.

Definition set_mem (f : Instance -> Instance) (w : World) : World :=
  {| mem := f (mem w); fs := fs w; logs := logs w |}.
Definition set_fs (f : gmap Path string -> gmap Path string) (w : World) : World :=
  {| mem := mem w; fs := f (fs w); logs := logs w |}.

Definition with_state (st : StreamState) (i : Instance) : Instance :=
  {| state := st; currentStreamPath := currentStreamPath i;
     emergencyMode := emergencyMode i; initialized := initialized i |}.
Definition with_path (p : option Path) (i : Instance) : Instance :=
  {| state := state i; currentStreamPath := p;
     emergencyMode := emergencyMode i; initialized := initialized i |}.
Definition with_emergency (b : bool) (i : Instance) : Instance :=
  {| state := state i; currentStreamPath := currentStreamPath i;
     emergencyMode := b; initialized := initialized i |}.
Definition with_initialized (b : bool) (i : Instance) : Instance :=
  {| state := state i; currentStreamPath := currentStreamPath i;
     emergencyMode := emergencyMode i; initialized := b |}.

(** ** The monad of an async method: state and exceptions *)

Inductive Res (A : Type) :=
  | Ok (a : A) (w : World)
  | Threw (e : Err) (w : World).
Arguments Ok {A} a w.
Arguments Threw {A} e w.

Definition M (A : Type) : Type := World -> Res A.

Definition ret {A} (a : A) : M A := fun w => Ok a w.
Definition throw {A} (e : Err) : M A := fun w => Threw e w.
Definition bind {A B} (m : M A) (k : A -> M B) : M B :=
    fun w => match m w with
             | Ok a w' => k a w'
             | Threw e w' => Threw e w'
             end.
  (** [try { m } catch (e) { h e }] *)
Definition catch {A} (m : M A) (h : Err -> M A) : M A :=
    fun w => match m w with
             | Ok a w' => Ok a w'
             | Threw e w' => h e w'
             end.
  (** [try { m } finally { f }] *)
Definition finally {A} (m : M A) (f : M unit) : M A :=
    fun w => match m w with
             | Ok a w' => match f w' with
                          | Ok _ w'' => Ok a w''
                          | Threw e w'' => Threw e w''
                          end
             | Threw e w' => match f w' with
                             | Ok _ w'' => Threw e w''
                             | Threw e' w'' => Threw e' w''
                             end
             end.

Definition get {A} (f : World -> A) : M A := fun w => Ok (f w) w.
Definition modify (f : World -> World) : M unit := fun w => Ok tt (f w).
Definition add_log (m : LogMsg) (w : World) : World :=
  {| mem := mem w; fs := fs w; logs := logs w ++ [m] |}.
Definition log (m : LogMsg) : M unit := modify (add_log m).

Definition res_world {A} (r : Res A) : World :=
  match r with Ok _ w => w | Threw _ w => w end.

#[export] Instance M_ret : MRet M := @ret.
#[export] Instance M_bind : MBind M := fun A B k m => bind m k.

Notation "'let*' x := m 'in' k" := (bind m (fun x => k))
  (at level 10, x name, m at level 100, k at level 200, only parsing).

(** ** File-system calls *)

Section Calls.
Variable env : Env.

Definition guard (op : IoOp) (path : Path) : M unit :=
  if fault env op path then throw (EIO op path) else ret tt.

Definition content_of (w : World) (path : Path) : string :=
  default EmptyString (fs w !! path).

(** [fs.mkdir(dir, { recursive: true })]; directories are implicit. *)
Definition fs_mkdir (dir : string) : M unit := guard Mkdir (dir, EmptyString).

(** [fs.access(path)] *)
Definition fs_access (path : Path) : M unit :=
  guard Access path ;;
  let* f := get fs in
  if f !! path is Some _ then ret tt else throw (ENOENT path).

(** [fs.readFile(path, "utf-8")] *)
Definition fs_readFile (path : Path) : M string :=
  guard ReadFile path ;;
  let* f := get fs in
  if f !! path is Some c then ret c else throw (ENOENT path).

(** [fs.writeFile(path, data)], overwriting. *)
Definition fs_writeFile (path : Path) (data : string) : M unit :=
  guard WriteFile path ;;
  modify (set_fs (insert path data)).

(** [fs.writeFile(path, data, { flag: "wx" })]: exclusive create. *)
Definition fs_writeFile_wx (path : Path) (data : string) : M unit :=
  guard WriteFile path ;;
  let* f := get fs in
  if f !! path is Some _ then throw (EEXIST path)
  else modify (set_fs (insert path data)).

(** [fs.appendFile(path, data)], creating the file when absent. *)
Definition fs_appendFile (path : Path) (data : string) : M unit :=
  guard AppendFile path ;;
  modify (fun w => set_fs (insert path (content_of w path +:+ data)) w).

(** [fs.open(path, "r+")] *)
Definition fs_open (path : Path) : M unit :=
  guard Open path ;;
  let* f := get fs in
  if f !! path is Some _ then ret tt else throw (ENOENT path).

Definition fd_sync (path : Path) : M unit := guard Sync path.
Definition fd_close (path : Path) : M unit := guard Close path.

(** [path.join(dir, name)] *)
Definition path_join (dir name : string) : Path := (dir, name).

(** [fs.readdir(dir)]: the names of the files in [dir]. *)
Definition fs_readdir (dir : string) : M (list string) :=
  guard Readdir (dir, EmptyString) ;;
  let* f := get fs in
  ret (omap (fun p : Path => if decide (p.1 = dir) then Some p.2 else None)
            (map fst (map_to_list f))).

End Calls.

End Host.

(* ===================================================================== *)
(** * lib/store.ts: class ContinuityStore                                *)
(* ===================================================================== *)

Module Store.

Import Json Host.

Inductive LogLevel := off | judgment | everything.

(** The fields of [ContinuityConfig] the store reads. *)
Record ContinuityConfig := {
  logLevel : LogLevel;
  storagePath : string;
  enableIntegrityCheck : bool;
}.

(** [ActionEntry] and [StoredAction] are JavaScript objects. *)
Abbreviation object := (list (string * value)).

Definition MIN_FREE_SPACE_MB : Z := 100.
Definition EMERGENCY_THRESHOLD_MB : Z := 50.

(** ** Reading JavaScript values *)

(** [v[k]] where [v] is known not to be null or undefined. *)
Definition field (v : value) (k : string) : value :=
  match v with Obj l => obj_get k l | _ => Undefined end.

(** [v[k]]; [None] is the TypeError of a property read on null or
    undefined. *)
Definition prop (v : value) (k : string) : option value :=
  match v with
  | Null | Undefined => None
  | _ => Some (field v k)
  end.

(** ToBoolean *)
Definition truthy (v : value) : bool :=
  match v with
  | Undefined | Null => false
  | Bool b => b
  | Num n | BigInt n => negb (n =? 0)
  | Str s => negb (bool_decide (s = EmptyString))
  | Arr _ | Obj _ => true
  end.

(** [a === b]; two objects read from different places are never the
    same object. *)
Definition strict_eq (a b : value) : bool :=
  match a, b with
  | Undefined, Undefined | Null, Null => true
  | Bool x, Bool y => bool_decide (x = y)
  | Num x, Num y | BigInt x, BigInt y => x =? y
  | Str x, Str y => bool_decide (x = y)
  | _, _ => false
  end.

(** ToString on a primitive value. *)
Definition to_string (v : value) : string :=
  match v with
  | Undefined => "undefined"
  | Null => "null"
  | Bool b => if b then "true" else "false"
  | Num n | BigInt n => number n
  | Str s => s
  | Arr _ | Obj _ => "[object Object]"
  end.

Definition stringify (v : value) : M string :=
  match JSON_stringify v with
  | Some s => ret s
  | None => throw TypeError
  end.

Definition LF : string := String Text.nl EmptyString.

(** The argument of [queryActions]. *)
Record Criteria := {
  c_type : option string;
  c_platform : option string;
  c_since : option string;
  c_until : option string;
  c_limit : option Z;
}.

(** [this.state.lastHash || "genesis"] *)
Definition or_genesis (h : option string) : string :=
  match h with
  | Some (String c s) => String c s
  | _ => "genesis"
  end.

Section Methods.

Variable config : ContinuityConfig.
Variable env : Env.

Definition getTodayStreamPath : Path :=
  let date := Text.before "T" (now env) in
  path_join (storagePath config) ("action-stream-" +:+ date +:+ ".jsonl").

(** The paths share their directory, so sorting them is sorting the
    names. *)
Definition getStreamFiles : M (list Path) :=
  catch
    (let* entries := fs_readdir env (storagePath config) in
     let files :=
       filter (fun entry => Text.startsWith "action-stream-" entry = true
                            /\ Text.endsWith ".jsonl" entry = true) entries in
     ret (map (path_join (storagePath config)) (merge_sort String.le files)))
    (fun _ => ret []).

Definition header : value :=
  Obj [("_header", Bool true); ("schema_version", Str "1.0.0");
       ("created", Str (now env));
       ("integrity_enabled", Bool (enableIntegrityCheck config))].

Definition writeStreamHeader : M unit :=
  let* p := get (fun w => currentStreamPath (mem w)) in
  let* line := stringify header in
  match p with
  | Some path => fs_writeFile_wx env path (line +:+ LF)
  | None => throw TypeError
  end.

(** A parsed [.state.json].  Only the shape [saveState] writes is
    modelled; any other content counts as unreadable. *)
Definition state_of (v : value) : option StreamState :=
  match field v "sequence", field v "lastHash" with
  | Num n, Str h => Some {| sequence := n; lastHash := Some h |}
  | Num n, Null => Some {| sequence := n; lastHash := None |}
  | _, _ => None
  end.

Definition fresh : StreamState := {| sequence := 0; lastHash := None |}.

Definition loadState : M unit :=
  let statePath := path_join (storagePath config) ".state.json" in
  catch
    (let* content := fs_readFile env statePath in
     match JSON_parse content ≫= state_of with
     | Some st => modify (set_mem (with_state st))
     | None => throw TypeError
     end)
    (fun _ => modify (set_mem (with_state fresh))).

Definition state_json (st : StreamState) : value :=
  Obj [("sequence", Num (sequence st));
       ("lastHash", match lastHash st with Some h => Str h | None => Null end)].

Definition saveState : M unit :=
  let statePath := path_join (storagePath config) ".state.json" in
  catch
    (let* st := get (fun w => state (mem w)) in
     let* text := stringify (state_json st) in
     fs_writeFile env statePath text)
    (fun e => log (WarnSaveStateFailed e)).

Definition initialize : M unit :=
  let* init := get (fun w => initialized (mem w)) in
  if init then ret tt
  else
    fs_mkdir env (storagePath config);;
    fs_mkdir env (storagePath config +:+ "/backups");;
    fs_mkdir env (storagePath config +:+ "/checkpoints");;
    loadState;;
    modify (set_mem (with_path (Some getTodayStreamPath)));;
    catch (fs_access env getTodayStreamPath) (fun _ => writeStreamHeader);;
    modify (set_mem (with_initialized true));;
    log (InfoInitialized getTodayStreamPath).

Definition close : M unit :=
  let* init := get (fun w => initialized (mem w)) in
  if negb init then ret tt
  else
    saveState;;
    modify (set_mem (with_initialized false));;
    log DebugClosed.

(** [JSON.stringify(action) + previous], hashed. *)
Definition calculateHash (action : object) (previous : string) : M string :=
  let* content := stringify (Obj action) in
  ret (Sha256.sha256_hex (content +:+ previous)).

Definition buildStoredAction (entry : object) : M object :=
  let* st := get (fun w => state (mem w)) in
  let sequence := sequence st + 1 in
  let actionForHash := obj_set entry "sequence" (Num sequence) in
  if enableIntegrityCheck config then
    let previousHash := or_genesis (lastHash st) in
    let* hash := calculateHash actionForHash previousHash in
    ret (obj_set actionForHash "_integrity"
            (Obj [("hash", Str hash); ("previous", Str previousHash)]))
  else ret actionForHash.

Definition checkDiskSpace : M bool :=
  catch
    (guard env Statfs (storagePath config, EmptyString);;
     let (bavail, bsize) := statfs env in
     (* freeMB = bavail * bsize / 1024 / 1024;  freeMB > MIN_FREE_SPACE_MB *)
     ret (bool_decide (MIN_FREE_SPACE_MB * 1024 * 1024 < bavail * bsize)))
    (fun _ => ret true).

Definition logToEmergency (entry : object) : M bool :=
  let emergencyPath := path_join (storagePath config) "EMERGENCY_RECOVERY.jsonl" in
  catch
    (let emergencyEntry :=
       obj_set (obj_set entry "_emergency" (Bool true))
               "_emergency_timestamp" (Str (now env)) in
     let* line := stringify (Obj emergencyEntry) in
     fs_appendFile env emergencyPath (line +:+ LF);;
     ret true)
    (fun e => log (ErrorEmergencyFailed e);; ret false).

Definition num_or (d : Z) (v : value) : Z :=
  match v with Num n => n | _ => d end.

(** The state update after a durable append. *)
Definition commit (storedAction : object) (st : StreamState) : StreamState :=
  let seq := num_or (sequence st) (obj_get "sequence" storedAction) in
  let integrity := obj_get "_integrity" storedAction in
  if enableIntegrityCheck config && truthy integrity then
    {| sequence := seq;
       lastHash := match field integrity "hash" with
                   | Str h => Some h
                   | _ => None
                   end |}
  else {| sequence := seq; lastHash := lastHash st |}.

(** The rotation step of [logAction]: on a new day, switch to the
    new day's file and write its header. *)
Definition rotate : M unit :=
  let todayPath := getTodayStreamPath in
  let* cur := get (fun w => currentStreamPath (mem w)) in
  if bool_decide (cur = Some todayPath) then ret tt
  else modify (set_mem (with_path (Some todayPath)));;
       writeStreamHeader.

(** The append of [logAction] and the fsync that follows it. *)
Definition durable (path : Path) (jsonLine : string) : M unit :=
  fs_appendFile env path (jsonLine +:+ LF);;
  fs_open env path;;
  finally (fd_sync env path) (fd_close env path).

Definition logAction (entry : object) : M bool :=
  match logLevel config with
  | off => ret true
  | _ =>
    let* init := get (fun w => initialized (mem w)) in
    if negb init then log WarnNotInitialized;; ret false
    else
      let* emergency := get (fun w => emergencyMode (mem w)) in
      if emergency then log WarnEmergencyMode;; logToEmergency entry
      else
        let* hasSpace := checkDiskSpace in
        if negb hasSpace then
          modify (set_mem (with_emergency true));;
          log ErrorLowDisk;;
          logToEmergency entry
        else
          rotate;;
          let* storedAction := buildStoredAction entry in
          let* jsonLine := catch (let* line := stringify (Obj storedAction) in ret (Some line))
                                 (fun _ => log ErrorSerialization;; ret None) in
          match jsonLine with
          | None => ret false
          | Some jsonLine =>
              catch
                ((* [this.currentStreamPath] is today's path after [rotate] *)
                 durable getTodayStreamPath jsonLine;;
                 modify (set_mem (fun i => with_state (commit storedAction (state i)) i));;
                 log (DebugLogged storedAction);;
                 ret true)
                (fun e => log (ErrorWriteFailed e);; logToEmergency entry)
          end
  end.

(** The loop of [getRecentActions], from the last line backwards. *)
Fixpoint recent_go (limit : Z) (rev_lines : list string) (actions : list value)
  : list value :=
  match rev_lines with
  | [] => actions
  | line :: rest =>
      if Z.of_nat (length actions) <? limit then
        match JSON_parse line with
        | Some action => recent_go limit rest (action :: actions)
        | None => recent_go limit rest actions
        end
      else actions
  end.

Definition getRecentActions (limit : Z) : M (list value) :=
  let* p := get (fun w => currentStreamPath (mem w)) in
  match p with
  | None => ret []
  | Some path =>
      catch
        (let* content := fs_readFile env path in
         ret (recent_go limit (rev (Text.lines content)) []))
        (fun e => log (WarnReadFailed e);; ret [])
  end.

Definition getLastActionTime : M value :=
  let* recentActions := getRecentActions 1 in
  (* recentActions[0]?.timestamp || null *)
  let t := match recentActions with
           | a :: _ => field a "timestamp"
           | [] => Undefined
           end in
  ret (if truthy t then t else Null).

(** ** queryActions *)

(** [a < b] and [a > b] against a string bound; operands that are
    not strings compare as numbers, and the bounds the program passes
    (ISO dates) are not numerals, so the answer is false there. *)
Definition lt_str (v : value) (bound : string) : bool :=
  match v with Str t => String.ltb t bound | _ => false end.
Definition gt_str (v : value) (bound : string) : bool :=
  match v with Str t => String.ltb bound t | _ => false end.

(** [criteria.k && ...]: an absent or empty criterion is not applied. *)
Definition given (o : option string) : option string :=
  match o with
  | Some (String c s) => Some (String c s)
  | _ => None
  end.

(** The four filters; [None] is the TypeError of reading a property of
    null, which the loop catches: the line is skipped either way. *)
Definition admits (criteria : Criteria) (action : value) : option bool :=
  r1 ← match given (c_type criteria) with
       | Some t => v ← prop action "type"; Some (strict_eq v (Str t))
       | None => Some true
       end;
  if negb r1 then Some false else
  r2 ← match given (c_platform criteria) with
       | Some t => v ← prop action "platform"; Some (strict_eq v (Str t))
       | None => Some true
       end;
  if negb r2 then Some false else
  r3 ← match given (c_since criteria) with
       | Some t => v ← prop action "timestamp"; Some (negb (lt_str v t))
       | None => Some true
       end;
  if negb r3 then Some false else
  match given (c_until criteria) with
  | Some t => v ← prop action "timestamp"; Some (negb (gt_str v t))
  | None => Some true
  end.

(** The inner loop; the flag tells that [return actions] was reached. *)
Fixpoint queryLines (criteria : Criteria) (limit : Z) (actions : list value)
         (lines : list string) : list value * bool :=
  match lines with
  | [] => (actions, false)
  | line :: rest =>
      match JSON_parse line ≫= (fun a => if admits criteria a is Some true
                                         then Some a else None) with
      | Some action =>
          let actions' := actions ++ [action] in
          if limit <=? Z.of_nat (length actions') then (actions', true)
          else queryLines criteria limit actions' rest
      | None => queryLines criteria limit actions rest
      end
  end.

Fixpoint queryFiles (criteria : Criteria) (limit : Z) (actions : list value)
         (files : list Path) : M (list value) :=
  match files with
  | [] => ret actions
  | file :: rest =>
      let* r := catch
                  (let* content := fs_readFile env file in
                   ret (queryLines criteria limit actions (Text.lines content)))
                  (fun _ => ret (actions, false)) in
      if r.2 then ret r.1 else queryFiles criteria limit r.1 rest
  end.

Definition queryActions (criteria : Criteria) : M (list value) :=
  (* criteria.limit || 100 *)
  let limit := match c_limit criteria with
               | Some n => if n =? 0 then 100 else n
               | None => 100
               end in
  let* files := getStreamFiles in
  queryFiles criteria limit [] files.

End Methods.

End Store.

(* ===================================================================== *)
(** * lib/integrity.ts: class IntegrityValidator                         *)
(* ===================================================================== *)

Module Integrity.

Import Json Host.
Import Store (object, field, prop, truthy, strict_eq, to_string).

Inductive ErrorType := hash_mismatch | chain_break | invalid_json | missing_integrity.

(** The [details] message, by its template and the values it prints. *)
Inductive Details :=
| ExpectedPrevious (expected found : value)
| HashMismatch (calculated : string) (stored : value)
| FailedToParse
| FailedToRead (file : string).

Record IntegrityError := {
    sequence : value;
    type : ErrorType;
    details : Details;
  }.

Record IntegrityReport := {
    valid : bool;
    totalChecked : Z;
    errors : list IntegrityError;
    firstAction : value;
    lastAction : value;
  }.

(** [const { _integrity, ...actionWithoutIntegrity } = action] *)
Definition withoutIntegrity (action : value) : value :=
  match action with
  | Obj l => Obj (obj_remove "_integrity" l)
  | _ => Obj []
  end.

(** [JSON.stringify(action) + previous], hashed; [None] when
    [JSON.stringify] throws. *)
Definition calculateHash (action : value) (previous : value) : option string :=
  content ← JSON_stringify action;
  Some (Sha256.sha256_hex (content +:+ to_string previous)).

(** [previousHash || "genesis"] *)
Definition expected (previousHash : value) : value :=
  if truthy previousHash then previousHash else Str "genesis".

(** The outer [None] is a thrown exception, the inner one the [null]
    that means no error. *)
Definition validateAction (action : value) (previousHash : value)
  : option (option IntegrityError) :=
  integrity ← prop action "_integrity";
  if negb (truthy integrity) then Some None
  else
    let expectedPrevious := expected previousHash in
    if negb (strict_eq (field integrity "previous") expectedPrevious) then
      Some (Some {| sequence := field action "sequence";
                    type := chain_break;
                    details := ExpectedPrevious expectedPrevious
                                 (field integrity "previous") |})
    else
      calculatedHash ← calculateHash (withoutIntegrity action)
                                      (field integrity "previous");
      if negb (strict_eq (Str calculatedHash) (field integrity "hash")) then
        Some (Some {| sequence := field action "sequence";
                      type := hash_mismatch;
                      details := HashMismatch calculatedHash
                                   (field integrity "hash") |})
      else Some None.

(** The local variables of [validateStream]. *)
Record Scan := {
  s_errors : list IntegrityError;
  s_totalChecked : Z;
  s_previousHash : value;
  s_firstAction : value;
  s_lastAction : value;
}.

Definition scan0 : Scan :=
  {| s_errors := []; s_totalChecked := 0; s_previousHash := Null;
     s_firstAction := Undefined; s_lastAction := Undefined |}.

Definition push (e : IntegrityError) (s : Scan) : Scan :=
  {| s_errors := s_errors s ++ [e]; s_totalChecked := s_totalChecked s;
     s_previousHash := s_previousHash s;
     s_firstAction := s_firstAction s; s_lastAction := s_lastAction s |}.

Definition parseError (s : Scan) : Scan :=
  push {| sequence := Num (s_totalChecked s + 1); type := invalid_json;
          details := FailedToParse |} s.

(** The marker [validateStream] looks for: ["_header":true]. *)
Definition headerMarker : string := Text.q "_header" +:+ ":true".

(** One turn of the inner loop of [validateStream]. *)
Definition scanLine (s : Scan) (line : string) : Scan :=
  if Text.includes headerMarker line then s
  else
    match JSON_parse line with
    | None => parseError s
    | Some action =>
        let s1 := {| s_errors := s_errors s;
                     s_totalChecked := s_totalChecked s + 1;
                     s_previousHash := s_previousHash s;
                     s_firstAction := s_firstAction s;
                     s_lastAction := s_lastAction s |} in
        match prop action "id" with
        | None => parseError s1
        | Some id =>
            let s2 := {| s_errors := s_errors s1;
                         s_totalChecked := s_totalChecked s1;
                         s_previousHash := s_previousHash s1;
                         s_firstAction := if truthy (s_firstAction s1)
                                          then s_firstAction s1 else id;
                         s_lastAction := id |} in
            match validateAction action (s_previousHash s2) with
            | None => parseError s2
            | Some error =>
                let s3 := match error with
                          | Some e => push e s2
                          | None => s2
                          end in
                let integrity := field action "_integrity" in
                if truthy integrity then
                  {| s_errors := s_errors s3;
                     s_totalChecked := s_totalChecked s3;
                     s_previousHash := field integrity "hash";
                     s_firstAction := s_firstAction s3;
                     s_lastAction := s_lastAction s3 |}
                else s3
            end
        end
    end.

Definition scanLines (s : Scan) (lines : list string) : Scan :=
  fold_left scanLine lines s.

Section Methods.

Variable storagePath : string.
Variable env : Env.

Definition getStreamFiles : M (list Path) :=
  catch
    (let* entries := fs_readdir env storagePath in
     let files :=
       filter (fun entry => Text.startsWith "action-stream-" entry = true
                            /\ Text.endsWith ".jsonl" entry = true) entries in
     ret (map (path_join storagePath) (merge_sort String.le files)))
    (fun _ => ret []).

(** The body of the loop over the files. *)
Definition scanFile (s : Scan) (file : Path) : M Scan :=
  catch
    (let* content := fs_readFile env file in
     ret (scanLines s (Text.lines content)))
    (fun _ =>
       ret (push {| sequence := Num (-1); type := invalid_json;
                    details := FailedToRead file.2 |} s)).

Fixpoint scanFiles (s : Scan) (files : list Path) : M Scan :=
  match files with
  | [] => ret s
  | file :: rest => let* s' := scanFile s file in scanFiles s' rest
  end.

Definition validateStream : M IntegrityReport :=
  let* files := getStreamFiles in
  let* s := scanFiles scan0 files in
  ret {| valid := bool_decide (s_errors s = []);
         totalChecked := s_totalChecked s;
         errors := s_errors s;
         firstAction := s_firstAction s;
         lastAction := s_lastAction s |}.

End Methods.

End Integrity.

(* ===================================================================== *)
(** * lib/session.ts: class SessionRestorer                              *)
(* ===================================================================== *)

Module Session.

Import Json Host.
Import Store (object, field, prop, truthy, strict_eq, to_string).


Record Summary := {
    period : string;
    totalActions : Z;
    sessions : list value;
    highlights : list string;
  }.



(** [[...new Set(l)]]: first occurrences, in order. *)
Fixpoint dedupe (seen : list value) (l : list value) : list value :=
  match l with
  | [] => []
  | x :: l' =>
      if existsb (strict_eq x) seen then dedupe seen l'
      else x :: dedupe (x :: seen) l'
  end.

(** [l.slice(-n)] *)
Definition last_n {A} (n : nat) (l : list A) : list A :=
  drop (length l - n) l.

(** [actions.map(a => a[k])]; [None] when some action is null. *)
Definition props (k : string) (actions : list value) : option (list value) :=
  mapM (fun a => prop a k) actions.

Section Methods.

Variable config : Store.ContinuityConfig.
Variable env : Env.
  (** [new Date(v).getTime()], [None] for an invalid date. *)
Variable Date_getTime : value -> option Z.

Definition getRecentActivitySummary (hoursBack : Z) : M Summary :=
  let since := Date.toISOString (now_ms env - hoursBack * 60 * 60 * 1000) in
  let* actions := Store.queryActions config env
                    {| Store.c_type := None; Store.c_platform := None;
                       Store.c_since := Some since; Store.c_until := None;
                       Store.c_limit := Some 1000 |} in
  match props "sessionId" actions with
  | Some ids =>
      let sessions := dedupe [] (filter (fun v => truthy v = true) ids) in
      let criticalActions :=
        filter (fun a => strict_eq (field a "severity") (Str "critical") = true) actions in
      let sessionStarts :=
        filter (fun a => strict_eq (field a "type") (Str "session_start") = true) actions in
      ret {| period := "Last " +:+ number hoursBack +:+ " hours";
             totalActions := Z.of_nat (length actions);
             sessions := sessions;
             highlights :=
               map (fun a => to_string (field a "timestamp") +:+ ": "
                             +:+ to_string (field a "description"))
                   (last_n 5 criticalActions)
               ++ map (fun a => "Session started: " +:+ to_string (field a "sessionId"))
                      sessionStarts |}
  | None => throw TypeError
  end.


End Methods.

End Session.

(* ===================================================================== *)
(** * Runs of the store, and what a call leaves behind                   *)
(* ===================================================================== *)

Module Run.
Import Json Host Store.

(** What [checkDiskSpace] answers. *)
Definition has_space (cfg : ContinuityConfig) (env : Env) : bool :=
  if fault env Statfs (storagePath cfg, EmptyString) then true
  else bool_decide (MIN_FREE_SPACE_MB * 1024 * 1024 < (statfs env).1 * (statfs env).2).

Definition emergencyPath (cfg : ContinuityConfig) : Path :=
  path_join (storagePath cfg) "EMERGENCY_RECOVERY.jsonl".

Definition emergencyEntry (env : Env) (entry : object) : object :=
  obj_set (obj_set entry "_emergency" (Bool true))
          "_emergency_timestamp" (Str (now env)).

(** [buildStoredAction] as a function of the state it reads. *)
Definition seal (cfg : ContinuityConfig) (st : StreamState) (entry : object)
  : option object :=
  let actionForHash := obj_set entry "sequence" (Num (sequence st + 1)) in
  if enableIntegrityCheck cfg then
    content ← JSON_stringify (Obj actionForHash);
    Some (obj_set actionForHash "_integrity"
            (Obj [("hash", Str (Sha256.sha256_hex (content +:+ or_genesis (lastHash st))));
                  ("previous", Str (or_genesis (lastHash st)))]))
  else Some actionForHash.

(** The header line [writeStreamHeader] writes. *)
Definition header_line (cfg : ContinuityConfig) (env : Env) : string :=
  default EmptyString (JSON_stringify (header cfg env)).

(** The instance and the log are the same in two worlds, and so is every
    file but [path]. *)
Definition same_but (path : Path) (w w' : World) : Prop :=
  mem w' = mem w /\ logs w' = logs w /\
  forall p, p <> path -> fs w' !! p = fs w !! p.

(** The stored actions of the appends that succeeded, from the log. *)
Definition logged (l : list LogMsg) : list object :=
  omap (fun m => match m with DebugLogged a => Some a | _ => None end) l.

(** A sequence of [logAction] calls, each in its own environment.  A
    call that throws leaves the instance as it is and the caller goes on. *)
Fixpoint run (cfg : ContinuityConfig) (calls : list (Env * object)) (w : World) : World :=
  match calls with
  | [] => w
  | (env, entry) :: rest => run cfg rest (res_world (logAction cfg env entry w))
  end.

(** The world after the append of [line] to [p]. *)
Definition appended (p : Path) (line : string) (w : World) : World :=
  set_fs (insert p (content_of w p +:+ line +:+ LF)) w.

End Run.

Module Chain.
Import Json Host Store Run.

(** What a call added to the log. *)
Definition newly (w w' : World) : list LogMsg := drop (length (logs w)) (logs w').

(** The [_integrity] object of a stored action. *)
Definition integrity (hash previous : string) : value :=
  Obj [("hash", Str hash); ("previous", Str previous)].

Definition previous_of (a : object) : value := field (obj_get "_integrity" a) "previous".

(** The messages that announce a call to [logToEmergency]. *)
Definition to_emergency (m : LogMsg) : bool :=
  match m with
  | WarnEmergencyMode | ErrorLowDisk | ErrorWriteFailed _ => true
  | _ => false
  end.


End Chain.

Module Scenario.
Import Json Host Store Run.

(** A store on [/data] with integrity on, a healthy disk and no faults,
    on 2030-01-01. *)
Definition cfg : ContinuityConfig :=
  {| logLevel := everything; storagePath := "/data"; enableIntegrityCheck := true |}.

Definition t0 : Z := 1893456000000.

Definition env_at (t : Z) : Env :=
  {| now_ms := t; statfs := (1000000, 4096); fault := fun _ _ => false |}.

Definition entry (id description : string) : object :=
  [("id", Str id); ("timestamp", Str "2030-01-01T00:00:00.000Z");
   ("type", Str "tool_call"); ("severity", Str "critical");
   ("platform", Str "openclaw"); ("description", Str description);
   ("toolName", Str "write"); ("sessionId", Undefined)].

Definition empty_disk : World := {| mem := new_instance; fs := ∅; logs := [] |}.

(** A process start: a new instance over the disk as it is. *)
Definition restart (w : World) : World :=
  {| mem := new_instance; fs := fs w; logs := logs w |}.

Definition booted : World := res_world (initialize cfg (env_at t0) empty_disk).

Definition three_calls : list (Env * object) :=
  [(env_at (t0 + 1000), entry "a" "w");
   (env_at (t0 + 2000), entry "b" "x");
   (env_at (t0 + 3000), entry "c" "y")].

End Scenario.

Module Faults.
Import Json Host Store Run Chain Scenario.

(** The primary append or its fsync fails: [appendFile], [open],
    [sync] or [close] on today's stream file throws. *)
Definition primary_fails (cfg : ContinuityConfig) (env : Env) : Prop :=
  let p := getTodayStreamPath cfg env in
  fault env AppendFile p = true \/ fault env Open p = true
  \/ fault env Sync p = true \/ fault env Close p = true.

(** The three ways into [logToEmergency]. *)
Definition routed (cfg : ContinuityConfig) (env : Env) (entry : object) (w : World) : Prop :=
  emergencyMode (mem w) = true
  \/ (emergencyMode (mem w) = false /\ has_space cfg env = false)
  \/ (emergencyMode (mem w) = false /\ has_space cfg env = true /\
      exists w1 stored line,
        rotate cfg env w = Ok tt w1 /\
        seal cfg (state (mem w)) entry = Some stored /\
        JSON_stringify (Obj stored) = Some line /\
        primary_fails cfg env).

(** The append to the emergency log succeeds. *)
Definition emergency_append_ok (cfg : ContinuityConfig) (env : Env) (entry : object) : Prop :=
  exists line, JSON_stringify (Obj (emergencyEntry env entry)) = Some line
               /\ fault env AppendFile (emergencyPath cfg) = false.

(** An environment in which one call on one path fails. *)
Definition failing (op : IoOp) (path : Path) (t : Z) : Env :=
  {| now_ms := t; statfs := (1000000, 4096);
     fault := fun o p => bool_decide (o = op /\ p = path) |}.

(** An entry whose parameters hold a BigInt. *)
Definition unserializable : object :=
  [("id", Str "n"); ("timestamp", Str "2030-01-01T00:00:00.000Z");
   ("type", Str "tool_call"); ("severity", Str "critical");
   ("platform", Str "openclaw"); ("description", Str "d");
   ("toolParams", Obj [("size", BigInt 1)])].

Definition day : Z := 86400000.

Definition stream_2030_01_01 : Path := ("/data", "action-stream-2030-01-01.jsonl").

(** The first instance, when a second one was initialized over the same
    directory on the next day and so created that day's file. *)
Definition next_day_exists : World :=
  {| mem := mem booted;
     fs := fs (res_world (initialize cfg (env_at (t0 + day)) (restart booted)));
     logs := logs booted |}.

End Faults.

Module Resume.
Import Json Host Store Scenario Session.

(** Neither null nor undefined: a value whose properties can be read. *)
Definition readable (v : value) : bool :=
  match v with Null | Undefined => false | _ => true end.




End Resume.

Module Stream.
Import Json Host Store Run Chain Scenario Faults.

(** The line [logAction] writes for a stored action. *)
Definition line_of (a : object) : string :=
  default EmptyString (JSON_stringify (Obj a)).

(** The stored actions of [entries], built one after the other from the
    stream state [st]. *)
Fixpoint seal_all (cfg : ContinuityConfig) (st : StreamState) (entries : list object)
  : option (list object) :=
  match entries with
  | [] => Some []
  | e :: es =>
      a ← seal cfg st e;
      l ← seal_all cfg (commit cfg a st) es;
      Some (a :: l)
  end.

(** Every call falls on the day of the stream file [p]. *)
Definition same_day (cfg : ContinuityConfig) (p : Path) (calls : list (Env * object)) : Prop :=
  Forall (fun c => getTodayStreamPath cfg c.1 = p) calls.

(** Every call of the run appended its stored action to the stream. *)
Definition all_logged (cfg : ContinuityConfig) (calls : list (Env * object)) (w : World) : Prop :=
  length (logged (newly w (run cfg calls w))) = length calls.

(** An entry as the adapter builds it: distinct keys in property order,
    and no [_integrity] of its own. *)
Definition entry_ok (e : object) : Prop :=
  wf_object e = true /\ has_key "_integrity" e = false.

(** The line of [a] does not read as a header to the validator. *)
Definition no_marker (a : object) : Prop :=
  Text.includes Integrity.headerMarker (line_of a) = false.

(** The edit of the tamper scenario: the [description] replaced, the
    stored [_integrity] left alone. *)
Definition tamper (a : object) : object :=
  obj_set a "description" (Str "tampered").

(** The stream state of an instance that was just initialized: the
    content of [.state.json] when it reads as one, zero and null otherwise. *)
Definition loaded (cfg : ContinuityConfig) (env : Env) (w : World) : StreamState :=
  if fault env ReadFile (path_join (storagePath cfg) ".state.json") then fresh
  else match fs w !! path_join (storagePath cfg) ".state.json" with
       | Some content => default fresh (JSON_parse content ≫= state_of)
       | None => fresh
       end.

(** The stream state after the stored actions [l] were committed. *)
Definition final (cfg : ContinuityConfig) (st : StreamState) (l : list object) : StreamState :=
  fold_left (fun st a => commit cfg a st) l st.

(** The disk after an editor rewrote the stream file [p]: the header,
    the lines of [l1], the tampered line of [a], the lines of [l2]. *)
Definition tampered (p : Path) (header : string) (l1 : list object) (a : object)
    (l2 : list object) (w : World) : World :=
  set_fs (insert p (Text.unlines (header :: map line_of (l1 ++ tamper a :: l2)))) w.

(** ** The crash scenario: two appends, a kill, a new process, a third
    append *)

Definition two_calls : list (Env * object) :=
  [(env_at (t0 + 1000), entry "a" "w"); (env_at (t0 + 2000), entry "b" "x")].

Definition killed : World := restart (run cfg two_calls booted).

Definition recovered : World :=
  res_world (logAction cfg (env_at (t0 + 3000)) (entry "c" "y")
               (res_world (initialize cfg (env_at (t0 + 2500)) killed))).

(** ** The tamper scenario: three appends, then the second line edited *)

Definition three_logged : World := run cfg three_calls booted.

Definition second_tampered : World :=
  match logged (newly booted three_logged) with
  | [a1; a2; a3] =>
      tampered (getTodayStreamPath cfg (env_at t0)) (header_line cfg (env_at t0))
               [a1] a2 [a3] three_logged
  | _ => three_logged
  end.

(** ** The fsync scenario: the first append reaches the file and its
    fsync fails *)

Definition sync_failed : World :=
  res_world (logAction cfg (failing Sync stream_2030_01_01 (t0 + 1000)) (entry "a" "w") booted).

(** ** The graceful scenario: two appends, [close], a new process, a
    third append *)

Definition closed : World :=
  restart (res_world (close cfg (env_at (t0 + 2200)) (run cfg two_calls booted))).

Definition resumed : World :=
  res_world (logAction cfg (env_at (t0 + 3000)) (entry "c" "y")
               (res_world (initialize cfg (env_at (t0 + 2500)) closed))).

End Stream.

Module Lifecycle.
Import Json Host Store Run Scenario.

(** What a process does with its store, one call after the other.  A
    call that throws leaves the instance and the disk as they were at the
    throw, and the caller goes on. *)
Inductive Op :=
| DoInitialize (env : Env)
| DoLogAction (env : Env) (entry : object)
| DoClose (env : Env)
| DoRestart.

Definition step (cfg : ContinuityConfig) (w : World) (op : Op) : World :=
  match op with
  | DoInitialize env => res_world (initialize cfg env w)
  | DoLogAction env entry => res_world (logAction cfg env entry w)
  | DoClose env => res_world (close cfg env w)
  | DoRestart => restart w
  end.

Definition exec (cfg : ContinuityConfig) (ops : list Op) (w : World) : World :=
  fold_left (step cfg) ops w.

(** Every file of [f] is in [f'] with its text, and at most more text
    after it. *)
Definition grows (f f' : gmap Path string) : Prop :=
  forall p c, f !! p = Some c -> exists s, f' !! p = Some (c +:+ s).

Definition statePath (cfg : ContinuityConfig) : Path :=
  path_join (storagePath cfg) ".state.json".

(** A disk with 40 KiB left. *)
Definition low_disk (t : Z) : Env :=
  {| now_ms := t; statfs := (10, 4096); fault := fun _ _ => false |}.

(** The append reached the file and a later step of making it durable
    failed. *)
Definition sync_fails (env : Env) (p : Path) : Prop :=
  fault env AppendFile p = false
  /\ (fault env Open p = true \/ fault env Sync p = true \/ fault env Close p = true).

End Lifecycle.

(* ===================================================================== *)
(** * lib/store.ts: ContinuityStore.verifyIntegrity                      *)
(* ===================================================================== *)

Module Verify.
Import Json Host Store.

(** The messages of [errors], by their template and the values they
    print. *)
Inductive Problem :=
| ChainBroken (sequence : value)
| HashMismatchAt (sequence : value)
| InvalidEntry (line : Z)
| FailedToRead (file : Path) (e : Err).

Record Verdict := {
    valid : bool;
    errors : list Problem;
    checked : Z;
  }.

(** The local variables of [verifyIntegrity]. *)
Record Check := {
  v_errors : list Problem;
  v_checked : Z;
  v_previousHash : value;
}.

Definition check0 : Check :=
  {| v_errors := []; v_checked := 0; v_previousHash := Null |}.

Definition push (e : Problem) (s : Check) : Check :=
  {| v_errors := v_errors s ++ [e]; v_checked := v_checked s;
     v_previousHash := v_previousHash s |}.

(** The [catch] of the inner loop. *)
Definition invalid (s : Check) : Check := push (InvalidEntry (v_checked s)) s.

(** [const { _integrity, ...actionWithoutIntegrity } = action] *)
Definition withoutIntegrity (action : value) : value :=
  match action with
  | Obj l => Obj (obj_remove "_integrity" l)
  | _ => Obj []
  end.

(** [calculateHash] on what a line holds: [JSON.stringify(action) +
    previous], hashed; [None] when [JSON.stringify] throws. *)
Definition calculateHash (action : value) (previous : value) : option string :=
  content ← JSON_stringify action;
  Some (Sha256.sha256_hex (content +:+ to_string previous)).

(** One turn of the inner loop of [verifyIntegrity]. *)
Definition checkLine (s : Check) (line : string) : Check :=
  match JSON_parse line with
  | None => invalid s
  | Some action =>
      let s1 := {| v_errors := v_errors s; v_checked := v_checked s + 1;
                   v_previousHash := v_previousHash s |} in
      match prop action "_integrity" with
      | None => invalid s1
      | Some integrity =>
          if negb (truthy integrity) then s1
          else
            let previous := field integrity "previous" in
            let s2 := if negb (strict_eq previous (Str "genesis"))
                         && negb (strict_eq previous (v_previousHash s1))
                      then push (ChainBroken (field action "sequence")) s1
                      else s1 in
            match calculateHash (withoutIntegrity action) previous with
            | None => invalid s2
            | Some calculatedHash =>
                let s3 := if negb (strict_eq (Str calculatedHash) (field integrity "hash"))
                          then push (HashMismatchAt (field action "sequence")) s2
                          else s2 in
                {| v_errors := v_errors s3; v_checked := v_checked s3;
                   v_previousHash := field integrity "hash" |}
            end
      end
  end.

Definition checkLines (s : Check) (lines : list string) : Check :=
  fold_left checkLine lines s.

Section Methods.

Variable config : ContinuityConfig.
Variable env : Env.

(** The body of the loop over the files. *)
Definition checkFile (s : Check) (file : Path) : M Check :=
  catch
    (let* content := fs_readFile env file in
     ret (checkLines s (Text.lines content)))
    (fun e => ret (push (FailedToRead file e) s)).

Fixpoint checkFiles (s : Check) (files : list Path) : M Check :=
  match files with
  | [] => ret s
  | file :: rest => let* s' := checkFile s file in checkFiles s' rest
  end.

Definition verifyIntegrity : M Verdict :=
  if negb (enableIntegrityCheck config) then
    ret {| valid := true; errors := []; checked := 0 |}
  else
    let* files := getStreamFiles config env in
    let* s := checkFiles check0 files in
    ret {| valid := match v_errors s with [] => true | _ => false end;
           errors := v_errors s;
           checked := v_checked s |}.

End Methods.

End Verify.

(* ===================================================================== *)
(** * lib/integrity.ts: IntegrityValidator.getLastHash                   *)
(* ===================================================================== *)

Module Tail.
Import Json Host.
Import Store (object, field, prop, truthy, strict_eq, to_string).

(** The inner loop of [getLastHash], over the lines from the last one
    backwards: the first [action._integrity?.hash] that is truthy.  A line
    that does not parse, or that parses to null, is skipped. *)
Fixpoint lastHashOf (rev_lines : list string) : option value :=
  match rev_lines with
  | [] => None
  | line :: rest =>
      match JSON_parse line ≫= (fun action => prop action "_integrity") with
      | Some integrity =>
          let hash := match integrity with
                      | Null | Undefined => Undefined
                      | _ => field integrity "hash"
                      end in
          if truthy hash then Some hash else lastHashOf rest
      | None => lastHashOf rest
      end
  end.

Section Methods.

Variable storagePath : string.
Variable env : Env.

(** The outer loop, over the files from the newest one backwards. *)
Fixpoint lastHashIn (rev_files : list Path) : M value :=
  match rev_files with
  | [] => ret Null
  | file :: rest =>
      let* found := catch
                      (let* content := fs_readFile env file in
                       ret (lastHashOf (rev (Text.lines content))))
                      (fun _ => ret None) in
      match found with
      | Some hash => ret hash
      | None => lastHashIn rest
      end
  end.

Definition getLastHash : M value :=
  let* files := Integrity.getStreamFiles storagePath env in
  lastHashIn (rev files).

End Methods.

(** [state.lastHash] as a JavaScript value. *)
Definition hash_value (h : option string) : value :=
  match h with Some h => Str h | None => Null end.

End Tail.

Module Damage.
Import Json Host Store Run Scenario Stream.

(** The disk after the stream file [p] was rewritten with a line [g]
    between the lines of [l1] and those of [l2]. *)
Definition garbled (p : Path) (header : string) (l1 : list object) (g : string)
    (l2 : list object) (w : World) : World :=
  set_fs (insert p (Text.unlines (header :: map line_of l1 ++ g :: map line_of l2))) w.


(** A tool call whose parameters hold a property [_header] that is
    true. *)
Definition marked (id : string) : object :=
  [("id", Str id); ("timestamp", Str "2030-01-01T00:00:00.000Z");
   ("type", Str "tool_call"); ("severity", Str "critical");
   ("platform", Str "openclaw"); ("description", Str "Tool call: write");
   ("toolName", Str "write"); ("toolParams", Obj [("_header", Bool true)])].

Definition marked_calls : list (Env * object) :=
  [(env_at (t0 + 1000), marked "m"); (env_at (t0 + 2000), entry "b" "x")].

(** The disk after the stream file [p] was cut back to its header and
    the lines of [l1]. *)
Definition truncated (p : Path) (header : string) (l1 : list object) (w : World) : World :=
  set_fs (insert p (Text.unlines (header :: map line_of l1))) w.

(** A line of JSON that carries no [_integrity]. *)
Definition unsigned : string :=
  "{" +:+ Text.q "id" +:+ ":" +:+ Text.q "x" +:+ "," +:+ Text.q "description" +:+ ":"
  +:+ Text.q "forged" +:+ "}".

End Damage.

Module Query.
Import Json Host Store.

(** [criteria.limit || 100] *)
Definition limit_of (criteria : Criteria) : Z :=
  match c_limit criteria with
  | Some n => if n =? 0 then 100 else n
  | None => 100
  end.

(** What a line contributes to a query: the action it parses to, when
    the filters admit it. *)
Definition admitted (criteria : Criteria) (line : string) : option value :=
  JSON_parse line ≫= (fun a => if admits criteria a is Some true then Some a else None).

(** The actions of the lines that parse and that the filters admit, in
    the order of the lines. *)
Definition matching (criteria : Criteria) (lines : list string) : list value :=
  omap (admitted criteria) lines.

(** The lines of a file; none when it cannot be read. *)
Definition lines_of (env : Env) (w : World) (file : Path) : list string :=
  if fault env ReadFile file then []
  else match fs w !! file with
       | Some content => Text.lines content
       | None => []
       end.

(** The number of actions at which the loops return: the limit, and one
    when the limit is not positive. *)
Definition cap (limit : Z) : nat := Z.to_nat (Z.max 1 limit).

(** A query with a limit and no filter. *)
Definition no_filter (limit : option Z) : Criteria :=
  {| c_type := None; c_platform := None; c_since := None; c_until := None;
     c_limit := limit |}.

(** [getRecentActivitySummary] asks for the actions since this time. *)
Definition since (env : Env) (hoursBack : Z) : string :=
  Date.toISOString (now_ms env - hoursBack * 60 * 60 * 1000).

(** The length the list of actions has when the loops return. *)
Definition target (limit : Z) (actions : list value) : nat :=
  Z.to_nat (Z.max limit (Z.of_nat (length actions) + 1)).

(** What [getLastActionTime] makes of a timestamp: the value as
    [JSON.parse] reads it back, or null when that is falsy. *)
Definition time_of (entry : object) : value :=
  let t := norm (obj_get "timestamp" entry) in
  if truthy t then t else Null.

End Query.

(* ===================================================================== *)
(** * index.ts: the [before_tool_call] hook                              *)
(* ===================================================================== *)

Module Adapter.
Import Json Host Store.

(** The configuration the hook reads: the store's own, and the two
    fields of the safety interlock. *)
Record PluginConfig := {
  store_config : ContinuityConfig;
  blockOnPersistenceFailure : bool;
  criticalToolPatterns : list string;
}.

(** The [blockReason] of a blocked call, by its template. *)
Inductive BlockReason :=
| StoreNotInitialized
| PersistenceFailure
| LoggingError (e : Err).

(** What the hook tells the logger. *)
Inductive Said :=
| DebugBeforeToolCall (toolName severity : string)
| ErrorFailedToPersist (toolName : string)
| ErrorLoggingAction (e : Err)
| WarnNonCriticalFailed (e : Err).

(** What the hook leaves: its return value ([None] is undefined, the
    call goes on), the [event.params] object as it is afterwards, and its
    logger lines. *)
Record Outcome := {
  result : option BlockReason;
  params : object;
  said : list Said;
}.

Section Hooks.

(** [String.prototype.toLowerCase] *)
Variable toLowerCase : string -> string.
Variable env : Env.

Definition isCriticalTool (toolName : string) (patterns : list string) : bool :=
  let normalizedName := toLowerCase toolName in
  existsb (fun pattern => Text.includes (toLowerCase pattern) normalizedName) patterns.

(** The [ActionEntry] of a tool call.  [id] is what [generateActionId]
    returned. *)
Definition tool_call (id severity toolName : string) (params : object)
    (currentSessionId agentId sessionKey : value) : object :=
  [("id", Str id); ("timestamp", Str (now env)); ("type", Str "tool_call");
   ("severity", Str severity); ("platform", Str "openclaw");
   ("description", Str ("Tool call: " +:+ toolName));
   ("toolName", Str toolName); ("toolParams", Obj params);
   ("sessionId", if truthy currentSessionId then currentSessionId else Undefined);
   ("metadata", Obj [("agentId", agentId); ("sessionKey", sessionKey)])].

(** The handler of [before_tool_call].  [store] is the module variable:
    the configuration of the store when there is one.  Once [config] is
    known not to be undefined [store] is not null, so the branch of the
    source that answers "Store not initialized" is never taken. *)
Definition before_tool_call (store : option PluginConfig) (currentSessionId : value)
    (id toolName : string) (params : object) (agentId sessionKey : value) : M Outcome :=
  match store with
  | None => ret {| result := None; params := params; said := [] |}
  | Some config =>
      match logLevel (store_config config) with
      | off => ret {| result := None; params := params; said := [] |}
      | level =>
          let isCritical := isCriticalTool toolName (criticalToolPatterns config) in
          let severity := if isCritical then "critical" else "medium" in
          let debug := DebugBeforeToolCall toolName severity in
          let action := tool_call id severity toolName params
                          currentSessionId agentId sessionKey in
          if isCritical then
            catch
              (let* persisted := logAction (store_config config) env action in
               if negb persisted && blockOnPersistenceFailure config then
                 ret {| result := Some PersistenceFailure; params := params;
                        said := [debug; ErrorFailedToPersist toolName] |}
               else
                 ret {| result := None;
                        params := if persisted
                                  then obj_set params "__continuity_action_id" (Str id)
                                  else params;
                        said := [debug] |})
              (fun e =>
                 ret {| result := if blockOnPersistenceFailure config
                                  then Some (LoggingError e) else None;
                        params := params;
                        said := [debug; ErrorLoggingAction e] |})
          else
            match level with
            | everything =>
                catch
                  (logAction (store_config config) env action;;
                   ret {| result := None; params := params; said := [debug] |})
                  (fun e =>
                     ret {| result := None; params := params;
                            said := [debug; WarnNonCriticalFailed e] |})
            | _ => ret {| result := None; params := params; said := [debug] |}
            end
      end
  end.

End Hooks.

(** [toLowerCase] on text that is ASCII. *)
Definition lower_char (c : ascii) : ascii :=
  let n := nat_of_ascii c in
  if ((65 <=? n) && (n <=? 90))%nat then ascii_of_nat (n + 32) else c.

Fixpoint ascii_lower (s : string) : string :=
  match s with
  | EmptyString => EmptyString
  | String c s' => String (lower_char c) (ascii_lower s')
  end.

(** The default configuration of the plugin over the scenario's store. *)
Definition defaults : PluginConfig :=
  {| store_config := Scenario.cfg;
     blockOnPersistenceFailure := true;
     criticalToolPatterns :=
       ["write"; "edit"; "exec"; "message"; "browser"; "nodes"; "process"] |}.

End Adapter.

Module Rotation.
Import Json Host Store Run Scenario Faults.

(** Two calls on the day after the scenario's first. *)
Definition next_day_calls : list (Env * object) :=
  [(env_at (t0 + day + 1000), entry "d" "z"); (env_at (t0 + day + 2000), entry "e" "u")].

End Rotation.

Module Orphan.
Import Json Host Store Run Scenario Faults Stream.

(** The call of the scenario whose [fsync] fails, and the call after
    it. *)
Definition sync_failing : Env := failing Sync stream_2030_01_01 (t0 + 1000).

Definition later_calls : list (Env * object) := [(env_at (t0 + 2000), entry "b" "x")].

End Orphan.

(* ===================================================================== *)
(** * Facts                                                              *)
(* ===================================================================== *)

#[local] Arguments String.append : simpl nomatch.
#[local] Arguments Store.getTodayStreamPath : simpl never.
#[local] Arguments Date.toISOString : simpl never.
#[local] Arguments Json.JSON_stringify : simpl never.
#[local] Arguments Json.JSON_parse : simpl never.
#[local] Arguments Sha256.sha256_hex : simpl never.

Module TextFacts.
Import Text.

Lemma sapp_nil_r (s : string) : s +:+ EmptyString = s.
Proof. induction s as [|c s IH]; simpl; [reflexivity | f_equal; exact IH]. Qed.

Lemma sapp_assoc (a b c : string) : (a +:+ b) +:+ c = a +:+ (b +:+ c).
Proof. induction a as [|x a IH]; simpl; [reflexivity | f_equal; exact IH]. Qed.

Lemma slength_app (a b : string) :
  String.length (a +:+ b) = (String.length a + String.length b)%nat.
Proof. induction a as [|x a IH]; simpl; [reflexivity | f_equal; exact IH]. Qed.

Lemma rev_app_spec (a b : string) : String.rev_app a b = String.rev a +:+ b.
Proof.
  unfold String.rev. revert b.
  induction a as [|x a IH]; intros b; simpl; [reflexivity|].
  rewrite IH, (IH (String x EmptyString)), sapp_assoc. reflexivity.
Qed.

Lemma rev_cons (c : ascii) (s : string) :
  String.rev (String c s) = String.rev s +:+ String c EmptyString.
Proof. unfold String.rev at 1. simpl. apply rev_app_spec. Qed.

Lemma all_app P a b : all P (a +:+ b) = all P a && all P b.
Proof. induction a as [|x a IH]; simpl; [reflexivity | now rewrite IH, andb_assoc]. Qed.

(** Splitting a text made of newline-free pieces, each followed by a
    newline. *)
Lemma split_go_piece cur l rest :
  all not_nl l = true ->
  split_go cur (l +:+ String nl rest) = (String.rev cur +:+ l) :: split_go EmptyString rest.
Proof.
  revert cur. induction l as [|c l IH]; intros cur Hl; simpl in *.
  - destruct (ascii_dec nl nl); [|congruence]. now rewrite sapp_nil_r.
  - apply andb_prop in Hl as [Hc Hl].
    unfold not_nl in Hc. apply negb_true_iff, bool_decide_eq_false in Hc.
    destruct (ascii_dec c nl); [contradiction|].
    rewrite IH by assumption. rewrite rev_cons, sapp_assoc. reflexivity.
Qed.

Lemma unlines_app a b : unlines (a ++ b) = unlines a +:+ unlines b.
Proof.
  induction a as [|x a IH]; simpl; [reflexivity|].
  rewrite IH, sapp_assoc. reflexivity.
Qed.

Lemma split_unlines ls :
  Forall (fun l => all not_nl l = true) ls ->
  split_nl (unlines ls) = ls ++ [EmptyString].
Proof.
  unfold split_nl. induction 1 as [|l ls Hl _ IH]; simpl; [reflexivity|].
  rewrite split_go_piece by assumption. simpl. now rewrite IH.
Qed.

Lemma filter_all {A} (P : A -> Prop) `{!forall x, Decision (P x)} (l : list A) :
  Forall P l -> filter P l = l.
Proof.
  induction 1 as [|x l Hx _ IH]; [reflexivity|].
  rewrite filter_cons_True by assumption. now rewrite IH.
Qed.

Lemma lines_unlines ls :
  Forall (fun l => all not_nl l = true /\ blank l = false) ls ->
  lines (unlines ls) = ls.
Proof.
  intros H. unfold lines. rewrite split_unlines.
  - rewrite filter_app, filter_all.
    + rewrite filter_cons_False, filter_nil by (simpl; congruence).
      apply List.app_nil_r.
    + eapply Forall_impl; [exact H|]. now intros l [_ Hl].
  - eapply Forall_impl; [exact H|]. now intros l [Hl _].
Qed.

End TextFacts.

Module JsonFacts.
Import Text Json TextFacts.

(** ** Numbers *)

Lemma code_chr n : 0 <= n < 256 -> Text.code (chr n) = n.
Proof.
  intros H. unfold Text.code, chr.
  rewrite N_ascii_embedding by lia. lia.
Qed.

Lemma digit_char_code d : 0 <= d < 10 -> Text.code (digit_char d) = 48 + d.
Proof. intros H. apply (code_chr (48 + d)). lia. Qed.

Lemma digit_char_is_digit d : 0 <= d < 10 -> is_digit (digit_char d) = true.
Proof.
  intros H. unfold is_digit. rewrite digit_char_code by assumption.
  apply andb_true_intro. split; apply Z.leb_le; lia.
Qed.

Lemma horner_app a s1 s2 : horner a (s1 +:+ s2) = horner (horner a s1) s2.
Proof. revert a. induction s1 as [|c s1 IH]; intros a; simpl; [reflexivity | apply IH]. Qed.

Lemma dec_go_ok fuel n :
  0 <= n < 2 ^ Z.of_nat (S fuel) -> dec_ok n (dec_go (S fuel) n).
Proof.
  revert n. induction fuel as [|fuel IH]; intros n Hn.
  - assert (n < 10) by (change (2 ^ Z.of_nat 1) with 2 in Hn; lia).
    simpl. destruct (Z.ltb_spec n 10); [|lia].
    repeat split.
    + simpl. rewrite digit_char_is_digit by lia. reflexivity.
    + simpl. rewrite digit_char_code by lia. lia.
    + eauto.
  - change (dec_go (S (S fuel)) n) with
      (if n <? 10 then String (digit_char n) EmptyString
       else dec_go (S fuel) (n / 10) +:+ String (digit_char (n mod 10)) EmptyString).
    destruct (Z.ltb_spec n 10).
    + repeat split.
      * simpl. rewrite digit_char_is_digit by lia. reflexivity.
      * simpl. rewrite digit_char_code by lia. lia.
      * eauto.
    + assert (Hq : 0 <= n / 10 < 2 ^ Z.of_nat (S fuel)).
      { split; [apply Z.div_pos; lia|].
        apply Z.div_lt_upper_bound; [lia|].
        rewrite (Nat2Z.inj_succ (S fuel)), Z.pow_succ_r in Hn by lia. lia. }
      destruct (IH _ Hq) as (Hd & Hh & c & t & Hs & Hc).
      assert (Hm : 0 <= n mod 10 < 10) by (apply Z.mod_pos_bound; lia).
      repeat split.
      * rewrite all_app, Hd. simpl. rewrite digit_char_is_digit by lia. reflexivity.
      * rewrite horner_app, Hh. simpl. rewrite digit_char_code by lia.
        pose proof (Z.div_mod n 10). lia.
      * exists c, (t +:+ String (digit_char (n mod 10)) EmptyString).
        split; [now rewrite Hs|].
        intros Hc0. specialize (Hc Hc0). subst t.
        rewrite Hs in Hh. simpl in Hh. rewrite Hc0 in Hh.
        assert (1 <= n / 10) by (apply Z.div_le_lower_bound; lia). lia.
Qed.

Lemma dec_spec n : 0 <= n -> dec_ok n (dec n).
Proof.
  intros Hn. unfold dec. apply dec_go_ok.
  rewrite Nat2Z.inj_succ, Z2Nat.id by apply Z.log2_nonneg.
  destruct (Z.eq_dec n 0) as [->|]; [simpl; lia|].
  split; [lia|]. apply Z.log2_spec. lia.
Qed.

Lemma span_digits_app ds rest :
  all is_digit ds = true -> follow_ok rest = true ->
  span_digits (ds +:+ rest) = (ds, rest).
Proof.
  intros Hd Hr. induction ds as [|c ds IH]; simpl in *.
  - destruct rest as [|c r]; [reflexivity|]. simpl in *.
    apply andb_prop in Hr as [Hr _]. apply negb_true_iff in Hr.
    now rewrite Hr.
  - apply andb_prop in Hd as [Hc Hd]. rewrite Hc, IH by assumption. reflexivity.
Qed.

Lemma follow_ok_frac rest : follow_ok rest = true -> frac_or_exp rest = false.
Proof.
  destruct rest as [|c r]; [reflexivity|]. simpl.
  intros H. apply andb_prop in H as [_ H]. now apply negb_true_iff in H.
Qed.

Lemma parse_nat_dec n rest :
  0 <= n -> follow_ok rest = true ->
  parse_nat (dec n +:+ rest) = Some (n, rest).
Proof.
  intros Hn Hr. destruct (dec_spec n Hn) as (Hd & Hh & c & t & Hs & Hc).
  unfold parse_nat. rewrite span_digits_app by assumption.
  rewrite follow_ok_frac by assumption.
  rewrite Hs in *. destruct t as [|c' t].
  - simpl in Hh. f_equal. f_equal. lia.
  - destruct (Z.eqb_spec (Text.code c) 48) as [E|E].
    + specialize (Hc E). discriminate.
    + now rewrite Hh.
Qed.

Lemma dec_first n :
  0 <= n -> exists c t, dec n = String c t /\ is_digit c = true.
Proof.
  intros Hn. destruct (dec_spec n Hn) as (Hd & _ & c & t & Hs & _).
  exists c, t. split; [assumption|]. rewrite Hs in Hd. simpl in Hd.
  now apply andb_prop in Hd as [Hd _].
Qed.

(** ** Strings *)

Lemma parse_str_esc c tl :
  parse_str (esc c +:+ tl) =
  match parse_str tl with
  | Some (r, rest) => Some (String c r, rest)
  | None => None
  end.
Proof.
  destruct c as [[] [] [] [] [] [] [] []]; reflexivity.
Qed.

Lemma parse_str_quote_body s rest :
  parse_str (quote_body s +:+ String Text.dq rest) = Some (s, rest).
Proof.
  induction s as [|c s IH]; simpl; [reflexivity|].
  rewrite sapp_assoc, parse_str_esc, IH. reflexivity.
Qed.

End JsonFacts.

Module JsonRoundTrip.
Import Text Json TextFacts JsonFacts.

(** Induction over values, through the lists they nest. *)
Lemma value_ind (P : value -> Prop) :
  P Undefined -> P Null -> (forall b, P (Bool b)) -> (forall n, P (Num n)) ->
  (forall n, P (BigInt n)) -> (forall s, P (Str s)) ->
  (forall l, Forall P l -> P (Arr l)) ->
  (forall l, Forall (fun kv => P kv.2) l -> P (Obj l)) ->
  forall v, P v.
Proof.
  intros HU HN HB HNum HBig HS HA HO.
  fix IH 1.
  intros [| |b|n|n|s|l|l];
    [exact HU | exact HN | apply HB | apply HNum | apply HBig | apply HS | |].
  - apply HA. induction l as [|x l IHl]; constructor; [apply IH | exact IHl].
  - apply HO. induction l as [|[k x] l IHl]; constructor; [apply IH | exact IHl].
Qed.

Lemma ser_Arr l :
  ser (Arr l) = match ser_elems l with
                | Some parts => Some ("[" +:+ String.concat "," parts +:+ "]")
                | None => None
                end.
Proof. reflexivity. Qed.

Lemma ser_Obj l :
  ser (Obj l) = match ser_members l with
                | Some parts => Some ("{" +:+ String.concat "," parts +:+ "}")
                | None => None
                end.
Proof. reflexivity. Qed.

Lemma norm_Obj l : norm (Obj l) = Obj (norm_members l).
Proof. reflexivity. Qed.

Lemma wf_Obj l : wf (Obj l) = keys_ok (map fst l) && wf_members l.
Proof. reflexivity. Qed.

Lemma size_Arr l : size (Arr l) = S (size_elems l).
Proof. reflexivity. Qed.

Lemma size_Obj l : size (Obj l) = S (size_members l).
Proof. reflexivity. Qed.

(** ** First characters *)

Lemma starts_app P a b : starts P a = true -> starts P (a +:+ b) = true.
Proof. destruct a; simpl; [discriminate | auto]. Qed.

Lemma skip_ws_start s : starts (fun c => negb (json_ws c)) s = true -> skip_ws s = s.
Proof.
  destruct s as [|c s]; simpl; [reflexivity|].
  unfold json_ws. intros H. apply negb_true_iff in H. now rewrite H.
Qed.

Lemma value_start_facts c :
  value_start c = true ->
  json_ws c = false /\ (Text.code c =? 93) = false /\ (Text.code c =? 125) = false.
Proof. destruct c as [[] [] [] [] [] [] [] []]; vm_compute; intuition discriminate. Qed.

Lemma is_digit_facts c :
  is_digit c = true ->
  value_start c = true /\ (Text.code c =? 123) = false /\ (Text.code c =? 91) = false
  /\ (Text.code c =? 34) = false /\ (Text.code c =? 45) = false.
Proof. destruct c as [[] [] [] [] [] [] [] []]; vm_compute; intuition discriminate. Qed.

Lemma ser_starts v s : ser v = Some s -> starts value_start s = true.
Proof.
  destruct v as [| |b|n|n|t|l|l]; simpl; intros H.
  - now inversion H.
  - now inversion H.
  - inversion H. now destruct b.
  - inversion H. unfold number. destruct (n <? 0) eqn:E; [reflexivity|].
    apply Z.ltb_ge in E. destruct (dec_first n E) as (c & t & -> & Hc).
    now apply is_digit_facts in Hc as [Hc _].
  - discriminate.
  - now inversion H.
  - change (ser (Arr l) = Some s) in H. rewrite ser_Arr in H.
    destruct (ser_elems l); inversion H. reflexivity.
  - change (ser (Obj l) = Some s) in H. rewrite ser_Obj in H.
    destruct (ser_members l); inversion H. reflexivity.
Qed.

Lemma closer_follow c r : closer c = true -> follow_ok (String c r) = true.
Proof.
  revert r. destruct c as [[] [] [] [] [] [] [] []]; intros r; vm_compute;
    intuition discriminate.
Qed.

Lemma closer_skip c r : closer c = true -> skip_ws (String c r) = String c r.
Proof.
  intros H. apply skip_ws_start. simpl. revert H.
  destruct c as [[] [] [] [] [] [] [] []]; vm_compute; intuition discriminate.
Qed.

(** ** The round trip, one value *)

(** How [parse_value] dispatches on the first character. *)
Lemma pv_minus f s1 :
  parse_value (S f) (String "-" s1) =
  match parse_nat s1 with Some (m, r) => Some (Num (- m), r) | None => None end.
Proof. reflexivity. Qed.

Lemma pv_digit f c s1 :
  is_digit c = true ->
  parse_value (S f) (String c s1) =
  match parse_nat (String c s1) with Some (m, r) => Some (Num m, r) | None => None end.
Proof.
  destruct c as [[] [] [] [] [] [] [] []]; intros H; vm_compute in H;
    try discriminate H; reflexivity.
Qed.

Lemma pv_quote f s1 :
  parse_value (S f) (String Text.dq s1) =
  match parse_str s1 with Some (str, r) => Some (Str str, r) | None => None end.
Proof. reflexivity. Qed.

Lemma pv_obj f s1 :
  parse_value (S f) (String "{" s1) =
  match skip_ws s1 with
  | String c2 s2 =>
      if Text.code c2 =? 125 then Some (Obj [], s2)
      else parse_members f [] (String c2 s2)
  | EmptyString => None
  end.
Proof. reflexivity. Qed.

Lemma pv_arr f s1 :
  parse_value (S f) (String "[" s1) =
  match skip_ws s1 with
  | String c2 s2 =>
      if Text.code c2 =? 93 then Some (Arr [], s2)
      else parse_elems f [] (String c2 s2)
  | EmptyString => None
  end.
Proof. reflexivity. Qed.

Lemma parses_num n : parses (Num n) (number n).
Proof.
  intros fuel rest Hf Hr. destruct fuel as [|f]; [simpl in Hf; lia|].
  unfold number. destruct (Z.ltb_spec n 0).
  - change (String "-" (dec (- n)) +:+ rest) with (String "-" (dec (- n) +:+ rest)).
    rewrite pv_minus, parse_nat_dec by (assumption || lia).
    simpl. do 3 f_equal. lia.
  - destruct (dec_first n ltac:(lia)) as (c & t & E & Hc).
    pose proof (parse_nat_dec n rest ltac:(lia) Hr) as Hp.
    rewrite E in *. simpl String.append in *.
    rewrite pv_digit, Hp by assumption. reflexivity.
Qed.

Lemma parses_str s : parses (Str s) (quote s).
Proof.
  intros fuel rest Hf Hr. destruct fuel as [|f]; [simpl in Hf; lia|].
  unfold quote. simpl String.append. rewrite sapp_assoc. simpl String.append.
  rewrite pv_quote, parse_str_quote_body. reflexivity.
Qed.

Lemma parses_lit v lit :
  (forall f rest, parse_value (S f) (lit +:+ rest) = Some (norm v, rest)) ->
  parses v lit.
Proof.
  intros H fuel rest Hf _. destruct fuel as [|f]; [|apply H].
  destruct v; simpl in Hf; lia.
Qed.

(** ** Arrays *)

Lemma pe_step f acc s :
  parse_elems (S f) acc s =
  match parse_value f s with
  | Some (v, r) =>
      match skip_ws r with
      | String c r' =>
          if Text.code c =? 44 then parse_elems f (v :: acc) r'
          else if Text.code c =? 93 then Some (Arr (rev (v :: acc)), r')
          else None
      | EmptyString => None
      end
  | None => None
  end.
Proof. reflexivity. Qed.

Lemma parse_elems_ok xs parts :
  Forall2 (fun x p => parses x p) xs parts -> xs <> [] ->
  forall fuel acc rest, (size_elems (map norm xs) <= fuel)%nat ->
    parse_elems fuel acc (String.concat "," parts +:+ String "]" rest)
    = Some (Arr (rev acc ++ map norm xs), rest).
Proof.
  induction 1 as [|x p xs parts Hx Hxs IH]; [congruence|]. intros _ fuel acc rest Hf.
  destruct fuel as [|f]; [simpl in Hf; lia|]. simpl in Hf.
  rewrite pe_step. destruct Hxs as [|x' p' xs' parts' Hx' Hxs'].
  - simpl String.concat.
    rewrite (Hx f (String "]" rest)) by (lia || reflexivity).
    reflexivity.
  - change (String.concat "," (p :: p' :: parts'))
      with (p +:+ "," +:+ String.concat "," (p' :: parts')).
    rewrite !sapp_assoc. simpl String.append at 2.
    rewrite (Hx f) by (lia || reflexivity).
    rewrite closer_skip by reflexivity.
    change (Text.code "," =? 44) with true. cbv iota.
    etrans; [apply (IH ltac:(congruence) f (norm x :: acc) rest); simpl in *; lia|].
    simpl. now rewrite <- List.app_assoc.
Qed.

(** ** Objects *)

Lemma pm_quote f acc s1 :
  parse_members (S f) acc (String Text.dq s1) =
  match parse_str s1 with
  | Some (k, r) =>
      match skip_ws r with
      | String c2 r2 =>
          if Text.code c2 =? 58 then
            match parse_value f r2 with
            | Some (v, r3) =>
                match skip_ws r3 with
                | String c3 r4 =>
                    if Text.code c3 =? 44 then parse_members f (obj_set acc k v) r4
                    else if Text.code c3 =? 125 then Some (Obj (obj_set acc k v), r4)
                    else None
                | EmptyString => None
                end
            | None => None
            end
          else None
      | EmptyString => None
      end
  | None => None
  end.
Proof. reflexivity. Qed.

Lemma pm_key f acc k tl :
  parse_members (S f) acc ((quote k +:+ ":" +:+ tl)) =
  match parse_value f tl with
  | Some (v, r3) =>
      match skip_ws r3 with
      | String c3 r4 =>
          if Text.code c3 =? 44 then parse_members f (obj_set acc k v) r4
          else if Text.code c3 =? 125 then Some (Obj (obj_set acc k v), r4)
          else None
      | EmptyString => None
      end
  | None => None
  end.
Proof.
  unfold quote. simpl String.append. rewrite sapp_assoc. simpl String.append.
  rewrite pm_quote, parse_str_quote_body. reflexivity.
Qed.

Lemma parse_members_ok kvs parts :
  Forall2 member_parses kvs parts -> kvs <> [] ->
  forall fuel acc rest, (size_members kvs <= fuel)%nat ->
    parse_members fuel acc (String.concat "," parts +:+ String "}" rest)
    = Some (Obj (fold_left set_member kvs acc), rest).
Proof.
  induction 1 as [|[k v] p kvs parts Hx Hxs IH]; [congruence|].
  intros _ fuel acc rest Hf.
  destruct fuel as [|f]; [simpl in Hf; lia|]. simpl in Hf.
  destruct Hx as (x & sx & Hv & -> & Hx). cbn [fst snd] in *. subst v.
  destruct Hxs as [|kv' p' kvs' parts' Hx' Hxs'].
  - cbn [String.concat]. rewrite !sapp_assoc, pm_key.
    rewrite (Hx f (String "}" rest)) by (lia || reflexivity).
    reflexivity.
  - change (String.concat "," ((quote k +:+ ":" +:+ sx) :: p' :: parts'))
      with ((quote k +:+ ":" +:+ sx) +:+ "," +:+ String.concat "," (p' :: parts')).
    rewrite !sapp_assoc, pm_key.
    change ("," +:+ String.concat "," (p' :: parts') +:+ String "}" rest)
      with (String "," (String.concat "," (p' :: parts') +:+ String "}" rest)).
    rewrite (Hx f) by (lia || reflexivity).
    rewrite closer_skip by reflexivity.
    change (Text.code "," =? 44) with true. cbv iota.
    etrans; [apply (IH ltac:(congruence) f (obj_set acc k (norm x)) rest);
             simpl in *; destruct kv'; lia|].
    reflexivity.
Qed.

(** ** Property order *)

Lemma ordered_plain lo ks : forallb plain ks = true -> ordered lo ks = true.
Proof.
  destruct ks as [|k ks]; [reflexivity|]. simpl.
  intros H. apply andb_prop in H as [Hk H]. unfold plain in Hk.
  destruct (index_of k); [discriminate | exact H].
Qed.

Lemma ordered_weaken lo lo' ks : lo' <= lo -> ordered lo ks = true -> ordered lo' ks = true.
Proof.
  destruct ks as [|k ks]; [reflexivity|]. simpl. intros Hl.
  destruct (index_of k); [|auto]. intros H. apply andb_prop in H as [H1 H2].
  apply Z.ltb_lt in H1. rewrite H2, andb_true_r. apply Z.ltb_lt. lia.
Qed.

Lemma forallb_sublist {A} (P : A -> bool) (l1 l2 : list A) :
  sublist l1 l2 -> forallb P l2 = true -> forallb P l1 = true.
Proof.
  induction 1 as [|x l1 l2 _ IH|x l1 l2 _ IH]; simpl; [auto| |];
    intros H; apply andb_prop in H as [Hx H]; [rewrite Hx|]; auto.
Qed.

Lemma ordered_sublist ks1 ks2 :
  sublist ks1 ks2 -> forall lo, ordered lo ks2 = true -> ordered lo ks1 = true.
Proof.
  induction 1 as [|k ks1 ks2 Hs IH|k ks1 ks2 Hs IH]; intros lo H; [reflexivity| |].
  - simpl in *. destruct (index_of k).
    + apply andb_prop in H as [H1 H2]. now rewrite H1, IH.
    + eapply forallb_sublist; eauto.
  - simpl in H. destruct (index_of k) as [n|].
    + apply andb_prop in H as [H1 H2]. apply Z.ltb_lt in H1.
      apply (ordered_weaken n); [lia | auto].
    + apply ordered_plain. eapply forallb_sublist; eauto.
Qed.

Lemma keys_ok_sublist ks1 ks2 : sublist ks1 ks2 -> keys_ok ks2 = true -> keys_ok ks1 = true.
Proof.
  unfold keys_ok. intros Hs H. apply andb_prop in H as [Hn Ho].
  apply bool_decide_eq_true in Hn. apply andb_true_intro. split.
  - apply bool_decide_eq_true. eapply sublist_NoDup; eauto.
  - eapply ordered_sublist; eauto.
Qed.

(** Before an array index come only smaller array indices. *)
Lemma ordered_before lo ks k n :
  ordered lo (ks ++ [k]) = true -> index_of k = Some n ->
  lo < n /\ Forall (fun k' => exists n', index_of k' = Some n' /\ n' < n) ks.
Proof.
  revert lo. induction ks as [|k' ks IH]; intros lo H Hk; simpl in H.
  - rewrite Hk in H. apply andb_prop in H as [H _]. apply Z.ltb_lt in H. auto.
  - destruct (index_of k') as [n'|] eqn:E.
    + apply andb_prop in H as [H1 H2]. apply Z.ltb_lt in H1.
      destruct (IH _ H2 Hk) as [Hlt Hall]. split; [lia|].
      constructor; [eauto | exact Hall].
    + rewrite forallb_app in H. apply andb_prop in H as [_ H]. simpl in H.
      unfold plain in H. rewrite Hk in H. discriminate.
Qed.

Lemma insert_index_last n k v l :
  Forall (fun k' => exists n', index_of k' = Some n' /\ n' < n) (map fst l) ->
  obj_insert_index n k v l = l ++ [(k, v)].
Proof.
  induction l as [|[k' v'] l IH]; simpl; intros H; [reflexivity|].
  inversion H as [|? ? (n' & E & Hlt) Hl]; subst. rewrite E.
  destruct (Z.ltb_spec n' n); [|lia]. now rewrite IH.
Qed.

Lemma has_key_false k l : k ∉ map fst l -> has_key k l = false.
Proof.
  unfold has_key. induction l as [|[k' v'] l IH]; simpl; [reflexivity|].
  intros H. apply not_elem_of_cons in H as [Hk H].
  rewrite bool_decide_eq_false_2 by congruence. auto.
Qed.

Lemma obj_set_last l k v :
  keys_ok (map fst (l ++ [(k, v)])) = true -> obj_set l k v = l ++ [(k, v)].
Proof.
  rewrite map_app. simpl. unfold keys_ok. intros H.
  apply andb_prop in H as [Hn Ho]. apply bool_decide_eq_true in Hn.
  apply NoDup_app in Hn as (_ & Hn & _).
  unfold obj_set. rewrite has_key_false.
  - destruct (index_of k) as [n|] eqn:E; [|reflexivity].
    apply insert_index_last. eapply ordered_before; eauto.
  - intros Hin. apply (Hn _ Hin). left.
Qed.

Lemma fold_set_member acc l :
  keys_ok (map fst (acc ++ l)) = true -> fold_left set_member l acc = acc ++ l.
Proof.
  revert acc. induction l as [|[k v] l IH]; intros acc H; simpl.
  - now rewrite List.app_nil_r.
  - unfold set_member at 2. simpl.
    replace (acc ++ (k, v) :: l) with ((acc ++ [(k, v)]) ++ l) in *
      by (now rewrite <- List.app_assoc).
    rewrite obj_set_last.
    + now apply IH.
    + eapply keys_ok_sublist; [|exact H].
      rewrite (map_app _ (acc ++ [(k, v)]) l). apply sublist_inserts_r. reflexivity.
Qed.

Lemma norm_members_keys l : sublist (map fst (norm_members l)) (map fst l).
Proof.
  induction l as [|[k x] l IH]; simpl; [constructor|].
  destruct (is_undefined x); simpl; [now apply sublist_cons | now apply sublist_skip].
Qed.

(** ** The round trip *)

Lemma pv_arr_elems f s1 :
  starts value_start s1 = true ->
  parse_value (S f) (String "[" s1) = parse_elems f [] s1.
Proof.
  destruct s1 as [|c t]; [discriminate|]. intros H. simpl in H.
  destruct (value_start_facts c H) as (Hw & H93 & _).
  rewrite pv_arr, skip_ws_start by (simpl; now rewrite Hw).
  now rewrite H93.
Qed.

Lemma pv_obj_members f s1 :
  parse_value (S f) (String "{" (String Text.dq s1)) =
  parse_members f [] (String Text.dq s1).
Proof. reflexivity. Qed.

Lemma concat_starts P p parts :
  starts P p = true -> starts P (String.concat "," (p :: parts)) = true.
Proof. destruct parts; simpl; [auto | apply starts_app]. Qed.

Lemma elems_length xs parts :
  Forall2 good xs parts ->
  (size_elems (map norm xs) <= String.length (String.concat "," parts) + 1)%nat.
Proof.
  induction 1 as [|x p xs parts [_ Hx] Hxs IH]; [simpl; lia|].
  destruct Hxs as [|x' p' xs' parts' Hx' Hxs'].
  - simpl. lia.
  - change (String.concat "," (p :: p' :: parts'))
      with (p +:+ "," +:+ String.concat "," (p' :: parts')).
    rewrite !slength_app. simpl in *. lia.
Qed.

Lemma quote_length k : (2 <= String.length (quote k))%nat.
Proof. unfold quote. simpl. rewrite slength_app. simpl. lia. Qed.

Lemma members_length kvs parts :
  Forall2 member_good kvs parts ->
  (size_members kvs <= String.length (String.concat "," parts) + 1)%nat.
Proof.
  induction 1 as [|[k v] p kvs parts [_ Hx] Hxs IH]; [simpl; lia|].
  destruct Hxs as [|x' p' xs' parts' Hx' Hxs'].
  - simpl in *. lia.
  - change (String.concat "," (p :: p' :: parts'))
      with (p +:+ "," +:+ String.concat "," (p' :: parts')).
    rewrite !slength_app. simpl in *. lia.
Qed.

Lemma ser_elems_good l parts :
  Forall (fun x => wf x = true -> forall s, ser x = Some s -> good x s) l ->
  forallb wf l = true -> ser_elems l = Some parts ->
  Forall2 good l parts.
Proof.
  intros IH. revert parts. induction IH as [|x l Hx _ IHl]; intros parts Hwf Hs.
  - inversion Hs. constructor.
  - simpl in *. apply andb_prop in Hwf as [Hw Hwf].
    destruct (ser x) as [sx|] eqn:Ex; [|discriminate].
    destruct (ser_elems l) as [r|]; [|discriminate].
    inversion Hs; subst. constructor; auto.
Qed.

Lemma ser_members_good l parts :
  Forall (fun kv => wf kv.2 = true -> forall s, ser kv.2 = Some s -> good kv.2 s) l ->
  wf_members l = true -> ser_members l = Some parts ->
  Forall2 member_good (norm_members l) parts.
Proof.
  intros IH. revert parts. induction IH as [|[k x] l Hx _ IHl]; intros parts Hwf Hs.
  - inversion Hs. constructor.
  - cbn [ser_members wf_members norm_members fst snd] in *.
    apply andb_prop in Hwf as [Hw Hwf].
    destruct (ser x) as [sx|] eqn:Ex; [|discriminate].
    destruct (ser_members l) as [r|]; [|discriminate].
    destruct (is_undefined x); injection Hs as <-; [now apply IHl|].
    destruct (Hx Hw _ eq_refl) as [Hp Hl].
    constructor; [|now apply IHl]. split.
    + exists x, sx. auto.
    + simpl. rewrite !slength_app. simpl. lia.
Qed.

Lemma members_start kvs parts :
  Forall2 member_good kvs parts -> kvs <> [] ->
  exists t, String.concat "," parts = String Text.dq t.
Proof.
  destruct 1 as [|kv p kvs parts [(x & sx & _ & -> & _) _] Hxs]; [congruence|].
  intros _. unfold quote. destruct Hxs; simpl; eauto.
Qed.

Theorem ser_good v : wf v = true -> forall s, ser v = Some s -> good v s.
Proof.
  induction v as [| |b|n|n|t|l IH|l IH] using value_ind; intros Hwf s Hs.
  - inversion Hs. split; [now apply parses_lit | simpl; lia].
  - inversion Hs. split; [now apply parses_lit | simpl; lia].
  - inversion Hs. split; [destruct b; now apply parses_lit | destruct b; simpl; lia].
  - inversion Hs. split; [apply parses_num|].
    pose proof (ser_starts (Num n) _ eq_refl) as H.
    simpl in H. destruct (number n); [discriminate | simpl; lia].
  - discriminate.
  - inversion Hs. split; [apply parses_str|].
    pose proof (quote_length t). simpl. lia.
  - rewrite ser_Arr in Hs. destruct (ser_elems l) as [parts|] eqn:E; [|discriminate].
    inversion Hs; subst s. clear Hs.
    pose proof (ser_elems_good l parts IH Hwf E) as HF.
    pose proof (elems_length _ _ HF) as HL.
    split.
    + intros fuel rest Hf _. change (norm (Arr l)) with (Arr (map norm l)) in *.
      rewrite size_Arr in Hf. destruct fuel as [|f]; [lia|].
      simpl String.append. rewrite sapp_assoc. simpl String.append.
      destruct HF as [|x p xs parts' [Hx Hlx] HF']; [reflexivity|].
      rewrite pv_arr_elems.
      * apply (parse_elems_ok (x :: xs) (p :: parts')).
        -- constructor; [exact Hx|].
           eapply Forall2_impl; [exact HF'|]. now intros ? ? [? _].
        -- congruence.
        -- lia.
      * apply starts_app, concat_starts.
        simpl in E. destruct (ser x) eqn:Ex; [|discriminate].
        destruct (ser_elems xs); [|discriminate]. inversion E; subst.
        eapply ser_starts; eauto.
    + change (norm (Arr l)) with (Arr (map norm l)). rewrite size_Arr.
      simpl. rewrite slength_app. simpl. lia.
  - rewrite ser_Obj in Hs. destruct (ser_members l) as [parts|] eqn:E; [|discriminate].
    inversion Hs; subst s. clear Hs.
    rewrite wf_Obj in Hwf. apply andb_prop in Hwf as [Hk Hwf].
    pose proof (ser_members_good l parts IH Hwf E) as HF.
    pose proof (members_length _ _ HF) as HL.
    assert (Hkeys : keys_ok (map fst (norm_members l)) = true)
      by (eapply keys_ok_sublist; [apply norm_members_keys | exact Hk]).
    split.
    + intros fuel rest Hf _. rewrite norm_Obj, size_Obj in *.
      destruct fuel as [|f]; [lia|].
      simpl String.append. rewrite sapp_assoc. simpl String.append.
      destruct (norm_members l) as [|kv kvs] eqn:En.
      { inversion HF; subst. reflexivity. }
      destruct (members_start _ _ HF ltac:(congruence)) as [t Ht].
      rewrite Ht. simpl String.append. rewrite pv_obj_members.
      change (String Text.dq (t +:+ String "}" rest))
        with (String Text.dq t +:+ String "}" rest).
      rewrite <- Ht.
      rewrite (parse_members_ok (kv :: kvs) parts).
      * now rewrite fold_set_member.
      * eapply Forall2_impl; [exact HF|]. now intros ? ? [? _].
      * congruence.
      * lia.
    + rewrite norm_Obj, size_Obj. simpl. rewrite slength_app. simpl. lia.
Qed.

(** [JSON.parse(JSON.stringify(v))] is [norm v]. *)
Theorem parse_stringify v s :
  wf v = true -> JSON_stringify v = Some s -> JSON_parse s = Some (norm v).
Proof.
  intros Hwf Hs. destruct (ser_good v Hwf s Hs) as [Hp Hl].
  unfold JSON_parse.
  pose proof (Hp (S (String.length s)) EmptyString ltac:(lia) eq_refl) as H.
  rewrite sapp_nil_r in H. rewrite H. reflexivity.
Qed.

End JsonRoundTrip.

Module JsonNorm.
Import Text Json TextFacts JsonFacts JsonRoundTrip.

Lemma norm_not_undefined v : is_undefined (norm v) = false.
Proof. now destruct v. Qed.

Lemma norm_defined v : is_undefined v = false -> is_undefined (norm v) = false.
Proof. intros _. apply norm_not_undefined. Qed.

(** Normalising does not change the text. *)
Lemma ser_norm v : ser (norm v) = ser v.
Proof.
  induction v as [| |b|n|n|t|l IH|l IH] using value_ind; try reflexivity.
  - change (norm (Arr l)) with (Arr (map norm l)). rewrite !ser_Arr.
    replace (ser_elems (map norm l)) with (ser_elems l); [reflexivity|].
    induction IH as [|x l Hx _ IHl]; [reflexivity|].
    simpl. now rewrite Hx, IHl.
  - rewrite norm_Obj, !ser_Obj.
    replace (ser_members (norm_members l)) with (ser_members l); [reflexivity|].
    induction IH as [|[k x] l Hx _ IHl]; [reflexivity|].
    cbn [ser_members norm_members snd] in *.
    destruct (is_undefined x) eqn:E.
    + destruct x; try discriminate. simpl. rewrite IHl.
      now destruct (ser_members (norm_members l)).
    + cbn [ser_members]. rewrite Hx, IHl, norm_not_undefined. reflexivity.
Qed.

Lemma wf_norm v : wf v = true -> wf (norm v) = true.
Proof.
  induction v as [| |b|n|n|t|l IH|l IH] using value_ind; try reflexivity.
  - change (norm (Arr l)) with (Arr (map norm l)). simpl.
    induction IH as [|x l Hx _ IHl]; [reflexivity|]. simpl.
    intros H. apply andb_prop in H as [H1 H2]. now rewrite Hx, IHl.
  - rewrite norm_Obj, !wf_Obj. intros H. apply andb_prop in H as [Hk Hw].
    apply andb_true_intro. split.
    + eapply keys_ok_sublist; [apply norm_members_keys | exact Hk].
    + clear Hk. induction IH as [|[k x] l Hx _ IHl]; [reflexivity|].
      cbn [wf_members norm_members snd] in *.
      apply andb_prop in Hw as [H1 H2].
      destruct (is_undefined x); cbn [wf_members]; [auto|].
      now rewrite Hx, IHl.
Qed.

Lemma norm_members_app a b : norm_members (a ++ b) = norm_members a ++ norm_members b.
Proof.
  induction a as [|[k x] a IH]; [reflexivity|]. simpl.
  destruct (is_undefined x); simpl; now rewrite IH.
Qed.

Lemma norm_idem v : norm (norm v) = norm v.
Proof.
  induction v as [| |b|n|n|t|l IH|l IH] using value_ind; try reflexivity.
  - change (norm (Arr l)) with (Arr (map norm l)).
    change (norm (Arr (map norm l))) with (Arr (map norm (map norm l))).
    f_equal. induction IH as [|x l Hx _ IHl]; [reflexivity|].
    simpl. now rewrite Hx, IHl.
  - rewrite !norm_Obj. f_equal.
    induction IH as [|[k x] l Hx _ IHl]; [reflexivity|].
    cbn [norm_members snd] in *.
    destruct (is_undefined x); [exact IHl|].
    cbn [norm_members]. now rewrite norm_not_undefined, Hx, IHl.
Qed.

(** ** The text of a value is one non-blank line *)

Lemma esc_no_nl c : all not_nl (esc c) = true.
Proof. destruct c as [[] [] [] [] [] [] [] []]; reflexivity. Qed.

Lemma quote_no_nl s : all not_nl (quote s) = true.
Proof.
  unfold quote. simpl. rewrite all_app. simpl.
  rewrite andb_true_r. induction s as [|c s IH]; [reflexivity|].
  simpl. now rewrite all_app, esc_no_nl, IH.
Qed.

Lemma digit_not_nl c : is_digit c = true -> not_nl c = true.
Proof. destruct c as [[] [] [] [] [] [] [] []]; vm_compute; congruence. Qed.

Lemma all_impl (P Q : ascii -> bool) s :
  (forall c, P c = true -> Q c = true) -> all P s = true -> all Q s = true.
Proof.
  intros H. induction s as [|c s IH]; simpl; [reflexivity|].
  intros Hs. apply andb_prop in Hs as [H1 H2]. now rewrite H, IH.
Qed.

Lemma number_no_nl n : all not_nl (number n) = true.
Proof.
  unfold number. destruct (Z.ltb_spec n 0).
  - simpl. apply (all_impl is_digit); [apply digit_not_nl|].
    apply (dec_spec (- n)). lia.
  - apply (all_impl is_digit); [apply digit_not_nl|]. now apply dec_spec.
Qed.

Lemma concat_no_nl parts :
  Forall (fun p => all not_nl p = true) parts ->
  all not_nl (String.concat "," parts) = true.
Proof.
  induction 1 as [|p parts Hp Hps IH]; [reflexivity|].
  destruct Hps as [|p' parts' Hp' Hps'].
  - exact Hp.
  - change (String.concat "," (p :: p' :: parts'))
      with (p +:+ "," +:+ String.concat "," (p' :: parts')).
    rewrite !all_app, Hp, IH. reflexivity.
Qed.

Lemma member_no_nl k sx :
  all not_nl sx = true -> all not_nl (quote k +:+ ":" +:+ sx) = true.
Proof. intros H. now rewrite !all_app, quote_no_nl, H. Qed.

Lemma ser_no_nl v s : ser v = Some s -> all not_nl s = true.
Proof.
  revert s. induction v as [| |b|n|n|t|l IH|l IH] using value_ind; intros s Hs.
  - now inversion Hs.
  - now inversion Hs.
  - inversion Hs. now destruct b.
  - inversion Hs. apply number_no_nl.
  - discriminate.
  - inversion Hs. apply quote_no_nl.
  - rewrite ser_Arr in Hs. destruct (ser_elems l) as [parts|] eqn:E; [|discriminate].
    injection Hs as <-. simpl. rewrite all_app, andb_true_r.
    apply concat_no_nl. revert parts E.
    induction IH as [|x l Hx _ IHl]; intros parts E; simpl in E.
    + injection E as <-. constructor.
    + destruct (ser x) as [sx|]; [|discriminate].
      destruct (ser_elems l) as [r|]; [|discriminate].
      injection E as <-. constructor; auto.
  - rewrite ser_Obj in Hs. destruct (ser_members l) as [parts|] eqn:E; [|discriminate].
    injection Hs as <-. simpl. rewrite all_app, andb_true_r.
    apply concat_no_nl. revert parts E.
    induction IH as [|[k x] l Hx _ IHl]; intros parts E; cbn [ser_members snd] in *.
    + injection E as <-. constructor.
    + destruct (ser x) as [sx|]; [|discriminate].
      destruct (ser_members l) as [r|]; [|discriminate].
      destruct (is_undefined x); injection E as <-; [auto|].
      constructor; [|auto].
      apply member_no_nl, Hx. reflexivity.
Qed.

Lemma value_start_not_blank c : value_start c = true -> Text.is_ws c = false.
Proof. destruct c as [[] [] [] [] [] [] [] []]; vm_compute; congruence. Qed.

Lemma ser_not_blank v s : ser v = Some s -> Text.blank s = false.
Proof.
  intros H. apply ser_starts in H. destruct s as [|c s]; [discriminate|].
  simpl in *. now rewrite value_start_not_blank.
Qed.

(** ** Reading and writing properties *)

Lemma obj_get_replace_eq k v l : has_key k l = true -> obj_get k (obj_replace k v l) = v.
Proof.
  unfold has_key. induction l as [|[k' v'] l IH]; simpl; [discriminate|].
  destruct (decide (k' = k)) as [->|Hne]; simpl.
  - now rewrite decide_True.
  - rewrite bool_decide_eq_false_2 by assumption. simpl.
    rewrite decide_False by assumption. exact IH.
Qed.

Lemma obj_get_replace_ne k k' v l : k <> k' -> obj_get k' (obj_replace k v l) = obj_get k' l.
Proof.
  intros Hne. induction l as [|[k0 v0] l IH]; simpl; [reflexivity|].
  destruct (decide (k0 = k)) as [->|Hne0]; simpl.
  - now rewrite !decide_False.
  - now rewrite IH.
Qed.

Lemma obj_get_app_absent k l1 l2 : has_key k l1 = false -> obj_get k (l1 ++ l2) = obj_get k l2.
Proof.
  unfold has_key. induction l1 as [|[k' v'] l IH]; simpl; [reflexivity|].
  intros H. apply orb_false_elim in H as [H1 H2].
  apply bool_decide_eq_false in H1. simpl in H1.
  rewrite decide_False by assumption. auto.
Qed.

Lemma obj_get_app_present k l1 l2 : has_key k l1 = true -> obj_get k (l1 ++ l2) = obj_get k l1.
Proof.
  unfold has_key. induction l1 as [|[k' v'] l IH]; simpl; [discriminate|].
  destruct (decide (k' = k)) as [->|Hne]; [reflexivity|].
  rewrite bool_decide_eq_false_2 by assumption. exact IH.
Qed.

Lemma obj_get_absent k l : has_key k l = false -> obj_get k l = Undefined.
Proof.
  intros H. rewrite <- (List.app_nil_r l). now rewrite obj_get_app_absent.
Qed.

(** Setting a key that is not an array index. *)
Lemma obj_set_plain l k v :
  plain k = true ->
  obj_set l k v = if has_key k l then obj_replace k v l else l ++ [(k, v)].
Proof.
  unfold obj_set, plain. destruct (has_key k l); [reflexivity|].
  now destruct (index_of k).
Qed.

Lemma obj_get_set_eq l k v : plain k = true -> obj_get k (obj_set l k v) = v.
Proof.
  intros Hp. rewrite obj_set_plain by assumption.
  destruct (has_key k l) eqn:E.
  - now apply obj_get_replace_eq.
  - rewrite obj_get_app_absent by assumption. simpl. now rewrite decide_True.
Qed.

Lemma obj_get_set_ne l k k' v :
  plain k = true -> k <> k' -> obj_get k' (obj_set l k v) = obj_get k' l.
Proof.
  intros Hp Hne. rewrite obj_set_plain by assumption.
  destruct (has_key k l) eqn:E.
  - now apply obj_get_replace_ne.
  - destruct (has_key k' l) eqn:E'.
    + now apply obj_get_app_present.
    + rewrite obj_get_app_absent, (obj_get_absent k' l) by assumption.
      simpl. now rewrite decide_False.
Qed.

Lemma replace_keys k v l : map fst (obj_replace k v l) = map fst l.
Proof.
  induction l as [|[k' v'] l IH]; [reflexivity|]. simpl.
  destruct (decide (k' = k)) as [->|]; simpl; [reflexivity | now rewrite IH].
Qed.

Lemma has_key_elem k l : has_key k l = true <-> k ∈ map fst l.
Proof.
  unfold has_key. induction l as [|[k' v'] l IH]; simpl.
  - split; [discriminate | intros H; inversion H].
  - rewrite orb_true_iff, bool_decide_eq_true, IH, elem_of_cons. simpl.
    split; (intros [H|H]; [left; congruence | right; exact H]).
Qed.

Lemma has_key_replace k k' v l : has_key k' (obj_replace k v l) = has_key k' l.
Proof.
  destruct (has_key k' l) eqn:E.
  - apply has_key_elem. rewrite replace_keys. now apply has_key_elem.
  - destruct (has_key k' (obj_replace k v l)) eqn:E'; [|reflexivity].
    apply has_key_elem in E'. rewrite replace_keys in E'.
    apply has_key_elem in E'. congruence.
Qed.

Lemma has_key_app k l1 l2 : has_key k (l1 ++ l2) = has_key k l1 || has_key k l2.
Proof. unfold has_key. apply existsb_app. Qed.

Lemma has_key_set_ne l k k' v :
  plain k = true -> k <> k' -> has_key k' (obj_set l k v) = has_key k' l.
Proof.
  intros Hp Hne. rewrite obj_set_plain by assumption.
  destruct (has_key k l); [apply has_key_replace|].
  rewrite has_key_app. simpl. rewrite bool_decide_eq_false_2 by assumption.
  now rewrite !orb_false_r.
Qed.

Lemma ordered_snoc_plain lo ks k :
  plain k = true -> ordered lo ks = true -> ordered lo (ks ++ [k]) = true.
Proof.
  intros Hp. revert lo. induction ks as [|k' ks IH]; intros lo H; simpl in *.
  - unfold plain in Hp. now destruct (index_of k).
  - destruct (index_of k').
    + apply andb_prop in H as [H1 H2]. now rewrite H1, IH.
    + rewrite forallb_app, H. simpl. fold (plain k). now rewrite Hp.
Qed.

Lemma wf_members_app a b : wf_members (a ++ b) = wf_members a && wf_members b.
Proof.
  induction a as [|[k x] a IH]; [reflexivity|]. simpl. now rewrite IH, andb_assoc.
Qed.

Lemma wf_members_replace k v l :
  wf v = true -> wf_members l = true -> wf_members (obj_replace k v l) = true.
Proof.
  intros Hv. induction l as [|[k' v'] l IH]; [reflexivity|]. simpl.
  intros H. apply andb_prop in H as [H1 H2].
  destruct (decide (k' = k)); simpl; [now rewrite Hv | now rewrite H1, IH].
Qed.

(** Setting a plain key keeps an object well formed. *)
Lemma wf_obj_set l k v :
  plain k = true -> wf v = true -> wf_object l = true -> wf_object (obj_set l k v) = true.
Proof.
  unfold wf_object. rewrite !wf_Obj. intros Hp Hv H.
  apply andb_prop in H as [Hk Hw]. rewrite obj_set_plain by assumption.
  destruct (has_key k l) eqn:E.
  - now rewrite replace_keys, Hk, wf_members_replace.
  - rewrite map_app, wf_members_app, Hw. simpl. rewrite Hv, andb_true_r.
    unfold keys_ok in *. apply andb_prop in Hk as [Hn Ho].
    apply bool_decide_eq_true in Hn. apply andb_true_intro. split.
    + apply bool_decide_eq_true. apply NoDup_app. split; [assumption|].
      split; [|apply NoDup_singleton].
      intros x Hx Hx'. apply list_elem_of_singleton in Hx'. subst x.
      apply has_key_elem in Hx. congruence.
    + now apply ordered_snoc_plain.
Qed.

Lemma obj_remove_app k a b : obj_remove k (a ++ b) = obj_remove k a ++ obj_remove k b.
Proof. unfold obj_remove. apply filter_app. Qed.

Lemma obj_remove_absent k l : has_key k l = false -> obj_remove k l = l.
Proof.
  unfold obj_remove, has_key. induction l as [|[k' v'] l IH]; [reflexivity|]. simpl.
  intros H. apply orb_false_elim in H as [H1 H2].
  apply bool_decide_eq_false in H1. simpl in H1.
  rewrite filter_cons_True by assumption. now rewrite IH.
Qed.

Lemma has_key_norm_members k l : has_key k l = false -> has_key k (norm_members l) = false.
Proof.
  intros H. destruct (has_key k (norm_members l)) eqn:E; [|reflexivity].
  apply has_key_elem in E.
  apply (fun H => elem_of_sublist _ _ _ H (norm_members_keys l)) in E.
  apply has_key_elem in E. congruence.
Qed.

End JsonNorm.

Module Sha256Facts.
Import Sha256.

Lemma blocks_cons n h bs :
  (exists a t, h = a :: t) -> exists a t, blocks n h bs = a :: t.
Proof.
  revert h bs. induction n as [|n IH]; intros h bs Hh; simpl; [exact Hh|].
  destruct bs as [|b bs]; [exact Hh|].
  apply IH. unfold compress. eauto.
Qed.

Lemma digest_cons msg : exists a t, digest msg = a :: t.
Proof. unfold digest. apply blocks_cons. unfold H0. eauto. Qed.

Lemma hex_digit_not_g d : 0 <= d < 16 -> hex_digit d <> "g"%char.
Proof.
  intros Hd E. unfold hex_digit in E.
  apply (f_equal N_of_ascii) in E.
  destruct (d <? 10); rewrite N_ascii_embedding in E by lia; simpl in E; lia.
Qed.

(** A digest in hex starts with a hex digit: it is neither empty nor
    the word genesis. *)
Lemma sha256_hex_first s :
  exists c t, sha256_hex s = String c t /\ c <> "g"%char.
Proof.
  unfold sha256_hex. destruct (digest_cons (Text.bytes s)) as (a & t & ->).
  simpl. eexists _, _. split; [reflexivity|].
  apply hex_digit_not_g, Z.mod_pos_bound. lia.
Qed.

Lemma sha256_hex_not_genesis s : sha256_hex s <> "genesis".
Proof.
  destruct (sha256_hex_first s) as (c & t & E & Hc). rewrite E.
  intros H. injection H as H _. congruence.
Qed.

Lemma or_genesis_hash s : Store.or_genesis (Some (sha256_hex s)) = sha256_hex s.
Proof. destruct (sha256_hex_first s) as (c & t & -> & _). reflexivity. Qed.

End Sha256Facts.

Module StoreFacts.
Import Json Host Store Run.

Ltac unfold_m :=
  cbv beta iota delta
    [mbind M_bind bind catch finally get ret throw modify log guard] in *.

Ltac simpl_world :=
  cbn [res_world mem logs fs add_log set_mem set_fs state with_state with_emergency
       with_path with_initialized emergencyMode initialized currentStreamPath] in *.

Lemma checkDiskSpace_eq cfg env w :
  checkDiskSpace cfg env w = Ok (has_space cfg env) w.
Proof.
  unfold checkDiskSpace, has_space. unfold_m.
  destruct (fault env Statfs (storagePath cfg, EmptyString)); [reflexivity|].
  now destruct (statfs env).
Qed.

Lemma logToEmergency_eq cfg env entry w :
  logToEmergency cfg env entry w =
  match JSON_stringify (Obj (emergencyEntry env entry)) with
  | None => Ok false (add_log (ErrorEmergencyFailed TypeError) w)
  | Some line =>
      if fault env AppendFile (emergencyPath cfg)
      then Ok false (add_log (ErrorEmergencyFailed (EIO AppendFile (emergencyPath cfg))) w)
      else Ok true (set_fs (insert (emergencyPath cfg)
                              (content_of w (emergencyPath cfg) +:+ line +:+ LF)) w)
  end.
Proof.
  unfold logToEmergency, stringify, fs_appendFile, emergencyEntry, emergencyPath. unfold_m.
  destruct (JSON_stringify _); [|reflexivity].
  now destruct (fault env AppendFile _).
Qed.

Lemma buildStoredAction_eq cfg entry w :
  buildStoredAction cfg entry w =
  match seal cfg (state (mem w)) entry with
  | Some stored => Ok stored w
  | None => Threw TypeError w
  end.
Proof.
  unfold buildStoredAction, seal, calculateHash, stringify. unfold_m.
  destruct (enableIntegrityCheck cfg); [|reflexivity].
  now destruct (JSON_stringify _).
Qed.

Lemma logAction_eq cfg env entry w :
  logAction cfg env entry w =
  match logLevel cfg with
  | off => Ok true w
  | _ =>
    if negb (initialized (mem w)) then Ok false (add_log WarnNotInitialized w)
    else if emergencyMode (mem w)
    then logToEmergency cfg env entry (add_log WarnEmergencyMode w)
    else if negb (has_space cfg env)
    then logToEmergency cfg env entry
           (add_log ErrorLowDisk (set_mem (with_emergency true) w))
    else
      match Store.rotate cfg env w with
      | Threw e w1 => Threw e w1
      | Ok _ w1 =>
        match seal cfg (state (mem w1)) entry with
        | None => Threw TypeError w1
        | Some stored =>
          match JSON_stringify (Obj stored) with
          | None => Ok false (add_log ErrorSerialization w1)
          | Some line =>
            match durable env (getTodayStreamPath cfg env) line w1 with
            | Ok _ w2 =>
                Ok true (add_log (DebugLogged stored)
                           (set_mem (fun i => with_state (commit cfg stored (state i)) i) w2))
            | Threw e w2 =>
                logToEmergency cfg env entry (add_log (ErrorWriteFailed e) w2)
            end
          end
        end
      end
  end.
Proof.
  unfold logAction.
  destruct (logLevel cfg); [reflexivity| |].
  all: unfold mbind, M_bind, bind at 1, get at 1.
  all: destruct (initialized (mem w)); [|reflexivity]; cbn [negb].
  all: unfold bind at 1, get at 1.
  all: destruct (emergencyMode (mem w)); [reflexivity|].
  all: unfold bind at 1; rewrite checkDiskSpace_eq.
  all: destruct (has_space cfg env); [|reflexivity]; cbn [negb].
  all: unfold bind at 1.
  all: destruct (rotate cfg env w) as [[] w1|e w1]; [|reflexivity].
  all: unfold bind at 1; rewrite buildStoredAction_eq.
  all: destruct (seal cfg (state (mem w1)) entry) as [stored|]; [|reflexivity].
  all: unfold bind at 1, catch at 1, bind at 1, stringify.
  all: destruct (JSON_stringify (Obj stored)) as [line|]; [|reflexivity].
  all: cbv beta iota delta [ret catch bind].
  all: destruct (durable env (getTodayStreamPath cfg env) line w1) as [[] w2|e w2];
    reflexivity.
Qed.

Lemma header_ser cfg env : JSON_stringify (header cfg env) = Some (header_line cfg env).
Proof. reflexivity. Qed.

Lemma writeStreamHeader_eq cfg env w p :
  currentStreamPath (mem w) = Some p ->
  writeStreamHeader cfg env w =
  if fault env WriteFile p then Threw (EIO WriteFile p) w
  else if fs w !! p is Some _ then Threw (EEXIST p) w
  else Ok tt (set_fs (insert p (header_line cfg env +:+ LF)) w).
Proof.
  intros Hp. unfold writeStreamHeader, stringify, fs_writeFile_wx.
  rewrite header_ser. unfold_m. rewrite Hp.
  destruct (fault env WriteFile p); [reflexivity|].
  now destruct (fs w !! p).
Qed.

Lemma rotate_eq cfg env w :
  rotate cfg env w =
  if bool_decide (currentStreamPath (mem w) = Some (getTodayStreamPath cfg env))
  then Ok tt w
  else writeStreamHeader cfg env
         (set_mem (with_path (Some (getTodayStreamPath cfg env))) w).
Proof.
  unfold rotate. unfold_m.
  now destruct (bool_decide _).
Qed.

Lemma durable_eq env p line w :
  durable env p line w =
  if fault env AppendFile p then Threw (EIO AppendFile p) w
  else if fault env Open p then Threw (EIO Open p) (appended p line w)
  else if fault env Sync p then
    Threw (if fault env Close p then EIO Close p else EIO Sync p) (appended p line w)
  else if fault env Close p then Threw (EIO Close p) (appended p line w)
  else Ok tt (appended p line w).
Proof.
  unfold durable, fs_appendFile, fs_open, fd_sync, fd_close, appended. unfold_m.
  destruct (fault env AppendFile p); [reflexivity|].
  destruct (fault env Open p); [reflexivity|].
  cbn. rewrite lookup_insert_eq.
  destruct (fault env Sync p), (fault env Close p); reflexivity.
Qed.

(** Whatever [durable] answers, it leaves the instance and the log alone
    and touches no file but [p]. *)
Lemma durable_same env p line w :
  same_but p w (res_world (durable env p line w)).
Proof.
  rewrite durable_eq.
  assert (Ha : same_but p w (appended p line w)).
  { repeat split. intros q Hq. simpl. now rewrite lookup_insert_ne. }
  assert (Hw : same_but p w w) by (repeat split).
  destruct (fault env AppendFile p); [exact Hw|].
  destruct (fault env Open p); [exact Ha|].
  destruct (fault env Sync p); [exact Ha|].
  destruct (fault env Close p); exact Ha.
Qed.

(** [rotate] changes the current path and may create today's file; the
    stream state, the flags and the log stay. *)
Lemma rotate_same cfg env w :
  let w' := res_world (rotate cfg env w) in
  state (mem w') = state (mem w) /\ logs w' = logs w /\
  emergencyMode (mem w') = emergencyMode (mem w) /\
  initialized (mem w') = initialized (mem w) /\
  forall p, p <> getTodayStreamPath cfg env -> fs w' !! p = fs w !! p.
Proof.
  cbv zeta. rewrite rotate_eq.
  destruct (bool_decide _); [repeat split|].
  rewrite (writeStreamHeader_eq _ _ _ (getTodayStreamPath cfg env)) by reflexivity.
  destruct (fault env WriteFile _); [repeat split|]. simpl_world.
  destruct (fs w !! _); repeat split.
  intros p Hp. simpl_world. now rewrite lookup_insert_ne.
Qed.

Lemma logged_app a b : logged (a ++ b) = logged a ++ logged b.
Proof. unfold logged. apply omap_app. Qed.

(** [logToEmergency] returns, leaves the instance alone, logs at most a
    failure and touches no file but the emergency log. *)
Lemma logToEmergency_same cfg env entry w :
  exists b w', logToEmergency cfg env entry w = Ok b w' /\
    mem w' = mem w /\
    (exists d, logs w' = logs w ++ d /\ logged d = []) /\
    forall p, p <> emergencyPath cfg -> fs w' !! p = fs w !! p.
Proof.
  rewrite logToEmergency_eq.
  destruct (JSON_stringify _) as [line|].
  - destruct (fault env AppendFile _).
    + eexists _, _. repeat split. eexists. split; reflexivity.
    + eexists _, _. repeat split.
      * exists []. now rewrite List.app_nil_r.
      * intros p Hp. simpl. now rewrite lookup_insert_ne.
  - eexists _, _. repeat split. eexists. split; reflexivity.
Qed.

(** ** The two outcomes of a call, as the chain sees them *)

(** Either the call appended a stored action, committed it and logged
    it, or the stream state is as before and nothing was logged as
    stored. *)
Lemma logAction_cases cfg env entry w :
  let r := logAction cfg env entry w in
  (exists stored w1 line,
      seal cfg (state (mem w)) entry = Some stored /\
      JSON_stringify (Obj stored) = Some line /\
      rotate cfg env w = Ok tt w1 /\
      r = Ok true (add_log (DebugLogged stored)
                     (set_mem (with_state (commit cfg stored (state (mem w))))
                        (appended (getTodayStreamPath cfg env) line w1))) /\
      logs (res_world r) = logs w ++ [DebugLogged stored] /\
      state (mem (res_world r)) = commit cfg stored (state (mem w)) /\
      logLevel cfg <> off /\ initialized (mem w) = true /\
      emergencyMode (mem w) = false)
  \/ (state (mem (res_world r)) = state (mem w) /\
      exists d, logs (res_world r) = logs w ++ d /\ logged d = []).
Proof.
  cbv zeta. rewrite logAction_eq.
  assert (Hq : forall w0, state (mem w0) = state (mem w) ->
             (exists d, logs w0 = logs w ++ d /\ logged d = []) ->
             let r := logToEmergency cfg env entry w0 in
             state (mem (res_world r)) = state (mem w) /\
             exists d, logs (res_world r) = logs w ++ d /\ logged d = []).
  { intros w0 Hs (d & Hd & Hl).
    destruct (logToEmergency_same cfg env entry w0) as (b & w' & -> & Hm & (d' & Hd' & Hl') & _).
    simpl_world. rewrite Hm. split; [exact Hs|].
    exists (d ++ d'). rewrite Hd', Hd, logged_app, Hl, Hl', <- List.app_assoc. auto. }
  assert (Hnil : exists d, logs w = logs w ++ d /\ logged d = [])
    by (exists []; now rewrite List.app_nil_r).
  destruct (logLevel cfg) eqn:Hlvl; [right; split; [reflexivity | exact Hnil]| |].
  all: destruct (initialized (mem w)) eqn:Hinit; cbn [negb];
    [|right; split; [reflexivity|]; eexists; split; reflexivity].
  all: destruct (emergencyMode (mem w)) eqn:Hem;
    [right; apply Hq; [reflexivity | eexists; split; reflexivity]|].
  all: destruct (has_space cfg env); cbn [negb];
    [|right; apply Hq; [reflexivity | eexists; split; reflexivity]].
  all: pose proof (rotate_same cfg env w) as (Hrs & Hrl & _).
  all: destruct (rotate cfg env w) as [[] w1|e w1] eqn:Hrot; simpl_world;
    [|right; split; [exact Hrs | rewrite Hrl; exact Hnil]].
  all: rewrite Hrs.
  all: destruct (seal cfg (state (mem w)) entry) as [stored|] eqn:Hseal;
    [|right; simpl_world; split; [exact Hrs | rewrite Hrl; exact Hnil]].
  all: destruct (JSON_stringify (Obj stored)) as [line|] eqn:Hline;
    [|right; simpl_world; split; [exact Hrs|]; rewrite Hrl; eexists; split; reflexivity].
  all: pose proof (durable_same env (getTodayStreamPath cfg env) line w1) as (Hdm & Hdl & _).
  all: pose proof (durable_eq env (getTodayStreamPath cfg env) line w1) as Hde.
  all: destruct (durable env (getTodayStreamPath cfg env) line w1) as [[] w2|e w2] eqn:Hdur;
    simpl_world.
  all: try (right; apply Hq; simpl_world; [now rewrite Hdm, Hrs|];
            rewrite Hdl, Hrl; eexists; split; reflexivity).
  all: left; exists stored, w1, line.
  all: split; [reflexivity|]; split; [exact Hline|]; split; [reflexivity|].
  all: split;
    [|split; [now rewrite Hdl, Hrl|];
      split; [now rewrite Hdm, Hrs|];
      split; [congruence|split; reflexivity]].
  all: destruct (fault env AppendFile _); [discriminate|].
  all: destruct (fault env Open _); [discriminate|].
  all: destruct (fault env Sync _); [discriminate|].
  all: destruct (fault env Close _); [discriminate|].
  all: injection Hde as ->.
  all: unfold set_mem, appended, set_fs; simpl_world; rewrite Hrs; reflexivity.
Qed.

End StoreFacts.

Module ChainFacts.
Import Json Host Store Run Chain JsonNorm StoreFacts Sha256Facts.

Lemma plain_sequence : plain "sequence" = true.
Proof. reflexivity. Qed.
Lemma plain_integrity : plain "_integrity" = true.
Proof. reflexivity. Qed.

Lemma newly_app w w' d : logs w' = logs w ++ d -> newly w w' = d.
Proof. intros H. unfold newly. rewrite H. apply drop_app_length. Qed.

(** The action [seal] builds: the entry with its sequence number and,
    when integrity is on, its [_integrity] object. *)
Lemma seal_spec cfg st entry stored :
  seal cfg st entry = Some stored ->
  let a := obj_set entry "sequence" (Num (sequence st + 1)) in
  if enableIntegrityCheck cfg then
    exists content,
      JSON_stringify (Obj a) = Some content /\
      stored = obj_set a "_integrity"
                 (integrity (Sha256.sha256_hex (content +:+ or_genesis (lastHash st)))
                            (or_genesis (lastHash st)))
  else stored = a.
Proof.
  unfold seal. cbv zeta. destruct (enableIntegrityCheck cfg).
  - destruct (JSON_stringify _) as [content|]; [|discriminate].
    intros H. injection H as <-. now exists content.
  - intros H. now injection H as <-.
Qed.

Lemma seal_sequence cfg st entry stored :
  seal cfg st entry = Some stored ->
  obj_get "sequence" stored = Num (sequence st + 1).
Proof.
  intros H. apply seal_spec in H. cbv zeta in H.
  destruct (enableIntegrityCheck cfg).
  - destruct H as (content & _ & ->).
    rewrite obj_get_set_ne by (reflexivity || discriminate).
    now apply obj_get_set_eq.
  - subst. now apply obj_get_set_eq.
Qed.

Lemma commit_sequence cfg st entry stored :
  seal cfg st entry = Some stored ->
  sequence (commit cfg stored st) = sequence st + 1.
Proof.
  intros H. apply seal_sequence in H. unfold commit. rewrite H.
  now destruct (_ && _).
Qed.

Lemma seal_integrity cfg st entry stored :
  enableIntegrityCheck cfg = true ->
  seal cfg st entry = Some stored ->
  exists content,
    JSON_stringify (Obj (obj_set entry "sequence" (Num (sequence st + 1)))) = Some content /\
    obj_get "_integrity" stored
    = integrity (Sha256.sha256_hex (content +:+ or_genesis (lastHash st)))
                (or_genesis (lastHash st)) /\
    lastHash (commit cfg stored st)
    = Some (Sha256.sha256_hex (content +:+ or_genesis (lastHash st))).
Proof.
  intros Hi H. pose proof (seal_spec _ _ _ _ H) as Hs. cbv zeta in Hs.
  rewrite Hi in Hs. destruct Hs as (content & Hc & ->).
  exists content. split; [exact Hc|].
  assert (Hg : obj_get "_integrity"
                 (obj_set (obj_set entry "sequence" (Num (sequence st + 1))) "_integrity"
                    (integrity (Sha256.sha256_hex (content +:+ or_genesis (lastHash st)))
                       (or_genesis (lastHash st))))
               = integrity (Sha256.sha256_hex (content +:+ or_genesis (lastHash st)))
                   (or_genesis (lastHash st)))
    by now apply obj_get_set_eq.
  split; [exact Hg|].
  unfold commit. rewrite Hi, Hg. reflexivity.
Qed.

(** ** Runs *)

(** A run only ever adds to the log. *)
Lemma run_logs cfg calls w : exists d, logs (run cfg calls w) = logs w ++ d.
Proof.
  revert w. induction calls as [|[env entry] calls IH]; intros w; simpl.
  - exists []. now rewrite List.app_nil_r.
  - destruct (IH (res_world (logAction cfg env entry w))) as (d & Hd).
    destruct (logAction_cases cfg env entry w)
      as [(stored & w1 & line & _ & _ & _ & _ & Hl & _)|(_ & d0 & Hd0 & _)].
    + rewrite Hd, Hl, <- List.app_assoc. eauto.
    + rewrite Hd, Hd0, <- List.app_assoc. eauto.
Qed.





Lemma wf_integrity h p : wf (integrity h p) = true.
Proof. reflexivity. Qed.

Lemma norm_integrity h p : norm (integrity h p) = integrity h p.
Proof. reflexivity. Qed.


(** The stored action with integrity on: the entry, its sequence number
    and last its [_integrity] object. *)
Lemma seal_shape cfg st entry stored :
  enableIntegrityCheck cfg = true ->
  has_key "_integrity" entry = false ->
  seal cfg st entry = Some stored ->
  exists content,
    let a := obj_set entry "sequence" (Num (sequence st + 1)) in
    let p := or_genesis (lastHash st) in
    JSON_stringify (Obj a) = Some content /\
    has_key "_integrity" a = false /\
    stored = a ++ [("_integrity", integrity (Sha256.sha256_hex (content +:+ p)) p)].
Proof.
  intros Hi Hk H. pose proof (seal_spec _ _ _ _ H) as Hs. cbv zeta in Hs.
  rewrite Hi in Hs. destruct Hs as (content & Hc & ->).
  exists content. cbv zeta.
  assert (Ha : has_key "_integrity" (obj_set entry "sequence" (Num (sequence st + 1))) = false)
    by (rewrite has_key_set_ne by (reflexivity || discriminate); exact Hk).
  split; [exact Hc|]. split; [exact Ha|].
  rewrite obj_set_plain by reflexivity. now rewrite Ha.
Qed.

End ChainFacts.

Module Claims123.
Import Json Host Store Run Chain JsonNorm StoreFacts Sha256Facts ChainFacts JsonRoundTrip.







End Claims123.

Module FaultFacts.
Import Json Host Store Run Chain Scenario Faults JsonNorm StoreFacts ChainFacts.

Lemma durable_fails cfg env line w :
  primary_fails cfg env ->
  exists e w2, durable env (getTodayStreamPath cfg env) line w = Threw e w2
    /\ same_but (getTodayStreamPath cfg env) w w2.
Proof.
  intros H. pose proof (durable_same env (getTodayStreamPath cfg env) line w) as Hs.
  rewrite durable_eq in *. unfold primary_fails in H. cbv zeta in H.
  destruct (fault env AppendFile _); [eauto|].
  destruct (fault env Open _); [eauto|].
  destruct (fault env Sync _); [eauto|].
  destruct (fault env Close _); [eauto|].
  destruct H as [H|[H|[H|H]]]; discriminate.
Qed.

Lemma emergency_not_stream cfg env : emergencyPath cfg <> getTodayStreamPath cfg env.
Proof.
  unfold emergencyPath, getTodayStreamPath, path_join. intros H.
  injection H as H. discriminate.
Qed.

(** What [logToEmergency] answers and leaves on disk. *)
Lemma emergency_result cfg env entry w0 :
  exists b w', logToEmergency cfg env entry w0 = Ok b w'
    /\ mem w' = mem w0
    /\ (b = true <-> emergency_append_ok cfg env entry)
    /\ (b = true -> exists line,
          JSON_stringify (Obj (emergencyEntry env entry)) = Some line /\
          fs w' !! emergencyPath cfg
          = Some (content_of w0 (emergencyPath cfg) +:+ line +:+ LF))
    /\ (b = false -> fs w' !! emergencyPath cfg = fs w0 !! emergencyPath cfg).
Proof.
  rewrite logToEmergency_eq. unfold emergency_append_ok.
  destruct (JSON_stringify (Obj (emergencyEntry env entry))) as [line|] eqn:E.
  - destruct (fault env AppendFile (emergencyPath cfg)) eqn:F.
    + eexists _, _. split; [reflexivity|]. split; [reflexivity|].
      split; [split; [discriminate | intros (l & _ & H); discriminate]|].
      split; [discriminate | reflexivity].
    + eexists _, _. split; [reflexivity|]. split; [reflexivity|].
      split; [split; [eauto | reflexivity]|].
      split; [|discriminate]. intros _. exists line. split; [reflexivity|].
      simpl_world. apply lookup_insert_eq.
  - eexists _, _. split; [reflexivity|]. split; [reflexivity|].
    split; [split; [discriminate | intros (l & H & _); discriminate]|].
    split; [discriminate | reflexivity].
Qed.

Lemma content_of_eq w w' p : fs w' !! p = fs w !! p -> content_of w' p = content_of w p.
Proof. unfold content_of. now intros ->. Qed.

(** The call when the primary path fails, shared by C7 and C8. *)
Lemma primary_failure_routes cfg env entry w w1 stored line :
  logLevel cfg <> off ->
  initialized (mem w) = true ->
  emergencyMode (mem w) = false ->
  has_space cfg env = true ->
  rotate cfg env w = Ok tt w1 ->
  seal cfg (state (mem w)) entry = Some stored ->
  JSON_stringify (Obj stored) = Some line ->
  primary_fails cfg env ->
  exists e w2,
    same_but (getTodayStreamPath cfg env) w1 w2
    /\ logAction cfg env entry w
       = logToEmergency cfg env entry (add_log (ErrorWriteFailed e) w2).
Proof.
  intros Hlvl Hinit Hem Hsp Hrot Hseal Hline Hfail.
  pose proof (rotate_same cfg env w) as (Hrs & _).
  rewrite Hrot in Hrs. simpl_world.
  destruct (durable_fails cfg env line w1 Hfail) as (e & w2 & Hd & Hsame).
  exists e, w2. split; [exact Hsame|].
  rewrite logAction_eq, Hinit, Hem, Hsp, Hrot, Hrs, Hseal, Hline, Hd.
  now destruct (logLevel cfg).
Qed.

(** C7, as the code has it.  When the primary append or its fsync
    fails, [logAction] logs the error, hands the original entry to
    [logToEmergency] and returns what that returns; it does not set
    emergency mode, and the stream state stays as it was. *)
Theorem C7_primary_failure_routes cfg env entry w w1 stored line :
  logLevel cfg <> off ->
  initialized (mem w) = true ->
  emergencyMode (mem w) = false ->
  has_space cfg env = true ->
  rotate cfg env w = Ok tt w1 ->
  seal cfg (state (mem w)) entry = Some stored ->
  JSON_stringify (Obj stored) = Some line ->
  primary_fails cfg env ->
  exists e w2,
    same_but (getTodayStreamPath cfg env) w1 w2
    /\ logAction cfg env entry w
       = logToEmergency cfg env entry (add_log (ErrorWriteFailed e) w2)
    /\ emergencyMode (mem (res_world (logAction cfg env entry w))) = false
    /\ state (mem (res_world (logAction cfg env entry w))) = state (mem w).
Proof.
  intros Hlvl Hinit Hem Hsp Hrot Hseal Hline Hfail.
  pose proof (rotate_same cfg env w) as (Hrs & _ & Hre & _).
  rewrite Hrot in Hrs, Hre. simpl_world.
  destruct (primary_failure_routes cfg env entry w w1 stored line)
    as (e & w2 & Hsame & Heq); auto.
  exists e, w2. split; [exact Hsame|].
  split; [exact Heq|]. rewrite Heq.
  destruct (logToEmergency_same cfg env entry (add_log (ErrorWriteFailed e) w2))
    as (b & w' & -> & Hm & _).
  destruct Hsame as (Hm2 & _). simpl_world. rewrite Hm. simpl_world. rewrite Hm2.
  split; congruence.
Qed.

(** C8. Whenever an entry is routed to the emergency log, [logAction]
    returns true exactly when the append of the augmented entry to
    EMERGENCY_RECOVERY.jsonl succeeds, and [state.sequence] and
    [state.lastHash] are as before the call. *)
Theorem C8_emergency_append cfg env entry w :
  logLevel cfg <> off ->
  initialized (mem w) = true ->
  routed cfg env entry w ->
  exists b w',
    logAction cfg env entry w = Ok b w'
    /\ (b = true <-> emergency_append_ok cfg env entry)
    /\ sequence (state (mem w')) = sequence (state (mem w))
    /\ lastHash (state (mem w')) = lastHash (state (mem w))
    /\ (b = true -> exists line,
          JSON_stringify (Obj (emergencyEntry env entry)) = Some line /\
          fs w' !! emergencyPath cfg
          = Some (content_of w (emergencyPath cfg) +:+ line +:+ LF))
    /\ (b = false -> fs w' !! emergencyPath cfg = fs w !! emergencyPath cfg).
Proof.
  intros Hlvl Hinit Hr.
  assert (Hgo : forall w0, state (mem w0) = state (mem w) ->
            fs w0 !! emergencyPath cfg = fs w !! emergencyPath cfg ->
            logAction cfg env entry w = logToEmergency cfg env entry w0 ->
            exists b w',
              logAction cfg env entry w = Ok b w'
              /\ (b = true <-> emergency_append_ok cfg env entry)
              /\ sequence (state (mem w')) = sequence (state (mem w))
              /\ lastHash (state (mem w')) = lastHash (state (mem w))
              /\ (b = true -> exists line,
                    JSON_stringify (Obj (emergencyEntry env entry)) = Some line /\
                    fs w' !! emergencyPath cfg
                    = Some (content_of w (emergencyPath cfg) +:+ line +:+ LF))
              /\ (b = false -> fs w' !! emergencyPath cfg = fs w !! emergencyPath cfg)).
  { intros w0 Hs Hf ->.
    destruct (emergency_result cfg env entry w0) as (b & w' & -> & Hm & Hiff & Ht & Hfl).
    exists b, w'. rewrite Hm, Hs, <- Hf, <- (content_of_eq w w0 _ Hf).
    repeat split; try apply Hiff; auto. }
  destruct Hr as [Hem|[[Hem Hsp]|(Hem & Hsp & w1 & stored & line & Hrot & Hseal & Hline & Hfail)]].
  - apply (Hgo (add_log WarnEmergencyMode w)); [reflexivity..|].
    rewrite logAction_eq, Hinit, Hem. now destruct (logLevel cfg).
  - apply (Hgo (add_log ErrorLowDisk (set_mem (with_emergency true) w))); [reflexivity..|].
    rewrite logAction_eq, Hinit, Hem, Hsp. now destruct (logLevel cfg).
  - destruct (primary_failure_routes cfg env entry w w1 stored line)
      as (e & w2 & Hsame & Heq); auto.
    pose proof (rotate_same cfg env w) as (Hrs & _ & _ & _ & Hfs).
    rewrite Hrot in Hrs, Hfs. simpl_world.
    destruct Hsame as (Hm2 & _ & Hfs2).
    apply (Hgo (add_log (ErrorWriteFailed e) w2)); simpl_world.
    + now rewrite Hm2.
    + rewrite Hfs2, Hfs by apply emergency_not_stream. reflexivity.
    + exact Heq.
Qed.

Lemma C7_witness :
  let env := failing Sync stream_2030_01_01 (t0 + 1000) in
  let entry := Scenario.entry "a" "w" in
  (logLevel cfg <> off /\ initialized (mem booted) = true
   /\ emergencyMode (mem booted) = false /\ has_space cfg env = true
   /\ rotate cfg env booted = Ok tt booted
   /\ seal cfg (state (mem booted)) entry
      = Some (default [] (seal cfg (state (mem booted)) entry))
   /\ JSON_stringify (Obj (default [] (seal cfg (state (mem booted)) entry)))
      = Some (default EmptyString
                (JSON_stringify (Obj (default [] (seal cfg (state (mem booted)) entry)))))
   /\ primary_fails cfg env)
  /\ emergencyMode (mem (res_world (logAction cfg env entry booted))) = false.
Proof.
  cbv zeta.
  assert (H : logLevel cfg <> off /\ initialized (mem booted) = true
   /\ emergencyMode (mem booted) = false
   /\ has_space cfg (failing Sync stream_2030_01_01 (t0 + 1000)) = true
   /\ rotate cfg (failing Sync stream_2030_01_01 (t0 + 1000)) booted = Ok tt booted
   /\ seal cfg (state (mem booted)) (Scenario.entry "a" "w")
      = Some (default [] (seal cfg (state (mem booted)) (Scenario.entry "a" "w")))
   /\ JSON_stringify (Obj (default [] (seal cfg (state (mem booted)) (Scenario.entry "a" "w"))))
      = Some (default EmptyString
                (JSON_stringify
                   (Obj (default [] (seal cfg (state (mem booted)) (Scenario.entry "a" "w"))))))
   /\ primary_fails cfg (failing Sync stream_2030_01_01 (t0 + 1000))).
  { split; [discriminate|]. split; [reflexivity|]. split; [reflexivity|].
    split; [reflexivity|]. split; [vm_compute; reflexivity|].
    split; [vm_compute; reflexivity|]. split; [vm_compute; reflexivity|].
    right. right. left. vm_compute. reflexivity. }
  split; [exact H|].
  destruct H as (H1 & H2 & H3 & H4 & H5 & H6 & H7 & H8).
  destruct (C7_primary_failure_routes _ _ _ _ _ _ _ H1 H2 H3 H4 H5 H6 H7 H8)
    as (e & w2 & _ & _ & He & _).
  exact He.
Defined.

(** C7, as the spec states it, fails: after a failed fsync on the
    primary path the call returns true from the emergency write, yet
    emergency mode is not set, and the next append goes to the stream
    again and advances the sequence. *)
Lemma C7_counterexample :
  let w' := res_world (logAction cfg (failing Sync stream_2030_01_01 (t0 + 1000))
                         (Scenario.entry "a" "w") booted) in
  let w'' := res_world (logAction cfg (env_at (t0 + 2000)) (Scenario.entry "b" "x") w') in
  logAction cfg (failing Sync stream_2030_01_01 (t0 + 1000)) (Scenario.entry "a" "w") booted
  = Ok true w'
  /\ Exists (fun m => to_emergency m = true) (newly booted w')
  /\ emergencyMode (mem w') = false
  /\ Forall (fun m => to_emergency m = false) (newly w' w'')
  /\ sequence (state (mem w'')) = sequence (state (mem w')) + 1.
Proof.
  cbv zeta. split; [vm_compute; reflexivity|].
  split; [vm_compute; apply Exists_cons_hd; reflexivity|].
  split; [vm_compute; reflexivity|].
  split; [vm_compute; repeat constructor | vm_compute; reflexivity].
Qed.

Lemma C8_witness :
  let env := failing Sync stream_2030_01_01 (t0 + 1000) in
  (logLevel cfg <> off /\ initialized (mem booted) = true
   /\ routed cfg env (Scenario.entry "a" "w") booted)
  /\ exists w', logAction cfg env (Scenario.entry "a" "w") booted = Ok true w'
               /\ sequence (state (mem w')) = 0.
Proof.
  cbv zeta.
  assert (H : logLevel cfg <> off /\ initialized (mem booted) = true
              /\ routed cfg (failing Sync stream_2030_01_01 (t0 + 1000))
                   (Scenario.entry "a" "w") booted).
  { split; [discriminate|]. split; [reflexivity|].
    right. right. split; [reflexivity|]. split; [reflexivity|].
    exists booted, (default [] (seal cfg (state (mem booted)) (Scenario.entry "a" "w"))),
      (default EmptyString
         (JSON_stringify
            (Obj (default [] (seal cfg (state (mem booted)) (Scenario.entry "a" "w")))))).
    split; [vm_compute; reflexivity|]. split; [vm_compute; reflexivity|].
    split; [vm_compute; reflexivity|]. right. right. left. vm_compute. reflexivity. }
  split; [exact H|].
  destruct H as (H1 & H2 & H3).
  destruct (C8_emergency_append _ _ _ _ H1 H2 H3) as (b & w' & Hr & Hiff & Hs & _).
  exists w'. split; [|exact Hs].
  rewrite Hr. f_equal. apply Hiff.
  eexists. split; vm_compute; reflexivity.
Defined.

(** C6: two inputs on which [logAction] throws.  With integrity on, an
    entry that cannot be serialized makes [calculateHash] throw before
    the guarded [JSON.stringify] is reached (with integrity off the same
    entry is caught and the call returns false); and a rotation onto a
    day whose file exists throws EEXIST from the exclusive create. *)
Theorem C6_logAction_throws :
  (exists w', logAction cfg (env_at (t0 + 1000)) unserializable booted = Threw TypeError w')
  /\ (exists w',
        logAction {| logLevel := everything; storagePath := "/data";
                     enableIntegrityCheck := false |}
                  (env_at (t0 + 1000)) unserializable booted = Ok false w')
  /\ (exists w',
        logAction cfg (env_at (t0 + day + 1000)) (Scenario.entry "a" "w") next_day_exists
        = Threw (EEXIST ("/data", "action-stream-2030-01-02.jsonl")) w').
Proof.
  split; [|split]; eexists; vm_compute; reflexivity.
Qed.

End FaultFacts.

Module ResumeFacts.
Import Json Host Store Run Scenario Session Resume StoreFacts.


Lemma prop_readable v k : readable v = true -> prop v k = Some (field v k).
Proof. now destruct v. Qed.






Lemma toISOString_given ms : exists t, given (Some (Date.toISOString ms)) = Some t.
Proof.
  unfold Date.toISOString. destruct (Date.civil _) as [[y m] d].
  destruct (Date.year y); simpl; eauto.
Qed.

Lemma props_readable k l :
  Forall (fun a => readable a = true) l -> props k l = Some (map (fun a => field a k) l).
Proof.
  unfold props. induction 1 as [|a l Ha _ IH]; [reflexivity|].
  simpl. rewrite (prop_readable a k Ha). simpl. rewrite IH. reflexivity.
Qed.





End ResumeFacts.

Module StreamFacts.
Import Json Host Store Run Chain Stream.
Import TextFacts JsonRoundTrip JsonNorm StoreFacts ChainFacts.

Lemma logAction_logged_le cfg env entry w :
  (length (logged (newly w (res_world (logAction cfg env entry w)))) <= 1)%nat.
Proof.
  destruct (logAction_cases cfg env entry w)
    as [(stored & w1 & line & _ & _ & _ & _ & Hl & _)|(_ & d & Hd & Hld)].
  - rewrite (newly_app _ _ _ Hl). simpl. lia.
  - rewrite (newly_app _ _ _ Hd), Hld. simpl. lia.
Qed.

(** What a run logs as stored: the first call's part, then the rest's. *)
Lemma run_newly cfg env entry calls w :
  let w1 := res_world (logAction cfg env entry w) in
  newly w (run cfg ((env, entry) :: calls) w)
  = newly w w1 ++ newly w1 (run cfg calls w1).
Proof.
  cbv zeta. simpl run.
  destruct (run_logs cfg calls (res_world (logAction cfg env entry w))) as (d & Hd).
  destruct (run_logs cfg [(env, entry)] w) as (d0 & Hd0). simpl in Hd0.
  rewrite (newly_app _ _ _ Hd), (newly_app _ _ _ Hd0).
  apply newly_app. rewrite Hd, Hd0. now rewrite <- List.app_assoc.
Qed.

Lemma run_logged_le cfg calls w :
  (length (logged (newly w (run cfg calls w))) <= length calls)%nat.
Proof.
  revert w. induction calls as [|[env entry] calls IH]; intros w.
  - simpl. rewrite (newly_app w w []) by now rewrite List.app_nil_r. simpl. lia.
  - rewrite run_newly, logged_app, length_app. simpl length.
    pose proof (logAction_logged_le cfg env entry w).
    specialize (IH (res_world (logAction cfg env entry w))). lia.
Qed.

(** The stream file after a run in which every call appended on the
    primary path, all on the day of the file. *)
Lemma run_file cfg calls w p c :
  currentStreamPath (mem w) = Some p ->
  fs w !! p = Some c ->
  same_day cfg p calls ->
  all_logged cfg calls w ->
  let w' := run cfg calls w in
  let stored := logged (newly w w') in
  seal_all cfg (state (mem w)) (map snd calls) = Some stored
  /\ Forall (fun a => JSON_stringify (Obj a) = Some (line_of a)) stored
  /\ fs w' = <[p := c +:+ Text.unlines (map line_of stored)]> (fs w)
  /\ currentStreamPath (mem w') = Some p.
Proof.
  cbv zeta. revert w c. induction calls as [|[env entry] calls IH]; intros w c Hp Hc Hd Ha.
  - simpl. rewrite (newly_app w w []) by now rewrite List.app_nil_r. simpl.
    rewrite sapp_nil_r, insert_id by assumption. auto.
  - unfold all_logged in Ha. rewrite run_newly, logged_app in *. rewrite length_app in Ha.
    simpl length in Ha. simpl run.
    apply Forall_cons in Hd as [Hd1 Hd]. simpl in Hd1.
    pose proof (run_logged_le cfg calls (res_world (logAction cfg env entry w))) as Hle.
    destruct (logAction_cases cfg env entry w)
      as [(stored & w1 & line & Hseal & Hline & Hrot & Hok & Hl & Hst & _)|(_ & d & Hd0 & Hld)].
    + rewrite rotate_eq, Hd1, Hp, bool_decide_eq_true_2 in Hrot by reflexivity.
      injection Hrot as <-.
      rewrite (newly_app _ _ _ Hl) in *. simpl in Ha.
      rewrite Hok, Hd1 in *. simpl_world.
      set (w1 := add_log (DebugLogged stored) _) in *.
      destruct (IH w1 (c +:+ line +:+ LF)) as (IH1 & IH2 & IH3 & IH4).
      * exact Hp.
      * subst w1. unfold appended. simpl_world. unfold content_of. rewrite Hc. simpl.
        apply lookup_insert_eq.
      * exact Hd.
      * unfold all_logged. lia.
      * subst w1. simpl_world. simpl map. cbn [seal_all]. rewrite Hseal. cbn [mbind option_bind].
        rewrite IH1. cbn [mbind option_bind].
        assert (Hlo : line_of stored = line) by (unfold line_of; now rewrite Hline).
        split; [reflexivity|]. split; [|split; [|exact IH4]].
        { simpl. apply Forall_cons. split; [now rewrite Hlo | exact IH2]. }
        rewrite IH3. unfold appended. simpl_world. rewrite insert_insert_eq.
        f_equal. simpl. rewrite Hlo. unfold LF, content_of. rewrite Hc. simpl.
        rewrite !sapp_assoc. reflexivity.
    + rewrite (newly_app _ _ _ Hd0), Hld in Ha. simpl in Ha. lia.
Qed.

(** ** [initialize] in a new process *)

Lemma loadState_eq cfg env w :
  loadState cfg env w = Ok tt (set_mem (with_state (loaded cfg env w)) w).
Proof.
  unfold loadState, loaded, fs_readFile. unfold_m.
  destruct (fault env ReadFile _); [reflexivity|].
  destruct (fs w !! _) as [content|]; [|reflexivity]. simpl.
  destruct (JSON_parse content) as [v|]; [|reflexivity]. simpl.
  destruct (state_of v); reflexivity.
Qed.

(** When [initialize] returns, the instance is on today's file, which
    is as it was if it existed and holds the header line if it did not. *)
Lemma initialize_spec cfg env w w' :
  mem w = new_instance ->
  initialize cfg env w = Ok tt w' ->
  mem w' = {| state := loaded cfg env w;
              currentStreamPath := Some (getTodayStreamPath cfg env);
              emergencyMode := false; initialized := true |}
  /\ fs w' = match fs w !! getTodayStreamPath cfg env with
             | Some _ => fs w
             | None => <[getTodayStreamPath cfg env := header_line cfg env +:+ LF]> (fs w)
             end.
Proof.
  intros Hm. unfold initialize, fs_mkdir, fs_access.
  unfold mbind, M_bind, bind at 1, get at 1. rewrite Hm. cbn [initialized new_instance].
  unfold bind at 1, guard at 1.
  destruct (fault env Mkdir _); [discriminate|].
  unfold ret at 1, bind at 1, guard at 1.
  destruct (fault env Mkdir _); [discriminate|].
  unfold ret at 1, bind at 1, guard at 1.
  destruct (fault env Mkdir _); [discriminate|].
  unfold ret at 1, bind at 1. rewrite loadState_eq.
  unfold bind at 1, modify at 1, bind at 1, catch at 1.
  set (w1 := set_mem (with_path _) _).
  assert (Hw1 : currentStreamPath (mem w1) = Some (getTodayStreamPath cfg env)) by reflexivity.
  assert (Hf : fs w1 = fs w) by reflexivity.
  unfold bind at 1, guard at 1.
  destruct (fault env Access _).
  - unfold throw at 1. rewrite (writeStreamHeader_eq _ _ _ _ Hw1), Hf.
    destruct (fault env WriteFile _); [discriminate|].
    destruct (fs w !! _); [discriminate|].
    unfold_m. intros H. injection H as <-. subst w1. simpl_world. rewrite Hm. auto.
  - unfold ret at 1, bind at 1, get at 1. rewrite Hf.
    destruct (fs w !! getTodayStreamPath cfg env) eqn:E.
    + unfold_m. intros H. injection H as <-. subst w1. simpl_world. rewrite Hm. auto.
    + unfold throw at 1. rewrite (writeStreamHeader_eq _ _ _ _ Hw1), Hf, E.
      destruct (fault env WriteFile _); [discriminate|].
      unfold_m. intros H. injection H as <-. subst w1. simpl_world. rewrite Hm. auto.
Qed.

(** The instance after a run in which every call appended: only the
    stream state moved. *)
Lemma run_state cfg calls w p :
  currentStreamPath (mem w) = Some p ->
  same_day cfg p calls ->
  all_logged cfg calls w ->
  mem (run cfg calls w)
  = with_state (final cfg (state (mem w)) (logged (newly w (run cfg calls w)))) (mem w).
Proof.
  revert w. induction calls as [|[env entry] calls IH]; intros w Hp Hd Ha.
  - simpl. rewrite (newly_app w w []) by now rewrite List.app_nil_r. simpl.
    now destruct (mem w).
  - unfold all_logged in Ha. rewrite run_newly, logged_app in *. rewrite length_app in Ha.
    simpl length in Ha. simpl run.
    apply Forall_cons in Hd as [Hd1 Hd]. simpl in Hd1.
    pose proof (run_logged_le cfg calls (res_world (logAction cfg env entry w))) as Hle.
    destruct (logAction_cases cfg env entry w)
      as [(stored & w1 & line & Hseal & Hline & Hrot & Hok & Hl & Hst & _)|(_ & d & Hd0 & Hld)].
    + rewrite rotate_eq, Hd1, Hp, bool_decide_eq_true_2 in Hrot by reflexivity.
      injection Hrot as <-.
      rewrite (newly_app _ _ _ Hl) in *. simpl in Ha.
      rewrite Hok, Hd1 in *. simpl_world.
      set (w1 := add_log (DebugLogged stored) _) in *.
      rewrite (IH w1); [|exact Hp|exact Hd|unfold all_logged; lia].
      subst w1. simpl_world. unfold final. simpl. now destruct (mem w).
    + rewrite (newly_app _ _ _ Hd0), Hld in Ha. simpl in Ha. lia.
Qed.

Lemma loaded_absent cfg env w :
  fs w !! path_join (storagePath cfg) ".state.json" = None -> loaded cfg env w = fresh.
Proof. unfold loaded. intros ->. now destruct (fault env ReadFile _). Qed.

(** ** [.state.json] written by [close] and read back by [initialize] *)

Lemma state_wf st : wf (state_json st) = true.
Proof. destruct st as [n [h|]]; reflexivity. Qed.

Lemma state_text st : exists text, JSON_stringify (state_json st) = Some text.
Proof. destruct st as [n [h|]]; eexists; reflexivity. Qed.

Lemma state_round_trip st text :
  JSON_stringify (state_json st) = Some text -> JSON_parse text ≫= state_of = Some st.
Proof.
  intros H. rewrite (parse_stringify _ _ (state_wf st) H).
  destruct st as [n [h|]]; reflexivity.
Qed.

Lemma close_spec cfg env w :
  initialized (mem w) = true ->
  fault env WriteFile (path_join (storagePath cfg) ".state.json") = false ->
  exists w' text,
    close cfg env w = Ok tt w'
    /\ JSON_stringify (state_json (state (mem w))) = Some text
    /\ fs w' = <[path_join (storagePath cfg) ".state.json" := text]> (fs w).
Proof.
  intros Hinit Hf. destruct (state_text (state (mem w))) as (text & Ht).
  assert (Hc : close cfg env w
               = Ok tt (add_log DebugClosed
                          (set_mem (with_initialized false)
                             (set_fs (insert (path_join (storagePath cfg) ".state.json") text) w)))).
  { unfold close, saveState, stringify, fs_writeFile. unfold_m.
    rewrite Hinit. cbn [negb]. rewrite Ht, Hf. reflexivity. }
  eexists _, text. split; [exact Hc|]. split; [exact Ht | reflexivity].
Qed.

Lemma loaded_present cfg env w st text :
  fault env ReadFile (path_join (storagePath cfg) ".state.json") = false ->
  fs w !! path_join (storagePath cfg) ".state.json" = Some text ->
  JSON_stringify (state_json st) = Some text ->
  loaded cfg env w = st.
Proof.
  intros Hf Hfs Ht. unfold loaded. rewrite Hf, Hfs, (state_round_trip _ _ Ht). reflexivity.
Qed.

(** The stream file of a store that created it, after a run in which
    every call appended: the header line, then the stored lines. *)
Lemma fresh_stream cfg env0 calls w0 w1 :
  mem w0 = new_instance ->
  fs w0 !! getTodayStreamPath cfg env0 = None ->
  initialize cfg env0 w0 = Ok tt w1 ->
  same_day cfg (getTodayStreamPath cfg env0) calls ->
  all_logged cfg calls w1 ->
  let w2 := run cfg calls w1 in
  let stored := logged (newly w1 w2) in
  seal_all cfg (loaded cfg env0 w0) (map snd calls) = Some stored
  /\ Forall (fun a => JSON_stringify (Obj a) = Some (line_of a)) stored
  /\ fs w2 = <[getTodayStreamPath cfg env0 :=
                 (header_line cfg env0 +:+ LF) +:+ Text.unlines (map line_of stored)]> (fs w0)
  /\ currentStreamPath (mem w2) = Some (getTodayStreamPath cfg env0).
Proof.
  intros Hm Hf Hinit Hd Ha. cbv zeta.
  destruct (initialize_spec _ _ _ _ Hm Hinit) as [Hm1 Hf1]. rewrite Hf in Hf1.
  destruct (run_file cfg calls w1 (getTodayStreamPath cfg env0) (header_line cfg env0 +:+ LF))
    as (H1 & H2 & H3 & H4); try assumption.
  - now rewrite Hm1.
  - rewrite Hf1. apply lookup_insert_eq.
  - rewrite Hm1 in H1. cbn [state] in H1.
    split; [exact H1|]. split; [exact H2|]. split; [|exact H4].
    rewrite H3, Hf1. apply insert_insert_eq.
Qed.

End StreamFacts.

Module ScanFacts.
Import Json Host Store Run Chain Stream Integrity.
Import TextFacts JsonRoundTrip JsonNorm Sha256Facts StoreFacts ChainFacts StreamFacts.

(** ** The name of a stream file *)

Lemma startsWith_app p s : Text.startsWith p (p +:+ s) = true.
Proof.
  induction p as [|c p IH]; [reflexivity|]. simpl.
  destruct (ascii_dec c c); [exact IH | congruence].
Qed.

Lemma srev_app a b : String.rev (a +:+ b) = String.rev b +:+ String.rev a.
Proof.
  induction a as [|c a IH]; simpl.
  - now rewrite sapp_nil_r.
  - now rewrite !rev_cons, IH, sapp_assoc.
Qed.

Lemma endsWith_app p s : Text.endsWith p (s +:+ p) = true.
Proof. unfold Text.endsWith. rewrite srev_app. apply startsWith_app. Qed.

Lemma stream_name cfg env :
  exists name, getTodayStreamPath cfg env = (storagePath cfg, name)
    /\ Text.startsWith "action-stream-" name = true
    /\ Text.endsWith ".jsonl" name = true.
Proof.
  eexists. split; [reflexivity|]. split.
  - apply startsWith_app.
  - rewrite <- sapp_assoc. apply endsWith_app.
Qed.

Lemma state_not_stream cfg env :
  path_join (storagePath cfg) ".state.json" <> getTodayStreamPath cfg env.
Proof.
  unfold getTodayStreamPath, path_join. intros H. injection H as H. discriminate.
Qed.

(** ** [validateStream] over a directory that holds one stream file *)

Lemma getStreamFiles_single dir env name c w :
  fault env Readdir (dir, EmptyString) = false ->
  fs w = {[ (dir, name) := c ]} ->
  Text.startsWith "action-stream-" name = true ->
  Text.endsWith ".jsonl" name = true ->
  getStreamFiles dir env w = Ok [(dir, name)] w.
Proof.
  intros Hf Hfs H1 H2. unfold getStreamFiles, fs_readdir. unfold_m.
  rewrite Hf, Hfs, map_to_list_singleton. simpl.
  rewrite decide_True by reflexivity.
  rewrite filter_cons_True by (split; assumption).
  rewrite filter_nil. reflexivity.
Qed.

Lemma getStreamFiles_with_state dir env name c text w :
  fault env Readdir (dir, EmptyString) = false ->
  fs w = <[ (dir, ".state.json") := text ]> {[ (dir, name) := c ]} ->
  Text.startsWith "action-stream-" name = true ->
  Text.endsWith ".jsonl" name = true ->
  getStreamFiles dir env w = Ok [(dir, name)] w.
Proof.
  intros Hf Hfs H1 H2. unfold getStreamFiles, fs_readdir. unfold_m.
  rewrite Hf, Hfs.
  assert (Hne : (dir, ".state.json") <> (dir, name)).
  { intros E. injection E as <-. discriminate. }
  set (P := fun entry => Text.startsWith "action-stream-" entry = true
                         /\ Text.endsWith ".jsonl" entry = true).
  set (f := fun p : Path => if decide (p.1 = dir) then Some p.2 else None).
  assert (Hperm : filter P (omap f (map fst (map_to_list
                     (<[ (dir, ".state.json") := text ]> ({[ (dir, name) := c ]} : gmap Path string)))))
                  = [name]).
  { apply Permutation_singleton_r.
    rewrite map_to_list_insert by now apply lookup_singleton_ne.
    rewrite map_to_list_singleton. simpl. unfold f at 1 2. simpl.
    rewrite !decide_True by reflexivity.
    rewrite filter_cons_False by (intros [E _]; discriminate E).
    rewrite filter_cons_True by (split; assumption).
    reflexivity. }
  fold f. fold P. rewrite Hperm. reflexivity.
Qed.

Lemma validateStream_files dir env p c w :
  getStreamFiles dir env w = Ok [p] w ->
  fault env ReadFile p = false ->
  fs w !! p = Some c ->
  let s := scanLines scan0 (Text.lines c) in
  validateStream dir env w
  = Ok {| valid := bool_decide (s_errors s = []);
          totalChecked := s_totalChecked s;
          errors := s_errors s;
          firstAction := s_firstAction s;
          lastAction := s_lastAction s |} w.
Proof.
  intros Hg Hr Hfs. cbv zeta. unfold validateStream.
  unfold bind at 1. rewrite Hg.
  unfold scanFiles, scanFile, fs_readFile. unfold_m.
  rewrite Hr, Hfs. reflexivity.
Qed.

Lemma validateStream_single dir env name c w :
  fault env Readdir (dir, EmptyString) = false ->
  fault env ReadFile (dir, name) = false ->
  fs w = {[ (dir, name) := c ]} ->
  Text.startsWith "action-stream-" name = true ->
  Text.endsWith ".jsonl" name = true ->
  let s := scanLines scan0 (Text.lines c) in
  validateStream dir env w
  = Ok {| valid := bool_decide (s_errors s = []);
          totalChecked := s_totalChecked s;
          errors := s_errors s;
          firstAction := s_firstAction s;
          lastAction := s_lastAction s |} w.
Proof.
  intros Hd Hr Hfs H1 H2.
  apply (validateStream_files dir env (dir, name) c w);
    [now apply (getStreamFiles_single _ _ _ c) | exact Hr |].
  rewrite Hfs. apply lookup_singleton_eq.
Qed.

(** ** The loop of [getRecentActions] *)



(** ** Serializing an object with one more member *)

Lemma ser_members_app a b :
  ser_members (a ++ b)
  = match ser_members a, ser_members b with
    | Some x, Some y => Some (x ++ y)
    | _, _ => None
    end.
Proof.
  induction a as [|[k x] a IH]; simpl.
  - now destruct (ser_members b).
  - rewrite IH. destruct (ser x) as [sx|]; [|reflexivity].
    destruct (ser_members a) as [r|]; [|reflexivity].
    destruct (ser_members b) as [y|]; [|reflexivity].
    now destruct (is_undefined x).
Qed.

Lemma ser_snoc a content k x sx :
  JSON_stringify (Obj a) = Some content ->
  ser x = Some sx ->
  exists line, JSON_stringify (Obj (a ++ [(k, x)])) = Some line.
Proof.
  unfold JSON_stringify. rewrite !ser_Obj, ser_members_app. simpl. intros Ha Hx.
  destruct (ser_members a); [|discriminate]. rewrite Hx. eauto.
Qed.

Lemma ser_members_replace k v sv l parts :
  ser v = Some sv -> ser_members l = Some parts ->
  exists parts', ser_members (obj_replace k v l) = Some parts'.
Proof.
  intros Hv. revert parts. induction l as [|[k' x] l IH]; intros parts H; simpl in *.
  - eauto.
  - destruct (ser x) as [sx|] eqn:Ex; [|discriminate].
    destruct (ser_members l) as [r|] eqn:E; [|discriminate].
    destruct (decide (k' = k)); simpl.
    + rewrite Hv, E. eauto.
    + rewrite Ex. destruct (IH _ eq_refl) as (parts' & ->). eauto.
Qed.

Lemma obj_replace_app k v a b :
  has_key k a = true -> obj_replace k v (a ++ b) = obj_replace k v a ++ b.
Proof.
  unfold has_key. induction a as [|[k' x] a IH]; simpl; [discriminate|].
  destruct (decide (k' = k)) as [->|Hne]; [reflexivity|].
  rewrite bool_decide_eq_false_2 by assumption. simpl.
  intros H. now rewrite IH.
Qed.

Lemma obj_get_norm_members k l :
  is_undefined (obj_get k l) = false ->
  obj_get k (norm_members l) = norm (obj_get k l).
Proof.
  induction l as [|[k' x] l IH]; simpl; [discriminate|].
  destruct (decide (k' = k)) as [->|Hne].
  - intros ->. simpl. now rewrite decide_True.
  - intros H. destruct (is_undefined x); simpl; [auto|].
    rewrite decide_False by assumption. auto.
Qed.

(** ** One line of the stream under the validator *)

(** The line of an object that ends in its [_integrity], when parsed
    back and checked after a line whose hash was [s_previousHash s]. *)
Lemma scanLine_object s a0 content h p n :
  wf_object a0 = true ->
  has_key "_integrity" a0 = false ->
  JSON_stringify (Obj a0) = Some content ->
  obj_get "sequence" a0 = Num n ->
  no_marker (a0 ++ [("_integrity", integrity h p)]) ->
  let s' := scanLine s (line_of (a0 ++ [("_integrity", integrity h p)])) in
  s_totalChecked s' = s_totalChecked s + 1
  /\ s_previousHash s' = Str h
  /\ s_errors s'
     = s_errors s ++
       (if strict_eq (Str p) (expected (s_previousHash s)) then
          if bool_decide (Sha256.sha256_hex (content +:+ p) = h) then []
          else [{| sequence := Num n; type := hash_mismatch;
                   details := HashMismatch (Sha256.sha256_hex (content +:+ p)) (Str h) |}]
        else [{| sequence := Num n; type := chain_break;
                 details := ExpectedPrevious (expected (s_previousHash s)) (Str p) |}]).
Proof.
  intros Hwa Hk Hc Hn Hm. cbv zeta.
  set (b := a0 ++ [("_integrity", integrity h p)]) in *.
  assert (Hb : b = obj_set a0 "_integrity" (integrity h p))
    by (rewrite obj_set_plain by reflexivity; now rewrite Hk).
  assert (Hws : wf (Obj b) = true).
  { rewrite Hb. apply (wf_obj_set a0); auto. }
  destruct (ser_snoc a0 content "_integrity" (integrity h p) _ Hc eq_refl) as (line & Hline).
  fold b in Hline.
  assert (Hlo : line_of b = line) by (unfold line_of; now rewrite Hline).
  unfold no_marker in Hm. rewrite Hlo in *.
  pose proof (parse_stringify _ _ Hws Hline) as Hparse.
  assert (Hnorm : norm (Obj b) = Obj (norm_members a0 ++ [("_integrity", integrity h p)])).
  { subst b. rewrite norm_Obj, norm_members_app. reflexivity. }
  rewrite Hnorm in Hparse.
  assert (Hka : has_key "_integrity" (norm_members a0) = false)
    by now apply has_key_norm_members.
  assert (Hcn : JSON_stringify (Obj (norm_members a0)) = Some content).
  { rewrite <- Hc. rewrite <- norm_Obj. apply ser_norm. }
  set (action := Obj (norm_members a0 ++ [("_integrity", integrity h p)])) in *.
  assert (Hcalc : calculateHash (withoutIntegrity action) (Str p)
                  = Some (Sha256.sha256_hex (content +:+ p))).
  { unfold action, withoutIntegrity, calculateHash.
    rewrite obj_remove_app, obj_remove_absent by assumption.
    unfold obj_remove at 1. rewrite filter_cons_False by (intros H; now apply H).
    rewrite filter_nil, List.app_nil_r, Hcn. reflexivity. }
  assert (Hf : field action "_integrity" = integrity h p).
  { unfold action, field. rewrite obj_get_app_absent by assumption. reflexivity. }
  assert (Hseq : field action "sequence" = Num n).
  { unfold action, field. rewrite obj_get_app_present.
    - rewrite obj_get_norm_members by now rewrite Hn. now rewrite Hn.
    - destruct (has_key "sequence" (norm_members a0)) eqn:E; [reflexivity|].
      apply obj_get_absent in E.
      rewrite obj_get_norm_members, Hn in E by now rewrite Hn. discriminate. }
  assert (Hv : validateAction action (s_previousHash s)
               = Some (if strict_eq (Str p) (expected (s_previousHash s)) then
                         if bool_decide (Sha256.sha256_hex (content +:+ p) = h) then None
                         else Some {| sequence := Num n; type := hash_mismatch;
                                      details := HashMismatch
                                                   (Sha256.sha256_hex (content +:+ p)) (Str h) |}
                       else Some {| sequence := Num n; type := chain_break;
                                    details := ExpectedPrevious
                                                 (expected (s_previousHash s)) (Str p) |})).
  { unfold validateAction. change (prop action "_integrity") with (Some (field action "_integrity")).
    rewrite Hf, Hseq. change (truthy (integrity h p)) with true.
    cbn [negb mbind option_bind option_ret].
    change (field (integrity h p) "previous") with (Str p).
    change (field (integrity h p) "hash") with (Str h).
    destruct (strict_eq (Str p) (expected (s_previousHash s))); [|reflexivity].
    cbn [negb]. rewrite Hcalc. cbn [mbind option_bind].
    unfold strict_eq. now destruct (bool_decide _). }
  unfold scanLine. rewrite Hm, Hparse.
  change (prop action "id") with (Some (field action "id")).
  cbn [s_errors s_totalChecked s_previousHash s_firstAction s_lastAction].
  rewrite Hv, Hf. change (truthy (integrity h p)) with true.
  change (field (integrity h p) "hash") with (Str h).
  destruct (strict_eq (Str p) (expected (s_previousHash s)));
    [destruct (bool_decide _)|]; simpl; rewrite ?List.app_nil_r; auto.
Qed.

End ScanFacts.

Module SealFacts.
Import Json Host Store Run Chain Scenario Stream Integrity.
Import TextFacts JsonRoundTrip JsonNorm Sha256Facts StoreFacts ChainFacts StreamFacts ScanFacts.

Lemma seal_wf cfg st entry a :
  wf_object entry = true -> seal cfg st entry = Some a -> wf_object a = true.
Proof.
  intros Hwf H. pose proof (seal_spec _ _ _ _ H) as Hs. cbv zeta in Hs.
  destruct (enableIntegrityCheck cfg).
  - destruct Hs as (content & _ & ->).
    apply wf_obj_set; [reflexivity | reflexivity |].
    apply wf_obj_set; auto.
  - subst a. apply wf_obj_set; auto.
Qed.

Lemma seal_all_wf cfg entries st stored :
  Forall (fun e => wf_object e = true) entries ->
  seal_all cfg st entries = Some stored ->
  Forall (fun a => wf_object a = true) stored.
Proof.
  intros He. revert st stored. induction He as [|e es He _ IH]; intros st stored H; simpl in H.
  - injection H as <-. constructor.
  - destruct (seal cfg st e) as [a|] eqn:Ea; [|discriminate]. simpl in H.
    destruct (seal_all cfg (commit cfg a st) es) as [l|] eqn:El; [|discriminate].
    injection H as <-. constructor; [eapply seal_wf; eauto | eapply IH; eauto].
Qed.

Lemma seal_all_length cfg entries st stored :
  seal_all cfg st entries = Some stored -> length stored = length entries.
Proof.
  revert st stored. induction entries as [|e es IH]; intros st stored H; simpl in H.
  - now injection H as <-.
  - destruct (seal cfg st e) as [a|] eqn:Ea; [|discriminate]. simpl in H.
    destruct (seal_all cfg (commit cfg a st) es) as [l|] eqn:El; [|discriminate].
    injection H as <-. simpl. f_equal. eauto.
Qed.

(** Sealing a list in two parts. *)
Lemma seal_all_app cfg es1 es2 st l1 l2 :
  length es1 = length l1 ->
  seal_all cfg st (es1 ++ es2) = Some (l1 ++ l2) ->
  seal_all cfg st es1 = Some l1 /\ seal_all cfg (final cfg st l1) es2 = Some l2.
Proof.
  revert st l1. induction es1 as [|e es1 IH]; intros st l1 Hlen H.
  - destruct l1; [|discriminate]. auto.
  - destruct l1 as [|a l1]; [discriminate|]. simpl in *.
    destruct (seal cfg st e) as [a'|] eqn:Ea; [|discriminate]. simpl in *.
    destruct (seal_all cfg (commit cfg a' st) (es1 ++ es2)) as [l|] eqn:El; [|discriminate].
    simpl in H. injection H as -> ->.
    destruct (IH (commit cfg a st) l1 ltac:(lia) El) as [H1 H2].
    rewrite H1. auto.
Qed.

Lemma final_sequence cfg entries st stored :
  seal_all cfg st entries = Some stored ->
  Host.sequence (final cfg st stored) = Host.sequence st + Z.of_nat (length stored).
Proof.
  revert st stored. induction entries as [|e es IH]; intros st stored H; simpl in H.
  - injection H as <-. simpl. lia.
  - destruct (seal cfg st e) as [a|] eqn:Ea; [|discriminate]. simpl in H.
    destruct (seal_all cfg (commit cfg a st) es) as [l|] eqn:El; [|discriminate].
    injection H as <-. cbn [final fold_left length].
    change (fold_left _ l (commit cfg a st)) with (final cfg (commit cfg a st) l).
    rewrite (IH _ _ El), (commit_sequence _ _ _ _ Ea). lia.
Qed.

(** With integrity on, the last hash after a non-empty list of stored
    actions is a SHA-256 digest. *)
Lemma final_hash cfg entries st stored :
  enableIntegrityCheck cfg = true ->
  seal_all cfg st entries = Some stored -> stored <> [] ->
  exists x, lastHash (final cfg st stored) = Some (Sha256.sha256_hex x).
Proof.
  intros Hi. revert st stored. induction entries as [|e es IH]; intros st stored H Hne; simpl in H.
  - injection H as <-. congruence.
  - destruct (seal cfg st e) as [a|] eqn:Ea; [|discriminate]. simpl in H.
    destruct (seal_all cfg (commit cfg a st) es) as [l|] eqn:El; [|discriminate].
    injection H as <-. cbn [final fold_left].
    destruct l as [|b l].
    + destruct (seal_integrity _ _ _ _ Hi Ea) as (content & _ & _ & Hc). simpl. eauto.
    + apply (IH _ _ El). discriminate.
Qed.

(** ** The lines of a stream file *)

Lemma header_no_nl cfg env :
  Text.all Text.not_nl (header_line cfg env) = true /\ Text.blank (header_line cfg env) = false.
Proof.
  split; [eapply ser_no_nl | eapply ser_not_blank]; apply header_ser.
Qed.

Lemma stream_lines cfg env stored :
  Forall (fun a => JSON_stringify (Obj a) = Some (line_of a)) stored ->
  Text.lines ((header_line cfg env +:+ LF) +:+ Text.unlines (map line_of stored))
  = header_line cfg env :: map line_of stored.
Proof.
  intros H. rewrite sapp_assoc.
  change (Text.lines (Text.unlines (header_line cfg env :: map line_of stored))
          = header_line cfg env :: map line_of stored).
  apply lines_unlines. constructor; [apply header_no_nl|].
  apply Forall_map. eapply Forall_impl; [exact H|]. intros a Ha. simpl.
  split; [eapply ser_no_nl | eapply ser_not_blank]; exact Ha.
Qed.

Lemma header_parses cfg env : JSON_parse (header_line cfg env) = Some (header cfg env).
Proof.
  apply (parse_stringify (header cfg env)); [reflexivity | apply header_ser].
Qed.

Lemma lines_parse stored :
  Forall (fun a => JSON_stringify (Obj a) = Some (line_of a)) stored ->
  Forall (fun a => wf_object a = true) stored ->
  omap JSON_parse (map line_of stored) = map (fun a => norm (Obj a)) stored.
Proof.
  induction 1 as [|a l Ha _ IH]; intros Hw; [reflexivity|].
  apply Forall_cons in Hw as [Hw1 Hw2].
  change (omap JSON_parse (map line_of (a :: l)))
    with (match JSON_parse (line_of a) with
          | Some v => v :: omap JSON_parse (map line_of l)
          | None => omap JSON_parse (map line_of l)
          end).
  rewrite (parse_stringify (Obj a) _ Hw1 Ha), IH by assumption. reflexivity.
Qed.

(** ** Stored lines under the validator *)

Lemma header_marked cfg env : Text.includes headerMarker (header_line cfg env) = true.
Proof. reflexivity. Qed.

Lemma scanLine_header cfg env s : scanLine s (header_line cfg env) = s.
Proof. unfold scanLine. now rewrite header_marked. Qed.

Lemma expected_hash x : expected (Str (Sha256.sha256_hex x)) = Str (Sha256.sha256_hex x).
Proof.
  unfold expected. destruct (sha256_hex_first x) as (c & t & -> & _). reflexivity.
Qed.

(** [no_marker] over a list, as a check that runs. *)
Lemma no_marker_check l :
  forallb (fun a => negb (Text.includes headerMarker (line_of a))) l = true ->
  Forall no_marker l.
Proof.
  induction l as [|a l IH]; simpl; [constructor|].
  intros H. apply andb_prop in H as [H1 H2]. constructor; [|auto].
  unfold no_marker. now destruct (Text.includes _ _).
Qed.

(** A stored line, checked after a line whose hash was
    [s_previousHash s]: counted, its hash carried on to the next line, and
    reported as a chain break when its [previous] is not that hash. *)
Lemma scanLine_seal cfg st entry a s :
  enableIntegrityCheck cfg = true ->
  entry_ok entry ->
  seal cfg st entry = Some a ->
  no_marker a ->
  let s' := scanLine s (line_of a) in
  let p := or_genesis (lastHash st) in
  s_totalChecked s' = s_totalChecked s + 1
  /\ expected (s_previousHash s') = Str (or_genesis (lastHash (commit cfg a st)))
  /\ s_errors s'
     = s_errors s ++
       (if strict_eq (Str p) (expected (s_previousHash s)) then []
        else [{| sequence := Num (Host.sequence st + 1); type := chain_break;
                 details := ExpectedPrevious (expected (s_previousHash s)) (Str p) |}]).
Proof.
  intros Hi [Hwf Hk] Hseal Hm. cbv zeta.
  destruct (seal_shape _ _ _ _ Hi Hk Hseal) as (content & Hc & Ha & Hst). cbv zeta in *.
  destruct (seal_integrity _ _ _ _ Hi Hseal) as (content' & Hc' & _ & Hl).
  rewrite Hc in Hc'. injection Hc' as <-.
  subst a.
  assert (Hw0 : wf_object (obj_set entry "sequence" (Num (Host.sequence st + 1))) = true)
    by (apply wf_obj_set; auto).
  assert (Hs0 : obj_get "sequence" (obj_set entry "sequence" (Num (Host.sequence st + 1)))
                = Num (Host.sequence st + 1))
    by now apply obj_get_set_eq.
  destruct (scanLine_object s _ content _ _ _ Hw0 Ha Hc Hs0 Hm) as (H1 & H2 & H3).
  split; [exact H1|]. split.
  - rewrite H2, Hl, or_genesis_hash. apply expected_hash.
  - rewrite H3. rewrite bool_decide_eq_true_2 by reflexivity. reflexivity.
Qed.

(** A run of stored lines that continues the chain: all counted, no
    error. *)
Lemma scanLines_sealed cfg entries st stored s :
  enableIntegrityCheck cfg = true ->
  Forall entry_ok entries ->
  seal_all cfg st entries = Some stored ->
  Forall no_marker stored ->
  expected (s_previousHash s) = Str (or_genesis (lastHash st)) ->
  let s' := scanLines s (map line_of stored) in
  s_errors s' = s_errors s
  /\ s_totalChecked s' = s_totalChecked s + Z.of_nat (length stored)
  /\ expected (s_previousHash s') = Str (or_genesis (lastHash (final cfg st stored))).
Proof.
  intros Hi He. cbv zeta. revert st stored s.
  induction He as [|e es He _ IH]; intros st stored s H Hm Hp; simpl in H.
  - injection H as <-. simpl. split; [reflexivity|]. split; [lia | exact Hp].
  - destruct (seal cfg st e) as [a|] eqn:Ea; [|discriminate]. simpl in H.
    destruct (seal_all cfg (commit cfg a st) es) as [l|] eqn:El; [|discriminate].
    injection H as <-. apply Forall_cons in Hm as [Hm1 Hm2].
    destruct (scanLine_seal _ _ _ _ s Hi He Ea Hm1) as (H1 & H2 & H3). cbv zeta in *.
    rewrite Hp in H3. unfold strict_eq in H3. rewrite bool_decide_eq_true_2 in H3 by reflexivity.
    rewrite List.app_nil_r in H3.
    cbn [map scanLines fold_left final length].
    destruct (IH _ _ (scanLine s (line_of a)) El Hm2 H2) as (I1 & I2 & I3).
    unfold scanLines, final in *. rewrite I1, I2, I3, H1, H3.
    split; [reflexivity|]. split; [lia | reflexivity].
Qed.

(** The stored action whose description was replaced: the same members
    but for that one, and the [_integrity] it was stored with. *)
Lemma tamper_shape cfg st entry a :
  enableIntegrityCheck cfg = true ->
  entry_ok entry ->
  seal cfg st entry = Some a ->
  has_key "description" a = true ->
  exists a1 content1 x,
    let h := Sha256.sha256_hex x in
    let p := or_genesis (lastHash st) in
    tamper a = a1 ++ [("_integrity", integrity h p)]
    /\ wf_object a1 = true
    /\ has_key "_integrity" a1 = false
    /\ obj_get "sequence" a1 = Num (Host.sequence st + 1)
    /\ JSON_stringify (Obj a1) = Some content1
    /\ obj_remove "_integrity" (tamper a) = a1
    /\ obj_get "_integrity" a = integrity h p
    /\ lastHash (commit cfg a st) = Some h.
Proof.
  intros Hi [Hwf Hk] Hseal Hd.
  destruct (seal_shape _ _ _ _ Hi Hk Hseal) as (content & Hc & Ha & Hst).
  cbv zeta in *.
  destruct (seal_integrity _ _ _ _ Hi Hseal) as (content' & Hc' & Hg & Hl).
  rewrite Hc in Hc'. injection Hc' as <-.
  set (a0 := obj_set entry "sequence" (Num (Host.sequence st + 1))) in *.
  set (p := or_genesis (lastHash st)) in *.
  assert (Hd0 : has_key "description" a0 = true).
  { rewrite Hst, has_key_app in Hd. apply orb_true_iff in Hd as [Hd|Hd]; [exact Hd|].
    discriminate. }
  set (a1 := obj_set a0 "description" (Str "tampered")).
  assert (Ht : tamper a
               = a1 ++ [("_integrity", integrity (Sha256.sha256_hex (content +:+ p)) p)]).
  { unfold tamper, a1. rewrite !obj_set_plain by reflexivity.
    rewrite Hd, Hd0, Hst. now apply obj_replace_app. }
  assert (Hw1 : wf_object a1 = true).
  { apply wf_obj_set; [reflexivity | reflexivity |]. apply wf_obj_set; auto. }
  assert (Hk1 : has_key "_integrity" a1 = false).
  { unfold a1. rewrite has_key_set_ne by (reflexivity || discriminate). exact Ha. }
  assert (Hs1 : obj_get "sequence" a1 = Num (Host.sequence st + 1)).
  { unfold a1. rewrite obj_get_set_ne by (reflexivity || discriminate).
    now apply obj_get_set_eq. }
  assert (Hc1 : exists content1, JSON_stringify (Obj a1) = Some content1).
  { unfold a1. rewrite obj_set_plain, Hd0 by reflexivity.
    unfold JSON_stringify in *. rewrite ser_Obj in *.
    destruct (ser_members a0) as [parts|] eqn:E; [|discriminate].
    destruct (ser_members_replace "description" (Str "tampered") _ a0 parts eq_refl E)
      as (parts' & ->). eauto. }
  destruct Hc1 as (content1 & Hc1).
  assert (Hr : obj_remove "_integrity" (tamper a) = a1).
  { rewrite Ht, obj_remove_app, obj_remove_absent by assumption.
    unfold obj_remove at 1. rewrite filter_cons_False by (intros H; now apply H).
    now rewrite filter_nil, List.app_nil_r. }
  exists a1, content1, (content +:+ p). cbv zeta. auto 10.
Qed.

(** The tampered line is one line of JSON text. *)
Lemma tamper_line cfg st entry a :
  enableIntegrityCheck cfg = true ->
  entry_ok entry ->
  seal cfg st entry = Some a ->
  has_key "description" a = true ->
  JSON_stringify (Obj (tamper a)) = Some (line_of (tamper a)).
Proof.
  intros Hi He Hseal Hd.
  destruct (tamper_shape _ _ _ _ Hi He Hseal Hd)
    as (a1 & content1 & x & Ht & _ & _ & _ & Hc1 & _). cbv zeta in *.
  rewrite Ht.
  destruct (ser_snoc a1 content1 "_integrity"
              (integrity (Sha256.sha256_hex x) (or_genesis (lastHash st))) _ Hc1 eq_refl)
    as (line & Hline).
  unfold line_of. now rewrite Hline.
Qed.

(** The line of a stored action whose description was replaced: the
    chain goes on through its stored hash, and the recomputed hash is
    compared with it. *)
Lemma scanLine_tamper cfg st entry a s :
  enableIntegrityCheck cfg = true ->
  entry_ok entry ->
  seal cfg st entry = Some a ->
  has_key "description" a = true ->
  no_marker (tamper a) ->
  expected (s_previousHash s) = Str (or_genesis (lastHash st)) ->
  exists h p,
    obj_get "_integrity" a = integrity h p /\
    let s' := scanLine s (line_of (tamper a)) in
    let recomputed :=
      Sha256.sha256_hex (line_of (obj_remove "_integrity" (tamper a)) +:+ p) in
    s_totalChecked s' = s_totalChecked s + 1
    /\ expected (s_previousHash s') = Str (or_genesis (lastHash (commit cfg a st)))
    /\ s_errors s'
       = s_errors s ++
         (if bool_decide (recomputed = h) then []
          else [{| sequence := Num (Host.sequence st + 1); type := hash_mismatch;
                   details := HashMismatch recomputed (Str h) |}]).
Proof.
  intros Hi He Hseal Hd Hm Hp.
  destruct (tamper_shape _ _ _ _ Hi He Hseal Hd)
    as (a1 & content1 & x & Ht & Hw1 & Hk1 & Hs1 & Hc1 & Hr & Hg & Hl). cbv zeta in *.
  exists (Sha256.sha256_hex x), (or_genesis (lastHash st)). split; [exact Hg|].
  rewrite Hr. replace (line_of a1) with content1 by (unfold line_of; now rewrite Hc1).
  rewrite Ht in Hm |- *.
  destruct (scanLine_object s a1 content1 _ _ _ Hw1 Hk1 Hc1 Hs1 Hm) as (H1 & H2 & H3).
  split; [exact H1|]. split.
  - rewrite H2, Hl, or_genesis_hash. apply expected_hash.
  - rewrite H3, Hp. unfold strict_eq. rewrite bool_decide_eq_true_2 by reflexivity.
    reflexivity.
Qed.

(** ** The process is killed and a new one takes over *)

(** The stream file after a crash, a restart on the same day and one
    more append: the lines written before the crash, then a line sealed
    from the state a new process starts with. *)
Lemma recovered_stream cfg env0 calls env1 env2 entry w0 w1 w3 w4 a :
  mem w0 = new_instance ->
  fs w0 = ∅ ->
  initialize cfg env0 w0 = Ok tt w1 ->
  same_day cfg (getTodayStreamPath cfg env0) calls ->
  all_logged cfg calls w1 ->
  let w2 := run cfg calls w1 in
  let stored := logged (newly w1 w2) in
  initialize cfg env1 (restart w2) = Ok tt w3 ->
  getTodayStreamPath cfg env1 = getTodayStreamPath cfg env0 ->
  logAction cfg env2 entry w3 = Ok true w4 ->
  newly w3 w4 = [DebugLogged a] ->
  getTodayStreamPath cfg env2 = getTodayStreamPath cfg env0 ->
  seal_all cfg fresh (map snd calls) = Some stored
  /\ seal cfg fresh entry = Some a
  /\ Forall (fun a => JSON_stringify (Obj a) = Some (line_of a)) (stored ++ [a])
  /\ fs w4 = {[ getTodayStreamPath cfg env0 :=
                  (header_line cfg env0 +:+ LF)
                  +:+ Text.unlines (map line_of (stored ++ [a])) ]}.
Proof.
  intros Hm Hf Hinit Hd Ha. cbv zeta. intros Hinit1 Hd1 Hlog Hnew Hd2.
  assert (Hf0 : fs w0 !! getTodayStreamPath cfg env0 = None) by (rewrite Hf; apply lookup_empty).
  destruct (fresh_stream _ _ _ _ _ Hm Hf0 Hinit Hd Ha) as (Hs & Hl & Hfs & _).
  rewrite loaded_absent in Hs by (rewrite Hf; apply lookup_empty).
  set (w2 := run cfg calls w1) in *. set (stored := logged (newly w1 w2)) in *.
  set (p := getTodayStreamPath cfg env0) in *.
  destruct (initialize_spec cfg env1 (restart w2) w3 eq_refl Hinit1) as [Hm3 Hf3].
  rewrite Hd1 in Hm3, Hf3. cbn [restart fs] in Hf3.
  rewrite Hfs, lookup_insert_eq in Hf3. rewrite Hf in Hf3, Hfs.
  rewrite loaded_absent in Hm3.
  2:{ cbn [restart fs]. rewrite Hfs, lookup_insert_ne; [apply lookup_empty|].
      intros E. symmetry in E. revert E. apply state_not_stream. }
  assert (Hone : all_logged cfg [(env2, entry)] w3).
  { unfold all_logged. cbn [run]. rewrite Hlog. cbn [res_world]. now rewrite Hnew. }
  destruct (run_file cfg [(env2, entry)] w3 p
              ((header_line cfg env0 +:+ LF) +:+ Text.unlines (map line_of stored)))
    as (H1 & H2 & H3 & _).
  - now rewrite Hm3.
  - rewrite Hf3. apply lookup_insert_eq.
  - constructor; [exact Hd2 | constructor].
  - exact Hone.
  - cbn [run] in *. rewrite Hlog in *. cbn [res_world] in *. rewrite Hnew in *.
    rewrite Hm3 in H1. cbn [state map snd logged omap] in H1.
    change (omap _ [DebugLogged a]) with [a] in *.
    cbn [seal_all] in H1.
    destruct (seal cfg fresh entry) as [a'|] eqn:Ea; [|discriminate].
    injection H1 as ->.
    split; [exact Hs|]. split; [reflexivity|]. split; [apply Forall_app; split; [exact Hl | exact H2]|].
    rewrite H3, Hf3, insert_insert_eq, map_app, unlines_app, sapp_assoc.
    reflexivity.
Qed.

End SealFacts.

Module StreamClaims.
Import Json Host Store Run Chain Scenario Stream Integrity.
Import TextFacts JsonRoundTrip JsonNorm Sha256Facts StoreFacts ChainFacts.
Import StreamFacts ScanFacts SealFacts.



(** ** The process is killed and a new one takes over *)

(** C4. Crash recovery, as the code has it: [close] alone writes
    [.state.json], so a process killed after N >= 1 integrity-enabled
    appends leaves no state behind; the writer re-initialized over the same
    directory starts again at sequence 0 and a null [lastHash], and the
    entry it appends is numbered 1 and chained to genesis.  [validateStream]
    then checks N + 1 lines and reports the new one as a chain break, so
    [valid] is false. *)
Theorem C4_crash_recovery cfg env0 calls env1 env2 entry env3 w0 w1 w3 w4 a :
  enableIntegrityCheck cfg = true ->
  mem w0 = new_instance ->
  fs w0 = ∅ ->
  initialize cfg env0 w0 = Ok tt w1 ->
  calls <> [] ->
  same_day cfg (getTodayStreamPath cfg env0) calls ->
  all_logged cfg calls w1 ->
  Forall (fun c => entry_ok c.2) calls ->
  Forall no_marker (logged (newly w1 (run cfg calls w1))) ->
  initialize cfg env1 (restart (run cfg calls w1)) = Ok tt w3 ->
  getTodayStreamPath cfg env1 = getTodayStreamPath cfg env0 ->
  logAction cfg env2 entry w3 = Ok true w4 ->
  newly w3 w4 = [DebugLogged a] ->
  getTodayStreamPath cfg env2 = getTodayStreamPath cfg env0 ->
  entry_ok entry ->
  no_marker a ->
  fault env3 Readdir (storagePath cfg, EmptyString) = false ->
  fault env3 ReadFile (getTodayStreamPath cfg env0) = false ->
  exists report h,
    validateStream (storagePath cfg) env3 w4 = Ok report w4
    /\ totalChecked report = Z.of_nat (length calls) + 1
    /\ valid report = false
    /\ errors report
       = [{| sequence := Num 1; type := chain_break;
             details := ExpectedPrevious (Str h) (Str "genesis") |}]
    /\ obj_get "sequence" a = Num 1
    /\ previous_of a = Str "genesis".
Proof.
  intros Hi Hm Hf Hinit Hne Hd Ha Hok Hmk Hinit1 Hd1 Hlog Hnew Hd2 Hoke Hmka Hrd Hrf.
  destruct (recovered_stream _ _ _ _ _ _ _ _ _ _ _ Hm Hf Hinit Hd Ha Hinit1 Hd1 Hlog Hnew Hd2)
    as (Hs & Hsa & Hl & Hfs).
  set (stored := logged (newly w1 (run cfg calls w1))) in *.
  destruct (stream_name cfg env0) as (name & Hp & Hn1 & Hn2).
  rewrite Hp in Hfs, Hrf.
  pose proof (validateStream_single _ _ _ _ _ Hrd Hrf Hfs Hn1 Hn2) as Hv. cbv zeta in Hv.
  rewrite (stream_lines _ _ _ Hl) in Hv.
  assert (Hlen : length stored = length calls) by exact Ha.
  assert (Hst : stored <> []).
  { intros E. rewrite E in Hlen. destruct calls; [congruence | discriminate]. }
  destruct (final_hash _ _ _ _ Hi Hs Hst) as (x & Hx).
  destruct (scanLines_sealed cfg (map snd calls) fresh stored scan0 Hi
              ltac:(now apply Forall_map) Hs Hmk eq_refl) as (E1 & E2 & E3).
  cbv zeta in *. rewrite Hx, or_genesis_hash in E3.
  destruct (scanLine_seal cfg fresh entry a (scanLines scan0 (map line_of stored))
              Hi Hoke Hsa Hmka) as (F1 & _ & F3).
  cbv zeta in *. rewrite E1, E2, E3 in *.
  assert (Hg : strict_eq (Str (or_genesis (lastHash fresh))) (Str (Sha256.sha256_hex x)) = false).
  { apply bool_decide_eq_false. intros E. symmetry in E. revert E. apply sha256_hex_not_genesis. }
  rewrite Hg in F3.
  assert (Hscan : scanLines scan0 (header_line cfg env0 :: map line_of (stored ++ [a]))
                  = scanLine (scanLines scan0 (map line_of stored)) (line_of a)).
  { unfold scanLines. cbn [fold_left]. rewrite scanLine_header, map_app, fold_left_app.
    reflexivity. }
  rewrite Hscan in Hv. rewrite F1, F3 in Hv.
  eexists _, (Sha256.sha256_hex x). split; [exact Hv|].
  cbn [totalChecked valid errors s_totalChecked scan0 s_errors app].
  split; [lia|]. split; [reflexivity|]. split; [reflexivity|].
  split.
  - eapply (seal_sequence cfg fresh). exact Hsa.
  - destruct (seal_integrity _ _ _ _ Hi Hsa) as (content & _ & Hg' & _).
    unfold previous_of. rewrite Hg'. reflexivity.
Qed.

Lemma C4_witness :
  let w2 := run cfg two_calls booted in
  let w3 := res_world (initialize cfg (env_at (t0 + 2500)) (restart w2)) in
  let a := default [] (head (logged (newly w3 recovered))) in
  (enableIntegrityCheck cfg = true
   /\ mem empty_disk = new_instance
   /\ fs empty_disk = ∅
   /\ initialize cfg (env_at t0) empty_disk = Ok tt booted
   /\ two_calls <> []
   /\ same_day cfg (getTodayStreamPath cfg (env_at t0)) two_calls
   /\ all_logged cfg two_calls booted
   /\ Forall (fun c => entry_ok c.2) two_calls
   /\ Forall no_marker (logged (newly booted w2))
   /\ initialize cfg (env_at (t0 + 2500)) (restart w2) = Ok tt w3
   /\ getTodayStreamPath cfg (env_at (t0 + 2500)) = getTodayStreamPath cfg (env_at t0)
   /\ logAction cfg (env_at (t0 + 3000)) (Scenario.entry "c" "y") w3 = Ok true recovered
   /\ newly w3 recovered = [DebugLogged a]
   /\ getTodayStreamPath cfg (env_at (t0 + 3000)) = getTodayStreamPath cfg (env_at t0)
   /\ entry_ok (Scenario.entry "c" "y")
   /\ no_marker a
   /\ fault (env_at (t0 + 4000)) Readdir (storagePath cfg, EmptyString) = false
   /\ fault (env_at (t0 + 4000)) ReadFile (getTodayStreamPath cfg (env_at t0)) = false)
  /\ exists report,
       validateStream (storagePath cfg) (env_at (t0 + 4000)) recovered = Ok report recovered
       /\ totalChecked report = 3
       /\ valid report = false.
Proof.
  cbv zeta.
  match goal with |- ?P /\ _ => assert (H : P) end.
  { split; [reflexivity|]. split; [reflexivity|]. split; [reflexivity|].
    split; [vm_compute; reflexivity|]. split; [discriminate|].
    split; [repeat constructor|]. split; [vm_compute; reflexivity|].
    split; [repeat constructor|].
    split; [apply no_marker_check; vm_compute; reflexivity|].
    split; [vm_compute; reflexivity|]. split; [reflexivity|].
    split; [vm_compute; reflexivity|]. split; [vm_compute; reflexivity|].
    split; [reflexivity|]. split; [split; reflexivity|].
    split; [vm_compute; reflexivity|]. split; reflexivity. }
  split; [exact H|].
  destruct H as (H1 & H2 & H3 & H4 & H5 & H6 & H7 & H8 & H9 & H10 & H11 & H12 & H13 & H14
                 & H15 & H16 & H17 & H18).
  destruct (C4_crash_recovery _ _ _ _ _ _ _ _ _ _ _ _
              H1 H2 H3 H4 H5 H6 H7 H8 H9 H10 H11 H12 H13 H14 H15 H16 H17 H18)
    as (report & h & Hv & Ht & Hval & _).
  exists report. split; [exact Hv|]. split; [exact Ht | exact Hval].
Defined.

(** The claim as the specification has it fails on the crash scenario:
    two appends, a kill, a new process, a third append; the validator
    checks three lines and the stream is not valid. *)
Lemma C4_counterexample :
  exists report,
    validateStream (storagePath cfg) (env_at (t0 + 4000)) recovered = Ok report recovered
    /\ totalChecked report = 3
    /\ valid report = false
    /\ map (fun e => (sequence e, type e)) (errors report) = [(Num 1, chain_break)].
Proof. vm_compute. eexists. repeat split. Qed.

(** ** A line of the stream is edited *)

(** C5. Tamper report, as the code has it: after a run of
    integrity-enabled appends, a stored line whose [description] was
    replaced (its [_integrity] left alone) is reported as a hash mismatch at
    its own sequence number, unless the replaced content happens to hash to
    the stored value; and that is the only error.  The validator carries
    the stored hash of each line on to the next, never the recomputed one,
    so the line after the edited one still continues the chain and no chain
    break is reported. *)
Theorem C5_tamper_report cfg env0 calls env w0 w1 l1 a l2 :
  enableIntegrityCheck cfg = true ->
  mem w0 = new_instance ->
  fs w0 = ∅ ->
  initialize cfg env0 w0 = Ok tt w1 ->
  same_day cfg (getTodayStreamPath cfg env0) calls ->
  all_logged cfg calls w1 ->
  Forall (fun c => entry_ok c.2) calls ->
  logged (newly w1 (run cfg calls w1)) = l1 ++ a :: l2 ->
  has_key "description" a = true ->
  Forall no_marker (l1 ++ tamper a :: l2) ->
  fault env Readdir (storagePath cfg, EmptyString) = false ->
  fault env ReadFile (getTodayStreamPath cfg env0) = false ->
  let wt := tampered (getTodayStreamPath cfg env0) (header_line cfg env0) l1 a l2
              (run cfg calls w1) in
  exists report h p,
    obj_get "_integrity" a = integrity h p
    /\ validateStream (storagePath cfg) env wt = Ok report wt
    /\ totalChecked report = Z.of_nat (length calls)
    /\ (let recomputed :=
          Sha256.sha256_hex (line_of (obj_remove "_integrity" (tamper a)) +:+ p) in
        errors report
        = if bool_decide (recomputed = h) then []
          else [{| sequence := Num (Z.of_nat (length l1) + 1); type := hash_mismatch;
                   details := HashMismatch recomputed (Str h) |}])
    /\ Forall (fun e => type e <> chain_break) (errors report).
Proof.
  intros Hi Hm Hf Hinit Hd Ha Hok Hst Hdesc Hmk Hrd Hrf. cbv zeta.
  assert (Hf0 : fs w0 !! getTodayStreamPath cfg env0 = None) by (rewrite Hf; apply lookup_empty).
  destruct (fresh_stream _ _ _ _ _ Hm Hf0 Hinit Hd Ha) as (Hs & Hl & Hfs & _).
  rewrite loaded_absent in Hs by (rewrite Hf; apply lookup_empty).
  unfold all_logged in Ha. rewrite Hst in Hs, Hl, Ha.
  (* the entries of the three parts *)
  set (es := map snd calls) in *.
  assert (Hes : Forall entry_ok es) by now apply Forall_map.
  assert (Hlen : length es = length (l1 ++ a :: l2)) by (unfold es; now rewrite length_map).
  rewrite length_app in Hlen. cbn [length] in Hlen.
  rewrite <- (take_drop (length l1) es) in Hs, Hes.
  apply Forall_app in Hes as [Hes1 Hes2].
  assert (Htake : length (take (length l1) es) = length l1) by (rewrite length_take; lia).
  destruct (seal_all_app _ _ _ _ _ _ Htake Hs) as [Hs1 Hs2].
  destruct (drop (length l1) es) as [|e es2]; [discriminate|].
  apply Forall_cons in Hes2 as [He Hes2].
  cbn [seal_all] in Hs2.
  destruct (seal cfg (final cfg fresh l1) e) as [a'|] eqn:Ea; [|discriminate].
  cbn [mbind option_bind] in Hs2.
  destruct (seal_all cfg (commit cfg a' (final cfg fresh l1)) es2) as [l|] eqn:El; [|discriminate].
  injection Hs2 as -> ->.
  apply Forall_app in Hmk as [Hmk1 Hmk2]. apply Forall_cons in Hmk2 as [Hmka Hmk2].
  apply Forall_app in Hl as [Hl1 Hl2]. apply Forall_cons in Hl2 as [_ Hl2].
  (* the file and its lines *)
  destruct (stream_name cfg env0) as (name & Hp & Hn1 & Hn2).
  set (wt := tampered _ _ _ _ _ _).
  assert (Hft : fs wt = {[ (storagePath cfg, name) :=
                   Text.unlines (header_line cfg env0 :: map line_of (l1 ++ tamper a :: l2)) ]}).
  { unfold wt, tampered. cbn [set_fs fs]. rewrite Hfs, Hf, insert_insert_eq, Hp. reflexivity. }
  rewrite Hp in Hrf.
  pose proof (validateStream_single _ _ _ _ _ Hrd Hrf Hft Hn1 Hn2) as Hv. cbv zeta in Hv.
  rewrite lines_unlines in Hv.
  2:{ constructor; [apply header_no_nl|]. apply Forall_map.
      assert (Hser : forall b, JSON_stringify (Obj b) = Some (line_of b) ->
                Text.all Text.not_nl (line_of b) = true /\ Text.blank (line_of b) = false).
      { intros b Hb. split; [eapply ser_no_nl | eapply ser_not_blank]; exact Hb. }
      apply Forall_app. split; [eapply Forall_impl; [exact Hl1 | exact Hser]|].
      constructor; [|eapply Forall_impl; [exact Hl2 | exact Hser]].
      apply Hser. eapply tamper_line; eauto. }
  (* the three parts under the validator *)
  destruct (scanLines_sealed cfg _ fresh l1 scan0 Hi Hes1 Hs1 Hmk1 eq_refl) as (E1 & E2 & E3).
  cbv zeta in *.
  destruct (scanLine_tamper cfg _ e a (scanLines scan0 (map line_of l1)) Hi He Ea Hdesc Hmka E3)
    as (h & p & Hg & F1 & F2 & F3). cbv zeta in *.
  destruct (scanLines_sealed cfg _ _ l2
              (scanLine (scanLines scan0 (map line_of l1)) (line_of (tamper a)))
              Hi Hes2 El Hmk2 F2) as (G1 & G2 & _).
  cbv zeta in *.
  assert (Hscan : scanLines scan0
                    (header_line cfg env0 :: map line_of (l1 ++ tamper a :: l2))
                  = scanLines (scanLine (scanLines scan0 (map line_of l1)) (line_of (tamper a)))
                      (map line_of l2)).
  { unfold scanLines. cbn [fold_left]. rewrite scanLine_header, map_app, fold_left_app.
    reflexivity. }
  rewrite Hscan, G1, G2, F1, F3, E1, E2 in Hv.
  rewrite (final_sequence _ _ _ _ Hs1) in Hv.
  eexists _, h, p. split; [exact Hg|]. split; [exact Hv|].
  cbn [totalChecked errors valid scan0 s_errors s_totalChecked app].
  split; [rewrite <- Ha, length_app; cbn [length]; lia|].
  cbn [Host.sequence fresh]. rewrite Z.add_0_l.
  split; [reflexivity|].
  destruct (bool_decide (Sha256.sha256_hex _ = h)); [constructor|].
  constructor; [intros E; discriminate E | constructor].
Qed.

Lemma C5_witness :
  let stored := logged (newly booted three_logged) in
  let l1 := take 1 stored in
  let a := default [] (stored !! 1%nat) in
  let l2 := drop 2 stored in
  (enableIntegrityCheck cfg = true
   /\ mem empty_disk = new_instance
   /\ fs empty_disk = ∅
   /\ initialize cfg (env_at t0) empty_disk = Ok tt booted
   /\ same_day cfg (getTodayStreamPath cfg (env_at t0)) three_calls
   /\ all_logged cfg three_calls booted
   /\ Forall (fun c => entry_ok c.2) three_calls
   /\ logged (newly booted (run cfg three_calls booted)) = l1 ++ a :: l2
   /\ has_key "description" a = true
   /\ Forall no_marker (l1 ++ tamper a :: l2)
   /\ fault (env_at (t0 + 4000)) Readdir (storagePath cfg, EmptyString) = false
   /\ fault (env_at (t0 + 4000)) ReadFile (getTodayStreamPath cfg (env_at t0)) = false)
  /\ exists report wt,
       validateStream (storagePath cfg) (env_at (t0 + 4000)) wt = Ok report wt
       /\ totalChecked report = 3
       /\ Forall (fun e => type e <> chain_break) (errors report).
Proof.
  cbv zeta.
  match goal with |- ?P /\ _ => assert (H : P) end.
  { split; [reflexivity|]. split; [reflexivity|]. split; [reflexivity|].
    split; [vm_compute; reflexivity|]. split; [repeat constructor|].
    split; [vm_compute; reflexivity|]. split; [repeat constructor|].
    split; [vm_compute; reflexivity|]. split; [vm_compute; reflexivity|].
    split; [apply no_marker_check; vm_compute; reflexivity|].
    split; reflexivity. }
  split; [exact H|].
  destruct H as (H1 & H2 & H3 & H4 & H5 & H6 & H7 & H8 & H9 & H10 & H11 & H12).
  destruct (C5_tamper_report _ _ _ _ _ _ _ _ _ H1 H2 H3 H4 H5 H6 H7 H8 H9 H10 H11 H12)
    as (report & h & p & _ & Hv & Ht & _ & Hno).
  exists report. eexists. split; [exact Hv|]. split; [exact Ht | exact Hno].
Defined.

(** The claim as the specification has it fails on the tamper scenario:
    three appends, then the second line's description replaced.  The
    validator reports the hash mismatch at sequence 2 and nothing at
    sequence 3. *)
Lemma C5_counterexample :
  exists report,
    validateStream (storagePath cfg) (env_at (t0 + 4000)) second_tampered
    = Ok report second_tampered
    /\ totalChecked report = 3
    /\ map (fun e => (sequence e, type e)) (errors report) = [(Num 2, hash_mismatch)].
Proof. vm_compute. eexists. repeat split. Qed.

End StreamClaims.

Module StreamExtras.
Import Json Host Store Run Chain Scenario Faults Stream Integrity.
Import TextFacts JsonRoundTrip JsonNorm Sha256Facts StoreFacts ChainFacts.
Import StreamFacts ScanFacts SealFacts.



(** With [close] before the restart the chain goes on: the state file
    brings back the sequence and the last hash, the entry appended by the
    new process is numbered N + 1 and chained to entry N, and the stream
    validates. *)
Theorem graceful_restart_valid cfg env0 calls envc env1 env2 entry env3 w0 w1 wc w3 w4 a :
  enableIntegrityCheck cfg = true ->
  mem w0 = new_instance ->
  fs w0 = ∅ ->
  initialize cfg env0 w0 = Ok tt w1 ->
  same_day cfg (getTodayStreamPath cfg env0) calls ->
  all_logged cfg calls w1 ->
  Forall (fun c => entry_ok c.2) calls ->
  Forall no_marker (logged (newly w1 (run cfg calls w1))) ->
  close cfg envc (run cfg calls w1) = Ok tt wc ->
  fault envc WriteFile (path_join (storagePath cfg) ".state.json") = false ->
  initialize cfg env1 (restart wc) = Ok tt w3 ->
  fault env1 ReadFile (path_join (storagePath cfg) ".state.json") = false ->
  getTodayStreamPath cfg env1 = getTodayStreamPath cfg env0 ->
  logAction cfg env2 entry w3 = Ok true w4 ->
  newly w3 w4 = [DebugLogged a] ->
  getTodayStreamPath cfg env2 = getTodayStreamPath cfg env0 ->
  entry_ok entry ->
  no_marker a ->
  fault env3 Readdir (storagePath cfg, EmptyString) = false ->
  fault env3 ReadFile (getTodayStreamPath cfg env0) = false ->
  exists report,
    validateStream (storagePath cfg) env3 w4 = Ok report w4
    /\ valid report = true
    /\ totalChecked report = Z.of_nat (length calls) + 1
    /\ errors report = []
    /\ obj_get "sequence" a = Num (Z.of_nat (length calls) + 1).
Proof.
  intros Hi Hm Hf Hinit Hd Ha Hok Hmk Hclose Hwf Hinit1 Hrf1 Hd1 Hlog Hnew Hd2 Hoke Hmka Hrd Hrf.
  assert (Hf0 : fs w0 !! getTodayStreamPath cfg env0 = None) by (rewrite Hf; apply lookup_empty).
  destruct (fresh_stream _ _ _ _ _ Hm Hf0 Hinit Hd Ha) as (Hs & Hl & Hfs & Hp2).
  rewrite loaded_absent in Hs by (rewrite Hf; apply lookup_empty).
  destruct (initialize_spec _ _ _ _ Hm Hinit) as [Hm1 _].
  rewrite loaded_absent in Hm1 by (rewrite Hf; apply lookup_empty).
  pose proof (run_state cfg calls w1 (getTodayStreamPath cfg env0)
                ltac:(now rewrite Hm1) Hd Ha) as Hm2.
  rewrite Hm1 in Hm2. cbn [state with_state] in Hm2.
  set (w2 := run cfg calls w1) in *. set (stored := logged (newly w1 w2)) in *.
  set (p := getTodayStreamPath cfg env0) in *.
  set (sp := path_join (storagePath cfg) ".state.json") in *.
  assert (Hsp : sp <> p) by apply state_not_stream.
  (* close writes the state *)
  destruct (close_spec cfg envc w2 ltac:(now rewrite Hm2) Hwf) as (wc' & text & Hc & Ht & Hfc).
  rewrite Hclose in Hc. injection Hc as <-.
  rewrite Hm2 in Ht. cbn [state] in Ht.
  rewrite Hfs, Hf in Hfc.
  (* the new process reads it back *)
  destruct (initialize_spec cfg env1 (restart wc) w3 eq_refl Hinit1) as [Hm3 Hf3].
  rewrite Hd1 in Hm3, Hf3. cbn [restart fs] in Hf3.
  rewrite Hfc, lookup_insert_ne, lookup_insert_eq in Hf3 by exact Hsp.
  rewrite (loaded_present cfg env1 (restart wc) (final cfg fresh stored) text Hrf1) in Hm3;
    [|cbn [restart fs]; rewrite Hfc; apply lookup_insert_eq|exact Ht].
  (* and appends *)
  assert (Hone : all_logged cfg [(env2, entry)] w3).
  { unfold all_logged. cbn [run]. rewrite Hlog. cbn [res_world]. now rewrite Hnew. }
  destruct (run_file cfg [(env2, entry)] w3 p
              ((header_line cfg env0 +:+ LF) +:+ Text.unlines (map line_of stored)))
    as (H1 & H2 & H3 & _).
  { now rewrite Hm3. }
  { rewrite Hf3. rewrite lookup_insert_ne by exact Hsp. apply lookup_insert_eq. }
  { constructor; [exact Hd2 | constructor]. }
  { exact Hone. }
  cbn [run] in *. rewrite Hlog in *. cbn [res_world] in *. rewrite Hnew in *.
  rewrite Hm3 in H1. cbn [state map snd] in H1.
  change (logged [DebugLogged a]) with [a] in *.
  cbn [seal_all] in H1.
  destruct (seal cfg (final cfg fresh stored) entry) as [a'|] eqn:Ea; [|discriminate].
  injection H1 as ->.
  assert (Hf4 : fs w4 = <[ sp := text ]>
                  {[ p := (header_line cfg env0 +:+ LF)
                          +:+ Text.unlines (map line_of (stored ++ [a])) ]}).
  { rewrite H3, Hf3.
    rewrite insert_insert_ne by (intros E; symmetry in E; exact (Hsp E)).
    rewrite insert_insert_eq.
    rewrite map_app, unlines_app, sapp_assoc. reflexivity. }
  (* the validator *)
  destruct (stream_name cfg env0) as (name & Hp & Hn1 & Hn2). fold p in Hp.
  rewrite Hp in Hf4, Hrf.
  pose proof (getStreamFiles_with_state _ _ _ _ _ _ Hrd Hf4 Hn1 Hn2) as Hg.
  pose proof (validateStream_files _ _ _ _ _ Hg Hrf
                ltac:(rewrite Hf4, lookup_insert_ne by (rewrite <- Hp; exact Hsp);
                      apply lookup_insert_eq)) as Hv.
  cbv zeta in Hv.
  assert (Hl4 : Forall (fun a => JSON_stringify (Obj a) = Some (line_of a)) (stored ++ [a]))
    by (apply Forall_app; split; [exact Hl | exact H2]).
  rewrite (stream_lines _ _ _ Hl4) in Hv.
  destruct (scanLines_sealed cfg (map snd calls) fresh stored scan0 Hi
              ltac:(now apply Forall_map) Hs Hmk eq_refl) as (E1 & E2 & E3).
  cbv zeta in *.
  destruct (scanLine_seal cfg _ entry a (scanLines scan0 (map line_of stored))
              Hi Hoke Ea Hmka) as (F1 & _ & F3).
  cbv zeta in *. rewrite E3 in F3. unfold strict_eq in F3.
  rewrite bool_decide_eq_true_2 in F3 by reflexivity.
  assert (Hscan : scanLines scan0 (header_line cfg env0 :: map line_of (stored ++ [a]))
                  = scanLine (scanLines scan0 (map line_of stored)) (line_of a)).
  { unfold scanLines. cbn [fold_left]. rewrite scanLine_header, map_app, fold_left_app.
    reflexivity. }
  rewrite Hscan, F1, F3, E1, E2 in Hv.
  assert (Hlen : length stored = length calls) by exact Ha.
  eexists. split; [exact Hv|].
  cbn [totalChecked valid errors scan0 s_errors s_totalChecked app].
  split; [reflexivity|]. split; [lia|]. split; [reflexivity|].
  rewrite (seal_sequence _ _ _ _ Ea), (final_sequence _ _ _ _ Hs).
  cbn [Host.sequence fresh]. f_equal. lia.
Qed.

Lemma graceful_restart_valid_witness :
  let w2 := run cfg two_calls booted in
  let wc := res_world (close cfg (env_at (t0 + 2200)) w2) in
  let w3 := res_world (initialize cfg (env_at (t0 + 2500)) (restart wc)) in
  let a := default [] (head (logged (newly w3 resumed))) in
  (enableIntegrityCheck cfg = true
   /\ mem empty_disk = new_instance
   /\ fs empty_disk = ∅
   /\ initialize cfg (env_at t0) empty_disk = Ok tt booted
   /\ same_day cfg (getTodayStreamPath cfg (env_at t0)) two_calls
   /\ all_logged cfg two_calls booted
   /\ Forall (fun c => entry_ok c.2) two_calls
   /\ Forall no_marker (logged (newly booted w2))
   /\ close cfg (env_at (t0 + 2200)) w2 = Ok tt wc
   /\ fault (env_at (t0 + 2200)) WriteFile (path_join (storagePath cfg) ".state.json") = false
   /\ initialize cfg (env_at (t0 + 2500)) (restart wc) = Ok tt w3
   /\ fault (env_at (t0 + 2500)) ReadFile (path_join (storagePath cfg) ".state.json") = false
   /\ getTodayStreamPath cfg (env_at (t0 + 2500)) = getTodayStreamPath cfg (env_at t0)
   /\ logAction cfg (env_at (t0 + 3000)) (Scenario.entry "c" "y") w3 = Ok true resumed
   /\ newly w3 resumed = [DebugLogged a]
   /\ getTodayStreamPath cfg (env_at (t0 + 3000)) = getTodayStreamPath cfg (env_at t0)
   /\ entry_ok (Scenario.entry "c" "y")
   /\ no_marker a
   /\ fault (env_at (t0 + 4000)) Readdir (storagePath cfg, EmptyString) = false
   /\ fault (env_at (t0 + 4000)) ReadFile (getTodayStreamPath cfg (env_at t0)) = false)
  /\ exists report,
       validateStream (storagePath cfg) (env_at (t0 + 4000)) resumed = Ok report resumed
       /\ valid report = true
       /\ totalChecked report = 3.
Proof.
  cbv zeta.
  match goal with |- ?P /\ _ => assert (H : P) end.
  { split; [reflexivity|]. split; [reflexivity|]. split; [reflexivity|].
    split; [vm_compute; reflexivity|]. split; [repeat constructor|].
    split; [vm_compute; reflexivity|]. split; [repeat constructor|].
    split; [apply no_marker_check; vm_compute; reflexivity|].
    split; [vm_compute; reflexivity|]. split; [reflexivity|].
    split; [vm_compute; reflexivity|]. split; [reflexivity|]. split; [reflexivity|].
    split; [vm_compute; reflexivity|]. split; [vm_compute; reflexivity|].
    split; [reflexivity|]. split; [split; reflexivity|].
    split; [vm_compute; reflexivity|]. split; reflexivity. }
  split; [exact H|].
  destruct H as (H1 & H2 & H3 & H4 & H5 & H6 & H7 & H8 & H9 & H10 & H11 & H12 & H13 & H14
                 & H15 & H16 & H17 & H18 & H19 & H20).
  destruct (graceful_restart_valid _ _ _ _ _ _ _ _ _ _ _ _ _ _
              H1 H2 H3 H4 H5 H6 H7 H8 H9 H10 H11 H12 H13 H14 H15 H16 H17 H18 H19 H20)
    as (report & Hv & Hval & Ht & _).
  exists report. split; [exact Hv|]. split; [exact Hval | exact Ht].
Defined.

End StreamExtras.

Module LifecycleFacts.
Import Json Host Store Run Chain Scenario Faults Stream Lifecycle.
Import TextFacts StoreFacts ChainFacts FaultFacts StreamFacts.

Lemma grows_refl f : grows f f.
Proof. intros p c H. exists EmptyString. now rewrite sapp_nil_r. Qed.

Lemma grows_trans f g h : grows f g -> grows g h -> grows f h.
Proof.
  intros H1 H2 p c Hp. destruct (H1 _ _ Hp) as (s & Hs).
  destruct (H2 _ _ Hs) as (t & Ht). exists (s +:+ t). now rewrite <- sapp_assoc.
Qed.

Lemma grows_create f p x : f !! p = None -> grows f (<[p := x]> f).
Proof.
  intros Hn q c Hq. exists EmptyString. rewrite sapp_nil_r.
  rewrite lookup_insert_ne; [exact Hq|]. intros ->. congruence.
Qed.

Lemma grows_append f p x : grows f (<[p := default EmptyString (f !! p) +:+ x]> f).
Proof.
  intros q c Hq. destruct (decide (p = q)) as [->|Hne].
  - exists x. rewrite lookup_insert_eq, Hq. reflexivity.
  - exists EmptyString. rewrite sapp_nil_r, lookup_insert_ne by assumption. exact Hq.
Qed.

Lemma logToEmergency_grows cfg env entry w :
  grows (fs w) (fs (res_world (logToEmergency cfg env entry w))).
Proof.
  rewrite logToEmergency_eq.
  destruct (JSON_stringify _) as [line|]; [|apply grows_refl].
  destruct (fault env AppendFile _); [apply grows_refl|].
  simpl_world. unfold content_of. apply grows_append.
Qed.

Lemma rotate_grows cfg env w :
  grows (fs w) (fs (res_world (rotate cfg env w))).
Proof.
  rewrite rotate_eq. destruct (bool_decide _); [apply grows_refl|].
  rewrite (writeStreamHeader_eq _ _ _ (getTodayStreamPath cfg env)) by reflexivity.
  destruct (fault env WriteFile _); [apply grows_refl|]. simpl_world.
  destruct (fs w !! _) eqn:E; [apply grows_refl|].
  simpl_world. now apply grows_create.
Qed.

Lemma durable_grows env p line w :
  grows (fs w) (fs (res_world (durable env p line w))).
Proof.
  rewrite durable_eq.
  assert (Ha : grows (fs w) (fs (appended p line w))).
  { unfold appended, content_of. simpl_world. apply grows_append. }
  destruct (fault env AppendFile p); [apply grows_refl|].
  destruct (fault env Open p); [exact Ha|].
  destruct (fault env Sync p); [exact Ha|].
  destruct (fault env Close p); exact Ha.
Qed.

(** Whatever a call to [logAction] answers, it only adds to the disk. *)
Lemma logAction_grows cfg env entry w :
  grows (fs w) (fs (res_world (logAction cfg env entry w))).
Proof.
  rewrite logAction_eq.
  assert (He : forall w0, fs w0 = fs w ->
                 grows (fs w) (fs (res_world (logToEmergency cfg env entry w0)))).
  { intros w0 <-. apply logToEmergency_grows. }
  destruct (logLevel cfg); [apply grows_refl| |].
  all: destruct (initialized (mem w)); cbn [negb]; [|apply grows_refl].
  all: destruct (emergencyMode (mem w)); [now apply He|].
  all: destruct (has_space cfg env); cbn [negb]; [|now apply He].
  all: pose proof (rotate_grows cfg env w) as Hr.
  all: destruct (rotate cfg env w) as [[] w1|e w1]; simpl_world; [|exact Hr].
  all: destruct (seal cfg (state (mem w1)) entry) as [stored|]; [|exact Hr].
  all: destruct (JSON_stringify (Obj stored)) as [line|]; [|exact Hr].
  all: pose proof (durable_grows env (getTodayStreamPath cfg env) line w1) as Hd.
  all: destruct (durable env (getTodayStreamPath cfg env) line w1) as [[] w2|e w2];
    simpl_world.
  all: try (eapply grows_trans; [exact Hr | exact Hd]).
  all: eapply grows_trans; [exact Hr|]; eapply grows_trans; [exact Hd|].
  all: apply (logToEmergency_grows cfg env entry (add_log (ErrorWriteFailed e) w2)).
Qed.

(** [initialize] writes at most the header of a stream file that was
    not there. *)
Lemma initialize_grows cfg env w :
  grows (fs w) (fs (res_world (initialize cfg env w))).
Proof.
  unfold initialize, fs_mkdir. unfold bind at 1, get at 1.
  destruct (initialized (mem w)); [apply grows_refl|].
  unfold mbind, M_bind, bind at 1, guard.
  destruct (fault env Mkdir _); [apply grows_refl|]. unfold ret at 1.
  unfold bind at 1. destruct (fault env Mkdir _); [apply grows_refl|]. unfold ret at 1.
  unfold bind at 1. destruct (fault env Mkdir _); [apply grows_refl|]. unfold ret at 1.
  unfold bind at 1. rewrite loadState_eq.
  unfold bind at 1, modify at 1.
  set (w1 := set_mem (with_path _) _).
  assert (Hp : currentStreamPath (mem w1) = Some (getTodayStreamPath cfg env)) by reflexivity.
  assert (Hf : fs w1 = fs w) by reflexivity.
  unfold bind at 1, catch, fs_access. unfold_m.
  destruct (fault env Access _).
  - rewrite (writeStreamHeader_eq _ _ _ _ Hp), Hf.
    destruct (fault env WriteFile _); [rewrite <- Hf; apply grows_refl|].
    destruct (fs w !! _) eqn:E; [rewrite <- Hf; apply grows_refl|].
    simpl_world. now apply grows_create.
  - rewrite Hf. destruct (fs w !! getTodayStreamPath cfg env) eqn:E.
    + simpl_world. apply grows_refl.
    + rewrite (writeStreamHeader_eq _ _ _ _ Hp), Hf, E.
      destruct (fault env WriteFile _); [rewrite <- Hf; apply grows_refl|].
      simpl_world. now apply grows_create.
Qed.

(** [close] writes [.state.json] and nothing else. *)
Lemma close_others cfg env w p :
  p <> statePath cfg -> fs (res_world (close cfg env w)) !! p = fs w !! p.
Proof.
  intros Hp. unfold close, saveState, stringify, fs_writeFile. unfold_m.
  destruct (initialized (mem w)); cbn [negb]; [|reflexivity].
  destruct (state_text (state (mem w))) as (text & ->).
  destruct (fault env WriteFile _); [reflexivity|].
  simpl_world. now rewrite lookup_insert_ne.
Qed.

(** The action stream is append-only.  Whatever sequence of
    [initialize], [logAction] and [close] calls and process restarts is
    made, with whatever failures, every file that was on the disk but
    [.state.json] is still there with its text, followed at most by more
    text: the store never removes, truncates or rewrites a line of a
    stream file or of the emergency log. *)
Theorem store_append_only cfg ops w p c :
  p <> statePath cfg ->
  fs w !! p = Some c ->
  exists s, fs (exec cfg ops w) !! p = Some (c +:+ s).
Proof.
  intros Hp. revert w c. induction ops as [|op ops IH]; intros w c Hc.
  - exists EmptyString. now rewrite sapp_nil_r.
  - cbn [exec fold_left].
    assert (Hs : exists s, fs (step cfg w op) !! p = Some (c +:+ s)).
    { destruct op as [env|env entry|env|]; cbn [step].
      - now apply initialize_grows.
      - now apply logAction_grows.
      - exists EmptyString. now rewrite sapp_nil_r, close_others.
      - exists EmptyString. now rewrite sapp_nil_r. }
    destruct Hs as (s & Hs). destruct (IH _ _ Hs) as (t & Ht).
    exists (s +:+ t). rewrite <- sapp_assoc. exact Ht.
Qed.

Lemma store_append_only_witness :
  let p := getTodayStreamPath cfg (env_at t0) in
  let ops := [DoLogAction (env_at (t0 + 1000)) (entry "a" "w"); DoClose (env_at (t0 + 2000));
              DoRestart; DoInitialize (env_at (t0 + 3000));
              DoLogAction (env_at (t0 + 4000)) (entry "b" "x")] in
  (p <> statePath cfg /\ fs booted !! p = Some (header_line cfg (env_at t0) +:+ LF))
  /\ exists s, fs (exec cfg ops booted) !! p = Some ((header_line cfg (env_at t0) +:+ LF) +:+ s).
Proof.
  cbv zeta.
  assert (H1 : getTodayStreamPath cfg (env_at t0) <> statePath cfg) by (vm_compute; discriminate).
  assert (H2 : fs booted !! getTodayStreamPath cfg (env_at t0)
               = Some (header_line cfg (env_at t0) +:+ LF)) by (vm_compute; reflexivity).
  split; [split; [exact H1 | exact H2]|].
  exact (store_append_only cfg _ booted _ _ H1 H2).
Defined.

(** ** Emergency mode *)

(** In emergency mode a call leaves the instance alone and writes to the
    emergency log only. *)
Lemma logAction_latched cfg env entry w :
  emergencyMode (mem w) = true ->
  let w' := res_world (logAction cfg env entry w) in
  mem w' = mem w /\ logged (newly w w') = []
  /\ forall p, p <> emergencyPath cfg -> fs w' !! p = fs w !! p.
Proof.
  intros Hem. cbv zeta. rewrite logAction_eq, Hem.
  assert (H0 : newly w w = []) by (apply newly_app; now rewrite List.app_nil_r).
  destruct (logLevel cfg); [simpl_world; now rewrite H0| |].
  all: destruct (initialized (mem w)); cbn [negb];
    [|simpl_world; split; [reflexivity|]; split; [|reflexivity];
      now rewrite (newly_app w _ [WarnNotInitialized])].
  all: destruct (logToEmergency_same cfg env entry (add_log WarnEmergencyMode w))
    as (b & w' & -> & Hm & (d & Hd & Hl) & Hf).
  all: simpl_world; split; [exact Hm|]; split; [|exact Hf].
  all: rewrite (newly_app w w' ([WarnEmergencyMode] ++ d))
    by (rewrite Hd; simpl_world; now rewrite <- List.app_assoc).
  all: now rewrite logged_app, Hl.
Qed.

Lemma run_latched cfg calls w :
  emergencyMode (mem w) = true ->
  let w' := run cfg calls w in
  mem w' = mem w /\ logged (newly w w') = []
  /\ forall p, p <> emergencyPath cfg -> fs w' !! p = fs w !! p.
Proof.
  cbv zeta. revert w. induction calls as [|[env entry] calls IH]; intros w Hem.
  - cbn [run]. split; [reflexivity|]. split; [|reflexivity].
    now rewrite (newly_app w w []) by now rewrite List.app_nil_r.
  - destruct (logAction_latched cfg env entry w Hem) as (Hm & Hl & Hf). cbv zeta in *.
    rewrite run_newly. cbv zeta. cbn [run].
    set (w1 := res_world (logAction cfg env entry w)) in *.
    destruct (IH w1) as (Hm' & Hl' & Hf'); [now rewrite Hm|].
    split; [congruence|]. split.
    + now rewrite logged_app, Hl, Hl'.
    + intros p Hp. now rewrite Hf', Hf.
Qed.

(** Emergency mode latches.  Once a call has found the disk low, every
    later call of the instance goes to the emergency log, whatever the
    disk has free by then: the flag stays set, the stream state stays as
    it was, nothing more is appended to a stream file, and no file but the
    emergency log changes. *)
Theorem emergency_mode_latches cfg env entry calls w :
  logLevel cfg <> off ->
  initialized (mem w) = true ->
  has_space cfg env = false ->
  let w' := run cfg ((env, entry) :: calls) w in
  emergencyMode (mem w') = true
  /\ state (mem w') = state (mem w)
  /\ logged (newly w w') = []
  /\ forall p, p <> emergencyPath cfg -> fs w' !! p = fs w !! p.
Proof.
  intros Hlvl Hinit Hsp. cbv zeta.
  destruct (emergencyMode (mem w)) eqn:Hem.
  - destruct (run_latched cfg ((env, entry) :: calls) w Hem) as (Hm & Hl & Hf).
    cbv zeta in *. rewrite Hm. auto.
  - rewrite run_newly. cbv zeta. cbn [run].
    assert (H1 : logAction cfg env entry w
                 = logToEmergency cfg env entry
                     (add_log ErrorLowDisk (set_mem (with_emergency true) w))).
    { rewrite logAction_eq, Hinit, Hem, Hsp. cbn [negb].
      destruct (logLevel cfg); [contradiction|reflexivity|reflexivity]. }
    rewrite H1.
    destruct (logToEmergency_same cfg env entry
                (add_log ErrorLowDisk (set_mem (with_emergency true) w)))
      as (b & w1 & -> & Hm & (d & Hd & Hl) & Hf).
    simpl_world.
    destruct (run_latched cfg calls w1) as (Hm' & Hl' & Hf'); [now rewrite Hm|].
    cbv zeta in *. rewrite Hm', Hm. simpl_world.
    split; [reflexivity|]. split; [reflexivity|]. split.
    + rewrite (newly_app w w1 ([ErrorLowDisk] ++ d))
        by (rewrite Hd; simpl_world; now rewrite <- List.app_assoc).
      now rewrite !logged_app, Hl, Hl'.
    + intros p Hp. now rewrite Hf', Hf.
Qed.

Lemma emergency_mode_latches_witness :
  let calls := [(env_at (t0 + 2000), entry "b" "x")] in
  (logLevel cfg <> off /\ initialized (mem booted) = true
   /\ has_space cfg (low_disk (t0 + 1000)) = false)
  /\ emergencyMode (mem (run cfg ((low_disk (t0 + 1000), entry "a" "w") :: calls) booted))
     = true.
Proof.
  cbv zeta.
  assert (H1 : logLevel cfg <> off) by discriminate.
  assert (H2 : initialized (mem booted) = true) by (vm_compute; reflexivity).
  assert (H3 : has_space cfg (low_disk (t0 + 1000)) = false) by (vm_compute; reflexivity).
  split; [auto|].
  exact (proj1 (emergency_mode_latches cfg _ (entry "a" "w") _ booted H1 H2 H3)).
Defined.

(** ** A line the state does not know *)

(** The call whose line reached the file and was not made durable is
    answered by [logToEmergency], over the disk with the line on it. *)
Lemma failed_sync_eq cfg env entry w stored line :
  logLevel cfg <> off ->
  initialized (mem w) = true ->
  emergencyMode (mem w) = false ->
  has_space cfg env = true ->
  currentStreamPath (mem w) = Some (getTodayStreamPath cfg env) ->
  seal cfg (state (mem w)) entry = Some stored ->
  JSON_stringify (Obj stored) = Some line ->
  sync_fails env (getTodayStreamPath cfg env) ->
  exists e,
    logAction cfg env entry w
    = logToEmergency cfg env entry
        (add_log (ErrorWriteFailed e) (appended (getTodayStreamPath cfg env) line w)).
Proof.
  intros Hlvl Hinit Hem Hsp Hcur Hseal Hline [Ha Hs].
  set (p := getTodayStreamPath cfg env) in *.
  assert (Hrot : rotate cfg env w = Ok tt w).
  { rewrite rotate_eq. fold p. now rewrite bool_decide_eq_true_2. }
  assert (Hdur : exists e, durable env p line w = Threw e (appended p line w)).
  { rewrite durable_eq, Ha.
    destruct (fault env Open p); [eauto|].
    destruct (fault env Sync p); [eauto|].
    destruct (fault env Close p); [eauto|].
    destruct Hs as [Hs|[Hs|Hs]]; discriminate. }
  destruct Hdur as (e & Hdur). exists e.
  rewrite logAction_eq, Hinit, Hem, Hsp, Hrot, Hseal, Hline. cbn [negb]. fold p.
  rewrite Hdur. destruct (logLevel cfg); [contradiction|reflexivity|reflexivity].
Qed.

(** When [appendFile] succeeds and the [open], [sync] or [close] after
    it throws, the line stays in the stream file although the call is
    answered from the emergency log: the stream state is not advanced and
    nothing is logged as stored, so the entry the next call seals carries
    the sequence number and the previous hash of the line that is already
    there. *)
Theorem failed_sync_leaves_line cfg env entry w stored line :
  logLevel cfg <> off ->
  initialized (mem w) = true ->
  emergencyMode (mem w) = false ->
  has_space cfg env = true ->
  currentStreamPath (mem w) = Some (getTodayStreamPath cfg env) ->
  seal cfg (state (mem w)) entry = Some stored ->
  JSON_stringify (Obj stored) = Some line ->
  sync_fails env (getTodayStreamPath cfg env) ->
  exists b w',
    logAction cfg env entry w = Ok b w'
    /\ fs w' !! getTodayStreamPath cfg env
       = Some (content_of w (getTodayStreamPath cfg env) +:+ line +:+ LF)
    /\ state (mem w') = state (mem w)
    /\ logged (newly w w') = []
    /\ forall entry' stored',
         seal cfg (state (mem w')) entry' = Some stored' ->
         obj_get "sequence" stored' = obj_get "sequence" stored
         /\ (enableIntegrityCheck cfg = true -> previous_of stored' = previous_of stored).
Proof.
  intros Hlvl Hinit Hem Hsp Hcur Hseal Hline Hs.
  destruct (failed_sync_eq _ _ _ _ _ _ Hlvl Hinit Hem Hsp Hcur Hseal Hline Hs) as (e & H1).
  set (p := getTodayStreamPath cfg env) in *.
  destruct (logToEmergency_same cfg env entry
              (add_log (ErrorWriteFailed e) (appended p line w)))
    as (b & w' & Hw' & Hm & (d & Hd & Hl) & Hf).
  exists b, w'. split; [now rewrite H1|].
  assert (Hst : state (mem w') = state (mem w)) by now rewrite Hm.
  split; [|split; [exact Hst|split]].
  - rewrite Hf by (intros E; symmetry in E; revert E; apply emergency_not_stream).
    unfold appended. simpl_world.
    apply lookup_insert_eq.
  - rewrite (newly_app w w' ([ErrorWriteFailed e] ++ d))
      by (rewrite Hd; simpl_world; now rewrite <- List.app_assoc).
    now rewrite logged_app, Hl.
  - intros entry' stored' Hseal'. rewrite Hst in Hseal'. split.
    + now rewrite (seal_sequence _ _ _ _ Hseal'), (seal_sequence _ _ _ _ Hseal).
    + intros Hi.
      destruct (seal_integrity _ _ _ _ Hi Hseal') as (c1 & _ & E1 & _).
      destruct (seal_integrity _ _ _ _ Hi Hseal) as (c2 & _ & E2 & _).
      unfold previous_of. now rewrite E1, E2.
Qed.

Lemma failed_sync_leaves_line_witness :
  let env := failing Sync stream_2030_01_01 (t0 + 1000) in
  let stored := default [] (seal cfg (state (mem booted)) (entry "a" "w")) in
  let line := line_of stored in
  (logLevel cfg <> off /\ initialized (mem booted) = true
   /\ emergencyMode (mem booted) = false /\ has_space cfg env = true
   /\ currentStreamPath (mem booted) = Some (getTodayStreamPath cfg env)
   /\ seal cfg (state (mem booted)) (entry "a" "w") = Some stored
   /\ JSON_stringify (Obj stored) = Some line
   /\ sync_fails env (getTodayStreamPath cfg env))
  /\ exists b w',
       logAction cfg env (entry "a" "w") booted = Ok b w'
       /\ fs w' !! getTodayStreamPath cfg env
          = Some (content_of booted (getTodayStreamPath cfg env) +:+ line +:+ LF)
       /\ state (mem w') = state (mem booted).
Proof.
  cbv zeta.
  match goal with |- ?P /\ _ => assert (H : P) end.
  { split; [discriminate|]. split; [vm_compute; reflexivity|].
    split; [vm_compute; reflexivity|]. split; [vm_compute; reflexivity|].
    split; [vm_compute; reflexivity|]. split; [vm_compute; reflexivity|].
    split; [vm_compute; reflexivity|].
    split; [vm_compute; reflexivity|]. right; left. vm_compute; reflexivity. }
  split; [exact H|].
  destruct H as (H1 & H2 & H3 & H4 & H5 & H6 & H7 & H8).
  destruct (failed_sync_leaves_line _ _ _ _ _ _ H1 H2 H3 H4 H5 H6 H7 H8)
    as (b & w' & Hr & Hf & Hs & _).
  exists b, w'. split; [exact Hr|]. split; [exact Hf | exact Hs].
Defined.

End LifecycleFacts.

Module VerifyFacts.
Import Json Host Store Run Chain Scenario Stream Verify.
Import TextFacts JsonRoundTrip JsonNorm Sha256Facts StoreFacts ChainFacts StreamFacts.
Import ScanFacts SealFacts.

(** ** What the line of a stored action parses to *)

Lemma object_line a0 content h p :
  wf_object a0 = true ->
  has_key "_integrity" a0 = false ->
  JSON_stringify (Obj a0) = Some content ->
  JSON_parse (line_of (a0 ++ [("_integrity", integrity h p)]))
  = Some (Obj (norm_members a0 ++ [("_integrity", integrity h p)]))
  /\ has_key "_integrity" (norm_members a0) = false
  /\ JSON_stringify (Obj (norm_members a0)) = Some content.
Proof.
  intros Hwa Hk Hc.
  set (b := a0 ++ [("_integrity", integrity h p)]) in *.
  assert (Hb : b = obj_set a0 "_integrity" (integrity h p))
    by (rewrite obj_set_plain by reflexivity; now rewrite Hk).
  assert (Hws : wf (Obj b) = true).
  { rewrite Hb. apply (wf_obj_set a0); auto. }
  destruct (ser_snoc a0 content "_integrity" (integrity h p) _ Hc eq_refl) as (line & Hline).
  fold b in Hline.
  assert (Hlo : line_of b = line) by (unfold line_of; now rewrite Hline).
  rewrite Hlo.
  pose proof (parse_stringify _ _ Hws Hline) as Hparse.
  assert (Hnorm : norm (Obj b) = Obj (norm_members a0 ++ [("_integrity", integrity h p)])).
  { subst b. rewrite norm_Obj, norm_members_app. reflexivity. }
  rewrite Hnorm in Hparse. split; [exact Hparse|].
  split; [now apply has_key_norm_members|].
  rewrite <- Hc. rewrite <- norm_Obj. apply ser_norm.
Qed.

Lemma field_sequence_norm a0 x n :
  obj_get "sequence" a0 = Num n ->
  field (Obj (norm_members a0 ++ x)) "sequence" = Num n.
Proof.
  intros Hn. unfold field. rewrite obj_get_app_present.
  - rewrite obj_get_norm_members by now rewrite Hn. now rewrite Hn.
  - destruct (has_key "sequence" (norm_members a0)) eqn:E; [reflexivity|].
    apply obj_get_absent in E.
    rewrite obj_get_norm_members, Hn in E by now rewrite Hn. discriminate.
Qed.

(** ** One line of the stream under [verifyIntegrity] *)

Lemma checkLine_object s a0 content h p n :
  wf_object a0 = true ->
  has_key "_integrity" a0 = false ->
  JSON_stringify (Obj a0) = Some content ->
  obj_get "sequence" a0 = Num n ->
  let s' := checkLine s (line_of (a0 ++ [("_integrity", integrity h p)])) in
  v_checked s' = v_checked s + 1
  /\ v_previousHash s' = Str h
  /\ v_errors s'
     = (v_errors s ++
        (if strict_eq (Str p) (Str "genesis") || strict_eq (Str p) (v_previousHash s)
         then [] else [ChainBroken (Num n)]))
       ++ (if bool_decide (Sha256.sha256_hex (content +:+ p) = h) then []
           else [HashMismatchAt (Num n)]).
Proof.
  intros Hwa Hk Hc Hn. cbv zeta.
  destruct (object_line a0 content h p Hwa Hk Hc) as (Hparse & Hka & Hcn).
  set (action := Obj (norm_members a0 ++ [("_integrity", integrity h p)])) in *.
  assert (Hcalc : calculateHash (withoutIntegrity action) (Str p)
                  = Some (Sha256.sha256_hex (content +:+ p))).
  { unfold action, withoutIntegrity, calculateHash.
    rewrite obj_remove_app, obj_remove_absent by assumption.
    unfold obj_remove at 1. rewrite filter_cons_False by (intros H; now apply H).
    rewrite filter_nil, List.app_nil_r, Hcn. reflexivity. }
  assert (Hf : field action "_integrity" = integrity h p).
  { unfold action, field. rewrite obj_get_app_absent by assumption. reflexivity. }
  assert (Hseq : field action "sequence" = Num n) by now apply field_sequence_norm.
  unfold checkLine. rewrite Hparse.
  change (prop action "_integrity") with (Some (field action "_integrity")).
  rewrite Hf, Hseq. change (truthy (integrity h p)) with true.
  cbn [negb v_errors v_checked v_previousHash].
  change (field (integrity h p) "previous") with (Str p).
  change (field (integrity h p) "hash") with (Str h).
  rewrite Hcalc.
  rewrite <- negb_orb.
  change (strict_eq (Str (Sha256.sha256_hex (content +:+ p))) (Str h))
    with (bool_decide (Sha256.sha256_hex (content +:+ p) = h)).
  destruct (strict_eq (Str p) (Str "genesis") || strict_eq (Str p) (v_previousHash s));
    cbn [negb]; destruct (bool_decide (Sha256.sha256_hex (content +:+ p) = h));
    cbn [negb push v_errors v_checked v_previousHash];
    rewrite ?List.app_nil_r; auto.
Qed.

(** A stored line that continues the chain, or starts one from
    genesis: counted and accepted. *)
Lemma checkLine_seal cfg st entry a s :
  enableIntegrityCheck cfg = true ->
  entry_ok entry ->
  seal cfg st entry = Some a ->
  or_genesis (lastHash st) = "genesis"
  \/ v_previousHash s = Str (or_genesis (lastHash st)) ->
  let s' := checkLine s (line_of a) in
  v_checked s' = v_checked s + 1
  /\ v_errors s' = v_errors s
  /\ v_previousHash s' = Str (or_genesis (lastHash (commit cfg a st))).
Proof.
  intros Hi [Hwf Hk] Hseal Hp. cbv zeta.
  destruct (seal_shape _ _ _ _ Hi Hk Hseal) as (content & Hc & Ha & Hst). cbv zeta in *.
  destruct (seal_integrity _ _ _ _ Hi Hseal) as (content' & Hc' & _ & Hl).
  rewrite Hc in Hc'. injection Hc' as <-.
  subst a.
  assert (Hw0 : wf_object (obj_set entry "sequence" (Num (Host.sequence st + 1))) = true)
    by (apply wf_obj_set; auto).
  assert (Hs0 : obj_get "sequence" (obj_set entry "sequence" (Num (Host.sequence st + 1)))
                = Num (Host.sequence st + 1))
    by now apply obj_get_set_eq.
  destruct (checkLine_object s _ content (Sha256.sha256_hex (content +:+ or_genesis (lastHash st)))
              (or_genesis (lastHash st)) _ Hw0 Ha Hc Hs0)
    as (H1 & H2 & H3).
  split; [exact H1|]. split.
  - rewrite H3. rewrite bool_decide_eq_true_2 by reflexivity.
    assert (Hok : strict_eq (Str (or_genesis (lastHash st))) (Str "genesis")
                  || strict_eq (Str (or_genesis (lastHash st))) (v_previousHash s) = true).
    { destruct Hp as [-> | ->]; [reflexivity|].
      apply orb_true_iff. right. unfold strict_eq. now apply bool_decide_eq_true_2. }
    rewrite Hok. now rewrite !List.app_nil_r.
  - rewrite H2, Hl, or_genesis_hash. reflexivity.
Qed.

Lemma checkLines_sealed cfg entries st stored s :
  enableIntegrityCheck cfg = true ->
  Forall entry_ok entries ->
  seal_all cfg st entries = Some stored ->
  or_genesis (lastHash st) = "genesis"
  \/ v_previousHash s = Str (or_genesis (lastHash st)) ->
  let s' := checkLines s (map line_of stored) in
  v_errors s' = v_errors s
  /\ v_checked s' = v_checked s + Z.of_nat (length stored)
  /\ (stored <> [] ->
      v_previousHash s' = Str (or_genesis (lastHash (final cfg st stored)))).
Proof.
  intros Hi He. cbv zeta. revert st stored s.
  induction He as [|e es He _ IH]; intros st stored s H Hp; simpl in H.
  - injection H as <-. simpl. split; [reflexivity|]. split; [lia | congruence].
  - destruct (seal cfg st e) as [a|] eqn:Ea; [|discriminate]. simpl in H.
    destruct (seal_all cfg (commit cfg a st) es) as [l|] eqn:El; [|discriminate].
    injection H as <-.
    destruct (checkLine_seal _ _ _ _ s Hi He Ea Hp) as (H1 & H2 & H3). cbv zeta in *.
    cbn [map checkLines fold_left final length].
    destruct (IH _ _ (checkLine s (line_of a)) El (or_intror H3)) as (I1 & I2 & I3).
    unfold checkLines, final in *. rewrite I1, I2, H1, H2.
    split; [reflexivity|]. split; [lia|]. intros _.
    destruct l as [|b l]; [exact H3|]. now apply I3.
Qed.

Lemma checkLines_cons s l ls : checkLines s (l :: ls) = checkLines (checkLine s l) ls.
Proof. reflexivity. Qed.

Lemma checkLines_app s l1 l2 : checkLines s (l1 ++ l2) = checkLines (checkLines s l1) l2.
Proof. apply fold_left_app. Qed.

(** The header line has no [_integrity]: counted, and nothing more. *)
Lemma checkLine_header cfg env s :
  checkLine s (header_line cfg env)
  = {| v_errors := v_errors s; v_checked := v_checked s + 1;
       v_previousHash := v_previousHash s |}.
Proof. unfold checkLine. rewrite header_parses. reflexivity. Qed.

Lemma store_files cfg env : Store.getStreamFiles cfg env = Integrity.getStreamFiles (storagePath cfg) env.
Proof. reflexivity. Qed.

(** The lines of a stream the store wrote from genesis, perhaps with a
    restart from genesis in it. *)
Lemma checkLines_stream cfg env0 entries stored entries' stored' :
  enableIntegrityCheck cfg = true ->
  Forall entry_ok entries ->
  seal_all cfg fresh entries = Some stored ->
  Forall entry_ok entries' ->
  seal_all cfg fresh entries' = Some stored' ->
  let s := checkLines check0 (header_line cfg env0 :: map line_of (stored ++ stored')) in
  v_errors s = []
  /\ v_checked s = Z.of_nat (length stored) + Z.of_nat (length stored') + 1.
Proof.
  intros Hi Hok Hs Hok' Hs'. cbv zeta.
  rewrite checkLines_cons, checkLine_header, map_app, checkLines_app.
  destruct (checkLines_sealed cfg entries fresh stored
              {| v_errors := v_errors check0; v_checked := v_checked check0 + 1;
                 v_previousHash := v_previousHash check0 |} Hi Hok
              Hs (or_introl eq_refl)) as (E1 & E2 & _).
  cbv zeta in E1, E2.
  destruct (checkLines_sealed cfg entries' fresh stored'
              (checkLines {| v_errors := v_errors check0; v_checked := v_checked check0 + 1;
                             v_previousHash := v_previousHash check0 |} (map line_of stored))
              Hi Hok' Hs' (or_introl eq_refl))
    as (F1 & F2 & _).
  cbv zeta in F1, F2. rewrite F1, F2, E1, E2.
  cbn [v_errors v_checked check0]. split; [reflexivity | lia].
Qed.

(** [verifyIntegrity] over a directory with one stream file. *)
Lemma verifyIntegrity_single cfg env name c w :
  enableIntegrityCheck cfg = true ->
  fault env Readdir (storagePath cfg, EmptyString) = false ->
  fault env ReadFile (storagePath cfg, name) = false ->
  fs w = {[ (storagePath cfg, name) := c ]} ->
  Text.startsWith "action-stream-" name = true ->
  Text.endsWith ".jsonl" name = true ->
  let s := checkLines check0 (Text.lines c) in
  verifyIntegrity cfg env w
  = Ok {| valid := match v_errors s with [] => true | _ => false end;
          errors := v_errors s;
          checked := v_checked s |} w.
Proof.
  intros Hi Hrd Hrf Hfs Hn1 Hn2. cbv zeta.
  unfold verifyIntegrity. rewrite Hi. cbn [negb].
  unfold bind at 1. rewrite store_files.
  rewrite (getStreamFiles_single _ _ _ _ _ Hrd Hfs Hn1 Hn2).
  cbn [checkFiles]. unfold checkFile, fs_readFile. unfold_m.
  rewrite Hrf, Hfs, lookup_singleton_eq. reflexivity.
Qed.

(** The store's own check accepts the stream it wrote, and counts the
    header among the entries it checked. *)
Theorem verifyIntegrity_counts_header cfg env0 calls env w0 w1 :
  enableIntegrityCheck cfg = true ->
  mem w0 = new_instance ->
  fs w0 = ∅ ->
  initialize cfg env0 w0 = Ok tt w1 ->
  same_day cfg (getTodayStreamPath cfg env0) calls ->
  all_logged cfg calls w1 ->
  Forall (fun c => entry_ok c.2) calls ->
  fault env Readdir (storagePath cfg, EmptyString) = false ->
  fault env ReadFile (getTodayStreamPath cfg env0) = false ->
  verifyIntegrity cfg env (run cfg calls w1)
  = Ok {| valid := true; errors := []; checked := Z.of_nat (length calls) + 1 |}
       (run cfg calls w1).
Proof.
  intros Hi Hm Hf Hinit Hd Ha Hok Hrd Hrf.
  assert (Hf0 : fs w0 !! getTodayStreamPath cfg env0 = None) by (rewrite Hf; apply lookup_empty).
  destruct (fresh_stream _ _ _ _ _ Hm Hf0 Hinit Hd Ha) as (Hs & Hl & Hfs & _).
  rewrite loaded_absent in Hs by (rewrite Hf; apply lookup_empty).
  set (stored := logged (newly w1 (run cfg calls w1))) in *.
  destruct (stream_name cfg env0) as (name & Hp & Hn1 & Hn2).
  rewrite Hf, Hp in Hfs. rewrite Hp in Hrf.
  rewrite (verifyIntegrity_single _ _ _ _ _ Hi Hrd Hrf Hfs Hn1 Hn2).
  rewrite (stream_lines _ _ _ Hl).
  destruct (checkLines_stream cfg env0 (map snd calls) stored [] [] Hi
              ltac:(now apply Forall_map) Hs ltac:(constructor) eq_refl) as (E1 & E2).
  cbv zeta in E1, E2. rewrite List.app_nil_r in E1, E2. rewrite E1, E2.
  unfold all_logged in Ha. fold stored in Ha. rewrite Ha.
  do 2 f_equal. cbn [length]. lia.
Qed.

Lemma verifyIntegrity_counts_header_witness :
  (enableIntegrityCheck cfg = true
   /\ mem empty_disk = new_instance
   /\ fs empty_disk = ∅
   /\ initialize cfg (env_at t0) empty_disk = Ok tt booted
   /\ same_day cfg (getTodayStreamPath cfg (env_at t0)) three_calls
   /\ all_logged cfg three_calls booted
   /\ Forall (fun c => entry_ok c.2) three_calls
   /\ fault (env_at (t0 + 4000)) Readdir (storagePath cfg, EmptyString) = false
   /\ fault (env_at (t0 + 4000)) ReadFile (getTodayStreamPath cfg (env_at t0)) = false)
  /\ verifyIntegrity cfg (env_at (t0 + 4000)) (run cfg three_calls booted)
     = Ok {| valid := true; errors := []; checked := Z.of_nat (length three_calls) + 1 |}
          (run cfg three_calls booted).
Proof.
  match goal with |- ?P /\ _ => assert (H : P) end.
  { split; [reflexivity|]. split; [reflexivity|]. split; [reflexivity|].
    split; [vm_compute; reflexivity|]. split; [repeat constructor|].
    split; [vm_compute; reflexivity|]. split; [repeat constructor|].
    split; reflexivity. }
  split; [exact H|].
  destruct H as (H1 & H2 & H3 & H4 & H5 & H6 & H7 & H8 & H9).
  exact (verifyIntegrity_counts_header _ _ _ _ _ _ H1 H2 H3 H4 H5 H6 H7 H8 H9).
Defined.

(** After a crash and a restart the new process chains its first entry
    to genesis.  The store's own check takes a [previous] of genesis at
    any place of the stream, so it accepts that stream: no error, and
    every line counted, the header too. *)
Theorem verifyIntegrity_accepts_restart cfg env0 calls env1 env2 entry env3 w0 w1 w3 w4 a :
  enableIntegrityCheck cfg = true ->
  mem w0 = new_instance ->
  fs w0 = ∅ ->
  initialize cfg env0 w0 = Ok tt w1 ->
  calls <> [] ->
  same_day cfg (getTodayStreamPath cfg env0) calls ->
  all_logged cfg calls w1 ->
  Forall (fun c => entry_ok c.2) calls ->
  initialize cfg env1 (restart (run cfg calls w1)) = Ok tt w3 ->
  getTodayStreamPath cfg env1 = getTodayStreamPath cfg env0 ->
  logAction cfg env2 entry w3 = Ok true w4 ->
  newly w3 w4 = [DebugLogged a] ->
  getTodayStreamPath cfg env2 = getTodayStreamPath cfg env0 ->
  entry_ok entry ->
  fault env3 Readdir (storagePath cfg, EmptyString) = false ->
  fault env3 ReadFile (getTodayStreamPath cfg env0) = false ->
  verifyIntegrity cfg env3 w4
  = Ok {| valid := true; errors := []; checked := Z.of_nat (length calls) + 2 |} w4
  /\ obj_get "sequence" a = Num 1
  /\ previous_of a = Str "genesis".
Proof.
  intros Hi Hm Hf Hinit Hne Hd Ha Hok Hinit1 Hd1 Hlog Hnew Hd2 Hea Hrd Hrf.
  destruct (recovered_stream _ _ _ _ _ _ _ _ _ _ _ Hm Hf Hinit Hd Ha Hinit1 Hd1 Hlog Hnew Hd2)
    as (Hs & Hsa & Hl & Hfs).
  set (stored := logged (newly w1 (run cfg calls w1))) in *.
  destruct (stream_name cfg env0) as (name & Hp & Hn1 & Hn2).
  rewrite Hp in Hfs, Hrf.
  split.
  - rewrite (verifyIntegrity_single _ _ _ _ _ Hi Hrd Hrf Hfs Hn1 Hn2).
    rewrite (stream_lines _ _ _ Hl).
    assert (Hsa' : seal_all cfg fresh [entry] = Some [a]).
    { cbn [seal_all]. rewrite Hsa. reflexivity. }
    destruct (checkLines_stream cfg env0 (map snd calls) stored [entry] [a] Hi
                ltac:(now apply Forall_map) Hs ltac:(now constructor) Hsa') as (E1 & E2).
    cbv zeta in E1, E2. rewrite E1, E2.
    unfold all_logged in Ha. fold stored in Ha. rewrite Ha.
    do 2 f_equal. cbn [length]. lia.
  - split; [exact (seal_sequence _ _ _ _ Hsa)|].
    destruct (seal_integrity _ _ _ _ Hi Hsa) as (c & _ & E & _).
    unfold previous_of. now rewrite E.
Qed.

Lemma verifyIntegrity_accepts_restart_witness :
  let w2 := run cfg two_calls booted in
  let w3 := res_world (initialize cfg (env_at (t0 + 2500)) (restart w2)) in
  let a := default [] (head (logged (newly w3 recovered))) in
  (enableIntegrityCheck cfg = true
   /\ mem empty_disk = new_instance
   /\ fs empty_disk = ∅
   /\ initialize cfg (env_at t0) empty_disk = Ok tt booted
   /\ two_calls <> []
   /\ same_day cfg (getTodayStreamPath cfg (env_at t0)) two_calls
   /\ all_logged cfg two_calls booted
   /\ Forall (fun c => entry_ok c.2) two_calls
   /\ initialize cfg (env_at (t0 + 2500)) (restart w2) = Ok tt w3
   /\ getTodayStreamPath cfg (env_at (t0 + 2500)) = getTodayStreamPath cfg (env_at t0)
   /\ logAction cfg (env_at (t0 + 3000)) (Scenario.entry "c" "y") w3 = Ok true recovered
   /\ newly w3 recovered = [DebugLogged a]
   /\ getTodayStreamPath cfg (env_at (t0 + 3000)) = getTodayStreamPath cfg (env_at t0)
   /\ entry_ok (Scenario.entry "c" "y")
   /\ fault (env_at (t0 + 4000)) Readdir (storagePath cfg, EmptyString) = false
   /\ fault (env_at (t0 + 4000)) ReadFile (getTodayStreamPath cfg (env_at t0)) = false)
  /\ verifyIntegrity cfg (env_at (t0 + 4000)) recovered
     = Ok {| valid := true; errors := []; checked := Z.of_nat (length two_calls) + 2 |}
          recovered.
Proof.
  cbv zeta.
  match goal with |- ?P /\ _ => assert (H : P) end.
  { split; [reflexivity|]. split; [reflexivity|]. split; [reflexivity|].
    split; [vm_compute; reflexivity|]. split; [discriminate|].
    split; [repeat constructor|]. split; [vm_compute; reflexivity|].
    split; [repeat constructor|].
    split; [vm_compute; reflexivity|]. split; [vm_compute; reflexivity|].
    split; [vm_compute; reflexivity|]. split; [vm_compute; reflexivity|].
    split; [reflexivity|]. split; [split; reflexivity|].
    split; reflexivity. }
  split; [exact H|].
  destruct H as (H1 & H2 & H3 & H4 & H5 & H6 & H7 & H8 & H9 & H10 & H11 & H12 & H13 & H14
                 & H15 & H16).
  exact (proj1 (verifyIntegrity_accepts_restart _ _ _ _ _ _ _ _ _ _ _ _
                  H1 H2 H3 H4 H5 H6 H7 H8 H9 H10 H11 H12 H13 H14 H15 H16)).
Defined.

End VerifyFacts.

Module TailFacts.
Import Json Host Store Run Chain Scenario Stream Tail.
Import TextFacts JsonRoundTrip JsonNorm Sha256Facts StoreFacts ChainFacts StreamFacts.
Import ScanFacts SealFacts VerifyFacts.

Lemma lastHashOf_cons line rest :
  lastHashOf (line :: rest)
  = match JSON_parse line ≫= (fun action => prop action "_integrity") with
    | Some integrity =>
        let hash := match integrity with
                    | Null | Undefined => Undefined
                    | _ => field integrity "hash"
                    end in
        if truthy hash then Some hash else lastHashOf rest
    | None => lastHashOf rest
    end.
Proof. reflexivity. Qed.

(** The header carries no hash. *)
Lemma lastHashOf_header cfg env rest :
  lastHashOf (header_line cfg env :: rest) = lastHashOf rest.
Proof. rewrite lastHashOf_cons, header_parses. reflexivity. Qed.

(** The line of a stored action carries the hash the writer keeps
    after it. *)
Lemma lastHashOf_seal cfg st entry a rest :
  enableIntegrityCheck cfg = true ->
  entry_ok entry ->
  seal cfg st entry = Some a ->
  lastHashOf (line_of a :: rest) = Some (hash_value (lastHash (commit cfg a st))).
Proof.
  intros Hi [Hwf Hk] Hseal.
  destruct (seal_shape _ _ _ _ Hi Hk Hseal) as (content & Hc & Ha & Hst). cbv zeta in *.
  destruct (seal_integrity _ _ _ _ Hi Hseal) as (content' & Hc' & _ & Hl).
  rewrite Hc in Hc'. injection Hc' as <-.
  rewrite Hl. subst a.
  assert (Hw0 : wf_object (obj_set entry "sequence" (Num (Host.sequence st + 1))) = true)
    by (apply wf_obj_set; auto).
  destruct (object_line _ content (Sha256.sha256_hex (content +:+ or_genesis (lastHash st)))
              (or_genesis (lastHash st)) Hw0 Ha Hc) as (Hparse & Hka & _).
  rewrite lastHashOf_cons, Hparse.
  set (h := Sha256.sha256_hex _).
  set (action := Obj _).
  assert (Hf : field action "_integrity" = integrity h (or_genesis (lastHash st))).
  { unfold action, field. rewrite obj_get_app_absent by assumption. reflexivity. }
  change (Some action ≫= (fun action => prop action "_integrity"))
    with (Some (field action "_integrity")).
  rewrite Hf. cbv zeta.
  change (match integrity h (or_genesis (lastHash st)) with
          | Null | Undefined => Undefined
          | _ => field (integrity h (or_genesis (lastHash st))) "hash"
          end) with (Str h).
  unfold h. destruct (sha256_hex_first (content +:+ or_genesis (lastHash st)))
    as (c & t & -> & _).
  reflexivity.
Qed.

Lemma lastHashOf_sealed cfg entries st stored rest :
  enableIntegrityCheck cfg = true ->
  Forall entry_ok entries ->
  seal_all cfg st entries = Some stored ->
  lastHashOf (rev (map line_of stored) ++ rest)
  = match stored with
    | [] => lastHashOf rest
    | _ => Some (hash_value (lastHash (final cfg st stored)))
    end.
Proof.
  intros Hi He. revert st stored rest.
  induction He as [|e es He _ IH]; intros st stored rest H; simpl in H.
  - injection H as <-. reflexivity.
  - destruct (seal cfg st e) as [a|] eqn:Ea; [|discriminate]. simpl in H.
    destruct (seal_all cfg (commit cfg a st) es) as [l|] eqn:El; [|discriminate].
    injection H as <-.
    cbn [map rev]. rewrite <- List.app_assoc.
    rewrite (IH _ _ _ El). cbn [final fold_left].
    destruct l as [|b l]; [|reflexivity].
    cbn [fold_left app]. exact (lastHashOf_seal cfg st e a rest Hi He Ea).
Qed.

(** The hash the validator finds at the end of the stream is the one
    the writer holds in memory.  It is read from the disk alone: a
    process that starts over the same files finds it there, with whatever
    state it has loaded itself. *)
Theorem getLastHash_is_writer_hash cfg env0 calls env w0 w1 m l :
  enableIntegrityCheck cfg = true ->
  mem w0 = new_instance ->
  fs w0 = ∅ ->
  initialize cfg env0 w0 = Ok tt w1 ->
  same_day cfg (getTodayStreamPath cfg env0) calls ->
  all_logged cfg calls w1 ->
  Forall (fun c => entry_ok c.2) calls ->
  fault env Readdir (storagePath cfg, EmptyString) = false ->
  fault env ReadFile (getTodayStreamPath cfg env0) = false ->
  let w := {| mem := m; fs := fs (run cfg calls w1); logs := l |} in
  getLastHash (storagePath cfg) env w
  = Ok (hash_value (lastHash (state (mem (run cfg calls w1))))) w.
Proof.
  intros Hi Hm Hf Hinit Hd Ha Hok Hrd Hrf. cbv zeta.
  assert (Hf0 : fs w0 !! getTodayStreamPath cfg env0 = None) by (rewrite Hf; apply lookup_empty).
  destruct (fresh_stream _ _ _ _ _ Hm Hf0 Hinit Hd Ha) as (Hs & Hl & Hfs & _).
  rewrite loaded_absent in Hs by (rewrite Hf; apply lookup_empty).
  destruct (initialize_spec _ _ _ _ Hm Hinit) as [Hm1 _].
  rewrite loaded_absent in Hm1 by (rewrite Hf; apply lookup_empty).
  pose proof (run_state cfg calls w1 (getTodayStreamPath cfg env0)
                ltac:(now rewrite Hm1) Hd Ha) as Hm2.
  rewrite Hm1 in Hm2. cbn [state with_state] in Hm2.
  rewrite Hm2. cbn [state].
  set (stored := logged (newly w1 (run cfg calls w1))) in *.
  destruct (stream_name cfg env0) as (name & Hp & Hn1 & Hn2).
  rewrite Hf, Hp in Hfs. rewrite Hp in Hrf.
  set (w := {| mem := m; fs := fs (run cfg calls w1); logs := l |}).
  assert (Hfw : fs w = <[(storagePath cfg, name) :=
                  (header_line cfg env0 +:+ LF) +:+ Text.unlines (map line_of stored)]> ∅)
    by exact Hfs.
  unfold getLastHash. unfold bind at 1.
  rewrite (getStreamFiles_single _ _ _ _ _ Hrd Hfw Hn1 Hn2).
  cbn [rev app lastHashIn]. unfold fs_readFile. unfold_m.
  rewrite Hrf, Hfw, lookup_insert_eq.
  rewrite (stream_lines _ _ _ Hl). cbn [rev].
  rewrite (lastHashOf_sealed cfg (map snd calls) fresh stored _ Hi
             ltac:(now apply Forall_map) Hs).
  destruct stored as [|a l']; [|reflexivity].
  rewrite lastHashOf_header. reflexivity.
Qed.

Lemma getLastHash_is_writer_hash_witness :
  (enableIntegrityCheck cfg = true
   /\ mem empty_disk = new_instance
   /\ fs empty_disk = ∅
   /\ initialize cfg (env_at t0) empty_disk = Ok tt booted
   /\ same_day cfg (getTodayStreamPath cfg (env_at t0)) two_calls
   /\ all_logged cfg two_calls booted
   /\ Forall (fun c => entry_ok c.2) two_calls
   /\ fault (env_at (t0 + 4000)) Readdir (storagePath cfg, EmptyString) = false
   /\ fault (env_at (t0 + 4000)) ReadFile (getTodayStreamPath cfg (env_at t0)) = false)
  /\ let w := {| mem := new_instance; fs := fs (run cfg two_calls booted); logs := [] |} in
     getLastHash (storagePath cfg) (env_at (t0 + 4000)) w
     = Ok (hash_value (lastHash (state (mem (run cfg two_calls booted))))) w.
Proof.
  match goal with |- ?P /\ _ => assert (H : P) end.
  { split; [reflexivity|]. split; [reflexivity|]. split; [reflexivity|].
    split; [vm_compute; reflexivity|]. split; [repeat constructor|].
    split; [vm_compute; reflexivity|]. split; [repeat constructor|].
    split; reflexivity. }
  split; [exact H|].
  destruct H as (H1 & H2 & H3 & H4 & H5 & H6 & H7 & H8 & H9).
  exact (getLastHash_is_writer_hash _ _ _ _ _ _ _ _ H1 H2 H3 H4 H5 H6 H7 H8 H9).
Defined.

End TailFacts.

Module DamageFacts.
Import Json Host Store Run Chain Scenario Stream Integrity Damage.
Import TextFacts JsonRoundTrip JsonNorm Sha256Facts StoreFacts ChainFacts.
Import StreamFacts ScanFacts SealFacts.

Lemma scanLines_cons s l ls : scanLines s (l :: ls) = scanLines (scanLine s l) ls.
Proof. reflexivity. Qed.

Lemma scanLines_app s l1 l2 : scanLines s (l1 ++ l2) = scanLines (scanLines s l1) l2.
Proof. apply fold_left_app. Qed.


Lemma scanLine_marked s line :
  Text.includes headerMarker line = true -> scanLine s line = s.
Proof. intros Hm. unfold scanLine. now rewrite Hm. Qed.

Lemma ser_line b :
  JSON_stringify (Obj b) = Some (line_of b) ->
  Text.all Text.not_nl (line_of b) = true /\ Text.blank (line_of b) = false.
Proof. intros Hb. split; [eapply ser_no_nl | eapply ser_not_blank]; exact Hb. Qed.

(** The entries of a run, cut where its stored actions are cut. *)
Lemma seal_all_split cfg es st l1 l2 :
  seal_all cfg st es = Some (l1 ++ l2) ->
  seal_all cfg st (take (length l1) es) = Some l1
  /\ seal_all cfg (final cfg st l1) (drop (length l1) es) = Some l2.
Proof.
  intros Hs.
  assert (Hlen : length (l1 ++ l2) = length es) by (eapply seal_all_length; exact Hs).
  rewrite length_app in Hlen.
  rewrite <- (take_drop (length l1) es) in Hs.
  apply (seal_all_app cfg _ _ st l1 l2); [|exact Hs].
  rewrite length_take. lia.
Qed.



(** A stored action whose line holds the text the validator takes for
    the mark of a header -- a property [_header] that is true, at any
    depth -- is passed over: it is not counted and not checked.  The entry
    after it is chained to it, so that entry is reported as a chain break
    unless the two hashes coincide; after a passed-over first entry it is
    always reported. *)
Theorem marked_entry_skipped cfg env0 calls env w0 w1 l1 a l2 :
  enableIntegrityCheck cfg = true ->
  mem w0 = new_instance ->
  fs w0 = ∅ ->
  initialize cfg env0 w0 = Ok tt w1 ->
  same_day cfg (getTodayStreamPath cfg env0) calls ->
  all_logged cfg calls w1 ->
  Forall (fun c => entry_ok c.2) calls ->
  logged (newly w1 (run cfg calls w1)) = l1 ++ a :: l2 ->
  Forall no_marker (l1 ++ l2) ->
  Text.includes headerMarker (line_of a) = true ->
  fault env Readdir (storagePath cfg, EmptyString) = false ->
  fault env ReadFile (getTodayStreamPath cfg env0) = false ->
  let w2 := run cfg calls w1 in
  let before := or_genesis (lastHash (final cfg fresh l1)) in
  exists report h p,
    obj_get "_integrity" a = integrity h p
    /\ validateStream (storagePath cfg) env w2 = Ok report w2
    /\ totalChecked report = Z.of_nat (length calls) - 1
    /\ errors report
       = match l2 with
         | [] => []
         | _ :: _ =>
             if bool_decide (h = before) then []
             else [{| sequence := Num (Z.of_nat (length l1) + 2); type := chain_break;
                      details := ExpectedPrevious (Str before) (Str h) |}]
         end
    /\ (l1 = [] -> l2 <> [] -> valid report = false).
Proof.
  intros Hi Hm Hf Hinit Hd Ha Hok Hst Hmk Hma Hrd Hrf. cbv zeta.
  assert (Hf0 : fs w0 !! getTodayStreamPath cfg env0 = None) by (rewrite Hf; apply lookup_empty).
  destruct (fresh_stream _ _ _ _ _ Hm Hf0 Hinit Hd Ha) as (Hs & Hl & Hfs & _).
  rewrite loaded_absent in Hs by (rewrite Hf; apply lookup_empty).
  unfold all_logged in Ha. rewrite Hst in Hs, Hl, Ha, Hfs.
  set (es := map snd calls) in *.
  assert (Hes : Forall entry_ok es) by now apply Forall_map.
  destruct (seal_all_split _ _ _ _ _ Hs) as [Hs1 Hs2].
  rewrite <- (take_drop (length l1) es) in Hes.
  apply Forall_app in Hes as [Hes1 Hes2].
  destruct (drop (length l1) es) as [|e es2]; [discriminate|].
  apply Forall_cons in Hes2 as [He Hes2].
  cbn [seal_all] in Hs2.
  destruct (seal cfg (final cfg fresh l1) e) as [a'|] eqn:Ea; [|discriminate].
  cbn [mbind option_bind] in Hs2.
  destruct (seal_all cfg (commit cfg a' (final cfg fresh l1)) es2) as [l|] eqn:El; [|discriminate].
  injection Hs2 as -> ->.
  apply Forall_app in Hmk as [Hmk1 Hmk2].
  destruct (seal_integrity _ _ _ _ Hi Ea) as (content & _ & Hg & Hla).
  set (h := Sha256.sha256_hex _) in *.
  set (before := or_genesis (lastHash (final cfg fresh l1))) in *.
  (* the file and its lines *)
  destruct (stream_name cfg env0) as (name & Hp & Hn1 & Hn2).
  rewrite Hf, Hp in Hfs. rewrite Hp in Hrf.
  pose proof (validateStream_single _ _ _ _ _ Hrd Hrf Hfs Hn1 Hn2) as Hv. cbv zeta in Hv.
  rewrite (stream_lines _ _ _ Hl) in Hv.
  (* the parts under the validator *)
  destruct (scanLines_sealed cfg _ fresh l1 scan0 Hi Hes1 Hs1 Hmk1 eq_refl) as (E1 & E2 & E3).
  cbv zeta in E1, E2, E3.
  rewrite scanLines_cons, scanLine_header, map_app, scanLines_app in Hv.
  cbn [map] in Hv. rewrite scanLines_cons, (scanLine_marked _ _ Hma) in Hv.
  eexists _, h, before.
  split; [exact Hg|]. split; [exact Hv|].
  destruct l2 as [|b l2].
  - cbn [scanLines fold_left map totalChecked errors].
    rewrite E1, E2. cbn [scan0 s_errors s_totalChecked].
    split; [|split; [reflexivity|]].
    + rewrite <- Ha, length_app. cbn [length]. lia.
    + intros _ Hne. now contradiction Hne.
  - destruct es2 as [|e2 es2]; [discriminate|].
    apply Forall_cons in Hes2 as [He2 Hes2].
    apply Forall_cons in Hmk2 as [Hmb Hmk2].
    cbn [seal_all] in El.
    destruct (seal cfg (commit cfg a (final cfg fresh l1)) e2) as [b'|] eqn:Eb; [|discriminate].
    cbn [mbind option_bind] in El.
    destruct (seal_all cfg (commit cfg b' (commit cfg a (final cfg fresh l1))) es2)
      as [l'|] eqn:El'; [|discriminate].
    injection El as -> ->.
    destruct (scanLine_seal cfg _ e2 b (scanLines scan0 (map line_of l1)) Hi He2 Eb Hmb)
      as (F1 & F2 & F3).
    cbv zeta in F1, F2, F3.
    destruct (scanLines_sealed cfg _ _ l2 (scanLine (scanLines scan0 (map line_of l1)) (line_of b))
                Hi Hes2 El' Hmk2 F2) as (G1 & G2 & _).
    cbv zeta in G1, G2.
    cbn [map]. rewrite scanLines_cons.
    cbn [totalChecked errors valid].
    assert (Hoh : or_genesis (Some h) = h) by (unfold h; apply or_genesis_hash).
    rewrite G1, G2, F1, F3, E1, E2, E3, Hla, Hoh.
    cbn [scan0 s_errors s_totalChecked app].
    rewrite (commit_sequence _ _ _ _ Ea), (final_sequence _ _ _ _ Hs1).
    cbn [Host.sequence fresh].
    split; [rewrite <- Ha, length_app; cbn [length]; lia|].
    unfold strict_eq.
    replace (0 + Z.of_nat (length l1) + 1 + 1) with (Z.of_nat (length l1) + 2) by lia.
    split; [reflexivity|].
    intros -> _.
    assert (Hne : h <> before) by (unfold h; apply sha256_hex_not_genesis).
    rewrite (bool_decide_eq_false_2 (h = before)) by exact Hne.
    apply bool_decide_eq_false_2. intros E. discriminate E.
Qed.

Lemma marked_entry_skipped_witness :
  let stored := logged (newly booted (run cfg marked_calls booted)) in
  let a := default [] (head stored) in
  let l2 := drop 1 stored in
  (enableIntegrityCheck cfg = true
   /\ mem empty_disk = new_instance
   /\ fs empty_disk = ∅
   /\ initialize cfg (env_at t0) empty_disk = Ok tt booted
   /\ same_day cfg (getTodayStreamPath cfg (env_at t0)) marked_calls
   /\ all_logged cfg marked_calls booted
   /\ Forall (fun c => entry_ok c.2) marked_calls
   /\ logged (newly booted (run cfg marked_calls booted)) = [] ++ a :: l2
   /\ Forall no_marker ([] ++ l2)
   /\ Text.includes headerMarker (line_of a) = true
   /\ fault (env_at (t0 + 4000)) Readdir (storagePath cfg, EmptyString) = false
   /\ fault (env_at (t0 + 4000)) ReadFile (getTodayStreamPath cfg (env_at t0)) = false)
  /\ exists report,
       validateStream (storagePath cfg) (env_at (t0 + 4000)) (run cfg marked_calls booted)
       = Ok report (run cfg marked_calls booted)
       /\ totalChecked report = Z.of_nat (length marked_calls) - 1.
Proof.
  cbv zeta.
  match goal with |- ?P /\ _ => assert (H : P) end.
  { split; [reflexivity|]. split; [reflexivity|]. split; [reflexivity|].
    split; [vm_compute; reflexivity|]. split; [repeat constructor|].
    split; [vm_compute; reflexivity|]. split; [repeat constructor|].
    split; [vm_compute; reflexivity|].
    split; [apply no_marker_check; vm_compute; reflexivity|].
    split; [vm_compute; reflexivity|].
    split; reflexivity. }
  split; [exact H|].
  destruct H as (H1 & H2 & H3 & H4 & H5 & H6 & H7 & H8 & H9 & H10 & H11 & H12).
  destruct (marked_entry_skipped _ _ _ _ _ _ _ _ _ H1 H2 H3 H4 H5 H6 H7 H8 H9 H10 H11 H12)
    as (report & h & p & _ & Hv & Ht & _).
  exists report. split; [exact Hv | exact Ht].
Defined.

End DamageFacts.

Module QueryFacts.
Import Json Host Store Run Chain Scenario Stream Query Session.
Import TextFacts JsonRoundTrip JsonNorm StoreFacts ChainFacts StreamFacts.
Import ScanFacts SealFacts ResumeFacts VerifyFacts.

Lemma target_gt limit actions : (length actions < target limit actions)%nat.
Proof. unfold target. lia. Qed.

Lemma target_app limit actions m :
  (length actions + length m < target limit actions)%nat ->
  target limit (actions ++ m) = target limit actions.
Proof. unfold target. rewrite length_app. lia. Qed.

Lemma queryLines_spec criteria limit lines actions :
  queryLines criteria limit actions lines
  = let m := matching criteria lines in
    if decide (length actions + length m < target limit actions)%nat
    then (actions ++ m, false)
    else (actions ++ take (target limit actions - length actions) m, true).
Proof.
  cbv zeta. revert actions. induction lines as [|line lines IH]; intros actions.
  - cbn [queryLines matching omap list_omap length].
    rewrite decide_True by (pose proof (target_gt limit actions); lia).
    now rewrite List.app_nil_r.
  - cbn [queryLines].
    change (matching criteria (line :: lines))
      with (match admitted criteria line with
            | Some a => a :: matching criteria lines
            | None => matching criteria lines
            end).
    fold (admitted criteria line).
    destruct (admitted criteria line) as [a|]; [|apply IH].
    cbv zeta. rewrite length_app. cbn [length].
    destruct (limit <=? Z.of_nat (length actions + 1)) eqn:E.
    + apply Z.leb_le in E.
      assert (Ht : target limit actions = S (length actions)) by (unfold target; lia).
      rewrite Ht. rewrite decide_False by lia.
      replace (S (length actions) - length actions)%nat with 1%nat by lia.
      reflexivity.
    + apply Z.leb_gt in E.
      assert (Ht : target limit (actions ++ [a]) = target limit actions).
      { unfold target. rewrite length_app. cbn [length]. lia. }
      rewrite IH, Ht, length_app. cbn [length].
      assert (Hlt : (S (length actions) < target limit actions)%nat) by (unfold target; lia).
      destruct (decide (length actions + 1 + length (matching criteria lines)
                        < target limit actions)%nat) as [H|H].
      * rewrite decide_True by lia. now rewrite <- List.app_assoc.
      * rewrite decide_False by lia. rewrite <- List.app_assoc. cbn [app].
        replace (target limit actions - length actions)%nat
          with (S (target limit actions - (length actions + 1)))%nat by lia.
        reflexivity.
Qed.

(** The turn of the outer loop for one file: what the inner loop makes
    of its lines, an unreadable file counting for none. *)
Lemma queryFile_eq env criteria limit actions file w :
  catch (let* content := fs_readFile env file in
         ret (queryLines criteria limit actions (Text.lines content)))
        (fun _ => ret (actions, false)) w
  = Ok (queryLines criteria limit actions (lines_of env w file)) w.
Proof.
  unfold fs_readFile, lines_of. unfold_m.
  destruct (fault env ReadFile file); [reflexivity|].
  now destruct (fs w !! file).
Qed.

Lemma matching_app criteria a b :
  matching criteria (a ++ b) = matching criteria a ++ matching criteria b.
Proof. apply omap_app. Qed.

Lemma queryFiles_spec env criteria limit files actions w :
  queryFiles env criteria limit actions files w
  = Ok (actions ++ take (target limit actions - length actions)
                        (matching criteria (concat (map (lines_of env w) files)))) w.
Proof.
  revert actions. induction files as [|file files IH]; intros actions.
  - cbn [queryFiles map concat matching omap list_omap]. unfold ret.
    now rewrite take_nil, List.app_nil_r.
  - cbn [queryFiles map concat]. unfold bind at 1. rewrite queryFile_eq.
    rewrite queryLines_spec. cbv zeta. rewrite matching_app.
    set (m := matching criteria (lines_of env w file)).
    set (rest := matching criteria (concat (map (lines_of env w) files))).
    destruct (decide (length actions + length m < target limit actions)%nat) as [H|H];
      cbn [fst snd].
    + rewrite IH. fold rest. rewrite (target_app _ _ _ H), length_app.
      rewrite take_app_ge by lia. rewrite <- List.app_assoc.
      f_equal. f_equal. f_equal. f_equal. lia.
    + unfold ret. rewrite take_app_le by lia. reflexivity.
Qed.

Lemma getStreamFiles_ok cfg env w : exists files, getStreamFiles cfg env w = Ok files w.
Proof.
  unfold getStreamFiles, fs_readdir. unfold_m.
  destruct (fault env Readdir _); eauto.
Qed.

(** [queryActions] is a filter with a cut.  It returns the actions of
    the lines that parse and pass the filters, taken file by file from the
    oldest stream file and line by line from the top, and stops at the
    limit (100 when none or zero is given; one action when the limit is
    negative).  A file that cannot be read counts for no line.  It never
    throws and changes nothing. *)
Theorem queryActions_spec cfg env criteria w :
  exists files,
    getStreamFiles cfg env w = Ok files w
    /\ queryActions cfg env criteria w
       = Ok (take (cap (limit_of criteria))
                  (matching criteria (concat (map (lines_of env w) files)))) w.
Proof.
  destruct (getStreamFiles_ok cfg env w) as (files & Hg).
  exists files. split; [exact Hg|].
  unfold queryActions. fold (limit_of criteria).
  unfold bind. rewrite Hg, queryFiles_spec. cbn [app length].
  do 2 f_equal. unfold target, cap. cbn [length]. lia.
Qed.

(** ** A query over the stream the store wrote *)

Lemma omap_cons_Some {A B} (f : A -> option B) x l y :
  f x = Some y -> omap f (x :: l) = y :: omap f l.
Proof. intros H. cbn. now rewrite H. Qed.

Lemma admitted_no_filter limit line : admitted (no_filter limit) line = JSON_parse line.
Proof. unfold admitted. now destruct (JSON_parse line). Qed.

Lemma matching_no_filter limit lines : matching (no_filter limit) lines = omap JSON_parse lines.
Proof.
  induction lines as [|l lines IH]; [reflexivity|].
  unfold matching in *. cbn [omap list_omap]. now rewrite admitted_no_filter, IH.
Qed.

(** The lines of the one stream file of a directory the store started
    empty. *)
Lemma fresh_lines cfg env0 calls env w0 w1 :
  mem w0 = new_instance ->
  fs w0 = ∅ ->
  initialize cfg env0 w0 = Ok tt w1 ->
  same_day cfg (getTodayStreamPath cfg env0) calls ->
  all_logged cfg calls w1 ->
  fault env Readdir (storagePath cfg, EmptyString) = false ->
  fault env ReadFile (getTodayStreamPath cfg env0) = false ->
  let w2 := run cfg calls w1 in
  let stored := logged (newly w1 w2) in
  getStreamFiles cfg env w2 = Ok [getTodayStreamPath cfg env0] w2
  /\ lines_of env w2 (getTodayStreamPath cfg env0) = header_line cfg env0 :: map line_of stored
  /\ Forall (fun a => JSON_stringify (Obj a) = Some (line_of a)) stored
  /\ seal_all cfg fresh (map snd calls) = Some stored.
Proof.
  intros Hm Hf Hinit Hd Ha Hrd Hrf. cbv zeta.
  assert (Hf0 : fs w0 !! getTodayStreamPath cfg env0 = None) by (rewrite Hf; apply lookup_empty).
  destruct (fresh_stream _ _ _ _ _ Hm Hf0 Hinit Hd Ha) as (Hs & Hl & Hfs & _).
  rewrite loaded_absent in Hs by (rewrite Hf; apply lookup_empty).
  destruct (stream_name cfg env0) as (name & Hp & Hn1 & Hn2).
  rewrite Hf, Hp in Hfs. rewrite Hp in Hrf |- *.
  split; [rewrite store_files; exact (getStreamFiles_single _ _ _ _ _ Hrd Hfs Hn1 Hn2)|].
  split; [|split; [exact Hl | exact Hs]].
  unfold lines_of. rewrite Hrf, Hfs, lookup_insert_eq. now apply stream_lines.
Qed.

(** A query with a limit reads the stream from its oldest line.  Over
    the stream the store wrote it returns the header object first and then
    the stored actions in the order they were logged, cut at the limit: of
    more actions than the limit allows, the most recent ones are the ones
    left out, and the header takes one of the places. *)
Theorem queryActions_oldest_first cfg env0 calls env limit w0 w1 :
  mem w0 = new_instance ->
  fs w0 = ∅ ->
  initialize cfg env0 w0 = Ok tt w1 ->
  same_day cfg (getTodayStreamPath cfg env0) calls ->
  all_logged cfg calls w1 ->
  Forall (fun c => wf_object c.2 = true) calls ->
  fault env Readdir (storagePath cfg, EmptyString) = false ->
  fault env ReadFile (getTodayStreamPath cfg env0) = false ->
  let w2 := run cfg calls w1 in
  let stored := logged (newly w1 w2) in
  queryActions cfg env (no_filter limit) w2
  = Ok (take (cap (limit_of (no_filter limit)))
             (header cfg env0 :: map (fun a => norm (Obj a)) stored)) w2.
Proof.
  intros Hm Hf Hinit Hd Ha Hok Hrd Hrf. cbv zeta.
  destruct (fresh_lines _ _ _ _ _ _ Hm Hf Hinit Hd Ha Hrd Hrf) as (Hg & Hlines & Hl & Hs).
  cbv zeta in *.
  destruct (queryActions_spec cfg env (no_filter limit) (run cfg calls w1)) as (files & Hg' & ->).
  rewrite Hg in Hg'. injection Hg' as <-.
  cbn [map concat]. rewrite List.app_nil_r, Hlines, matching_no_filter.
  rewrite (omap_cons_Some _ _ _ _ (header_parses cfg env0)).
  rewrite (lines_parse _ Hl); [reflexivity|].
  apply (seal_all_wf _ _ _ _ ltac:(apply Forall_map; exact Hok) Hs).
Qed.

Lemma queryActions_oldest_first_witness :
  (mem empty_disk = new_instance
   /\ fs empty_disk = ∅
   /\ initialize cfg (env_at t0) empty_disk = Ok tt booted
   /\ same_day cfg (getTodayStreamPath cfg (env_at t0)) three_calls
   /\ all_logged cfg three_calls booted
   /\ Forall (fun c => wf_object c.2 = true) three_calls
   /\ fault (env_at (t0 + 4000)) Readdir (storagePath cfg, EmptyString) = false
   /\ fault (env_at (t0 + 4000)) ReadFile (getTodayStreamPath cfg (env_at t0)) = false)
  /\ queryActions cfg (env_at (t0 + 4000)) (no_filter (Some 2)) (run cfg three_calls booted)
     = Ok (take (cap (limit_of (no_filter (Some 2))))
                (header cfg (env_at t0)
                 :: map (fun a => norm (Obj a))
                        (logged (newly booted (run cfg three_calls booted)))))
          (run cfg three_calls booted).
Proof.
  match goal with |- ?P /\ _ => assert (H : P) end.
  { split; [reflexivity|]. split; [reflexivity|].
    split; [vm_compute; reflexivity|]. split; [repeat constructor|].
    split; [vm_compute; reflexivity|]. split; [repeat constructor|].
    split; reflexivity. }
  split; [exact H|].
  destruct H as (H1 & H2 & H3 & H4 & H5 & H6 & H7 & H8).
  exact (queryActions_oldest_first _ _ _ _ _ _ _ H1 H2 H3 H4 H5 H6 H7 H8).
Defined.

(** ** The time of the last action *)

Lemma seal_timestamp cfg st entry a :
  seal cfg st entry = Some a -> obj_get "timestamp" a = obj_get "timestamp" entry.
Proof.
  intros H. pose proof (seal_spec _ _ _ _ H) as Hs. cbv zeta in Hs.
  destruct (enableIntegrityCheck cfg).
  - destruct Hs as (content & _ & ->).
    rewrite obj_get_set_ne by (reflexivity || discriminate).
    now rewrite obj_get_set_ne by (reflexivity || discriminate).
  - subst a. now rewrite obj_get_set_ne by (reflexivity || discriminate).
Qed.

Lemma wf_object_NoDup a : wf_object a = true -> NoDup (map fst a).
Proof.
  unfold wf_object. rewrite wf_Obj. intros H. apply andb_prop in H as [H _].
  unfold keys_ok in H. apply andb_prop in H as [H _].
  now apply bool_decide_eq_true in H.
Qed.

Lemma obj_get_norm_undefined k a :
  NoDup (map fst a) ->
  is_undefined (obj_get k a) = true ->
  obj_get k (norm_members a) = Undefined.
Proof.
  induction a as [|[k' x] a IH]; [reflexivity|].
  cbn [map fst]. intros Hnd. apply NoDup_cons in Hnd as [Hk Hnd].
  cbn [obj_get norm_members].
  destruct (decide (k' = k)) as [->|Hne].
  - intros ->. apply obj_get_absent, has_key_norm_members. now apply has_key_false.
  - intros E. destruct (is_undefined x); [now apply IH|].
    cbn [obj_get]. rewrite decide_False by assumption. now apply IH.
Qed.

(** A property of an action that was written and read back: absent
    when it was undefined, and otherwise what [JSON.parse] makes of it. *)
Lemma field_norm a k :
  wf_object a = true ->
  field (norm (Obj a)) k
  = if is_undefined (obj_get k a) then Undefined else norm (obj_get k a).
Proof.
  intros Hwf. rewrite norm_Obj. unfold field.
  destruct (is_undefined (obj_get k a)) eqn:E; [|now apply obj_get_norm_members].
  apply obj_get_norm_undefined; [now apply wf_object_NoDup | exact E].
Qed.

Lemma nil_or_snoc {A} (l : list A) : l = [] \/ exists l' a, l = l' ++ [a].
Proof. induction l as [|a l _] using rev_ind; eauto. Qed.

Lemma recent_go_one line rest v :
  JSON_parse line = Some v -> recent_go 1 (line :: rest) [] = [v].
Proof. intros H. cbn [recent_go length]. rewrite H. now destruct rest. Qed.

Lemma getLastActionTime_eq env w p content :
  currentStreamPath (mem w) = Some p ->
  fault env ReadFile p = false ->
  fs w !! p = Some content ->
  getLastActionTime env w
  = Ok (let t := match recent_go 1 (rev (Text.lines content)) [] with
                 | a :: _ => field a "timestamp"
                 | [] => Undefined
                 end in
        if truthy t then t else Null) w.
Proof.
  intros Hp Hr Hc. unfold getLastActionTime, getRecentActions, fs_readFile. unfold_m.
  now rewrite Hp, Hr, Hc.
Qed.

(** The last action time is read off the last line of the current
    stream file alone.  After appends it is the timestamp of the entry
    logged last; in a stream file that holds only its header -- the state
    of every first start of a day -- it is null, whatever older stream
    files hold. *)
Theorem getLastActionTime_last_entry cfg env0 calls env w0 w1 :
  mem w0 = new_instance ->
  fs w0 !! getTodayStreamPath cfg env0 = None ->
  initialize cfg env0 w0 = Ok tt w1 ->
  same_day cfg (getTodayStreamPath cfg env0) calls ->
  all_logged cfg calls w1 ->
  Forall (fun c => wf_object c.2 = true) calls ->
  fault env ReadFile (getTodayStreamPath cfg env0) = false ->
  getLastActionTime env (run cfg calls w1)
  = Ok (match last calls with
        | Some c => time_of c.2
        | None => Null
        end) (run cfg calls w1).
Proof.
  intros Hm Hf0 Hinit Hd Ha Hok Hrf.
  destruct (fresh_stream _ _ _ _ _ Hm Hf0 Hinit Hd Ha) as (Hs & Hl & Hfs & Hcur).
  set (stored := logged (newly w1 (run cfg calls w1))) in *.
  rewrite (getLastActionTime_eq env _ _ _ Hcur Hrf ltac:(rewrite Hfs; apply lookup_insert_eq)).
  rewrite (stream_lines _ _ _ Hl). cbn [rev].
  assert (Hes : Forall (fun e => wf_object e = true) (map snd calls))
    by (apply Forall_map; exact Hok).
  pose proof (seal_all_wf _ _ _ _ Hes Hs) as Hws.
  destruct (nil_or_snoc calls) as [->|(calls' & c & ->)].
  - cbn [map seal_all] in Hs. injection Hs as <-.
    cbn [map rev app last]. rewrite (recent_go_one _ _ _ (header_parses cfg env0)).
    reflexivity.
  - rewrite last_snoc.
    rewrite map_app in Hs. cbn [map] in Hs.
    destruct (nil_or_snoc stored) as [E|(l & a & E)]; rewrite E in *.
    { apply seal_all_length in Hs. rewrite length_app in Hs. cbn [length] in Hs. lia. }
    assert (Hlen : length (map snd calls') = length l).
    { apply seal_all_length in Hs. rewrite !length_app in Hs. cbn [length] in Hs. lia. }
    destruct (seal_all_app _ _ _ _ _ _ Hlen Hs) as [_ Hs2].
    cbn [seal_all] in Hs2.
    destruct (seal cfg (final cfg (loaded cfg env0 w0) l) c.2) as [a'|] eqn:Ea; [|discriminate].
    injection Hs2 as ->.
    apply Forall_app in Hl as [_ Hla]. apply Forall_cons in Hla as [Hla _].
    apply Forall_app in Hws as [_ Hwa]. apply Forall_cons in Hwa as [Hwa _].
    rewrite map_app, rev_app_distr. cbn [map rev app].
    rewrite (recent_go_one _ _ _ (parse_stringify _ _ Hwa Hla)).
    cbv zeta. rewrite (field_norm _ _ Hwa), (seal_timestamp _ _ _ _ Ea).
    unfold time_of. cbv zeta.
    destruct (obj_get "timestamp" c.2); reflexivity.
Qed.

Lemma getLastActionTime_last_entry_witness :
  (mem empty_disk = new_instance
   /\ fs empty_disk !! getTodayStreamPath cfg (env_at t0) = None
   /\ initialize cfg (env_at t0) empty_disk = Ok tt booted
   /\ same_day cfg (getTodayStreamPath cfg (env_at t0)) three_calls
   /\ all_logged cfg three_calls booted
   /\ Forall (fun c => wf_object c.2 = true) three_calls
   /\ fault (env_at (t0 + 4000)) ReadFile (getTodayStreamPath cfg (env_at t0)) = false)
  /\ getLastActionTime (env_at (t0 + 4000)) (run cfg three_calls booted)
     = Ok (match last three_calls with
           | Some c => time_of c.2
           | None => Null
           end) (run cfg three_calls booted).
Proof.
  match goal with |- ?P /\ _ => assert (H : P) end.
  { split; [reflexivity|]. split; [reflexivity|].
    split; [vm_compute; reflexivity|]. split; [repeat constructor|].
    split; [vm_compute; reflexivity|]. split; [repeat constructor|].
    reflexivity. }
  split; [exact H|].
  destruct H as (H1 & H2 & H3 & H4 & H5 & H6 & H7).
  exact (getLastActionTime_last_entry _ _ _ _ _ _ H1 H2 H3 H4 H5 H6 H7).
Defined.

(** ** The header in the activity summary *)

Lemma given_since env hoursBack : given (Some (since env hoursBack)) = Some (since env hoursBack).
Proof.
  destruct (toISOString_given (now_ms env - hoursBack * 60 * 60 * 1000)) as (t & H).
  unfold since. destruct (Date.toISOString _); [discriminate|reflexivity].
Qed.

(** An object passes the filter on [since] when it has no timestamp, or
    one that is not before the bound. *)
Lemma admits_since env hoursBack limit l :
  lt_str (obj_get "timestamp" l) (since env hoursBack) = false ->
  admits {| c_type := None; c_platform := None; c_since := Some (since env hoursBack);
            c_until := None; c_limit := limit |} (Obj l) = Some true.
Proof.
  intros H. unfold admits. cbn [c_type c_platform c_since c_until].
  rewrite given_since. cbn [given mbind option_bind negb prop field]. now rewrite H.
Qed.

(** The activity summary counts the header of the stream file as an
    action: over a stream of N entries, none of them older than the
    period asked for, [totalActions] is N + 1. *)
Theorem summary_counts_header cfg env0 calls env hoursBack w0 w1 :
  mem w0 = new_instance ->
  fs w0 = ∅ ->
  initialize cfg env0 w0 = Ok tt w1 ->
  same_day cfg (getTodayStreamPath cfg env0) calls ->
  all_logged cfg calls w1 ->
  Forall (fun c => wf_object c.2 = true) calls ->
  Forall (fun c => exists ts, obj_get "timestamp" c.2 = Str ts
                              /\ String.ltb ts (since env hoursBack) = false) calls ->
  Z.of_nat (length calls) < 1000 ->
  fault env Readdir (storagePath cfg, EmptyString) = false ->
  fault env ReadFile (getTodayStreamPath cfg env0) = false ->
  exists ctx,
    getRecentActivitySummary cfg env hoursBack (run cfg calls w1) = Ok ctx (run cfg calls w1)
    /\ totalActions ctx = Z.of_nat (length calls) + 1.
Proof.
  intros Hm Hf Hinit Hd Ha Hok Hts Hn Hrd Hrf.
  destruct (fresh_lines _ _ _ _ _ _ Hm Hf Hinit Hd Ha Hrd Hrf) as (Hg & Hlines & Hl & Hs).
  cbv zeta in *.
  set (w2 := run cfg calls w1) in *. set (stored := logged (newly w1 w2)) in *.
  set (criteria := {| c_type := None; c_platform := None;
                      c_since := Some (since env hoursBack);
                      c_until := None; c_limit := Some 1000 |}).
  destruct (queryActions_spec cfg env criteria w2) as (files & Hg' & Hq).
  rewrite Hg in Hg'. injection Hg' as <-.
  cbn [map concat] in Hq. rewrite List.app_nil_r, Hlines in Hq.
  assert (Hes : Forall (fun e => wf_object e = true) (map snd calls))
    by (apply Forall_map; exact Hok).
  pose proof (seal_all_wf _ _ _ _ Hes Hs) as Hws.
  (* every line is admitted *)
  assert (Hall : matching criteria (map line_of stored) = map (fun a => norm (Obj a)) stored).
  { assert (Hts' : Forall (fun e => exists ts, obj_get "timestamp" e = Str ts
                       /\ String.ltb ts (since env hoursBack) = false) (map snd calls))
      by (apply Forall_map; exact Hts).
    clear Hq Hlines Hg Ha Hd Hok Hts Hn.
    revert Hs Hl Hws Hts'. generalize (map snd calls). generalize fresh. clearbody stored.
    clear. induction stored as [|a l IH]; intros st es Hs Hl Hws Hts; [reflexivity|].
    destruct es as [|e es]; [discriminate|]. cbn [seal_all] in Hs.
    destruct (seal cfg st e) as [a'|] eqn:Ea; [|discriminate]. cbn [mbind option_bind] in Hs.
    destruct (seal_all cfg (commit cfg a' st) es) as [l'|] eqn:El; [|discriminate].
    injection Hs as -> ->.
    apply Forall_cons in Hl as [Hla Hl]. apply Forall_cons in Hws as [Hwa Hws].
    apply Forall_cons in Hts as [(ts & Ht & Hlt) Hts].
    assert (Hadm : admitted criteria (line_of a) = Some (norm (Obj a))).
    { unfold admitted. rewrite (parse_stringify _ _ Hwa Hla). cbn [mbind option_bind].
      rewrite norm_Obj. unfold criteria. rewrite admits_since; [reflexivity|].
      rewrite obj_get_norm_members, (seal_timestamp _ _ _ _ Ea), Ht
        by (rewrite (seal_timestamp _ _ _ _ Ea), Ht; reflexivity).
      exact Hlt. }
    cbn [map]. unfold matching. rewrite (omap_cons_Some _ _ _ _ Hadm).
    f_equal. exact (IH _ _ El Hl Hws Hts). }
  assert (Hq' : Store.queryActions cfg env criteria w2
                = Ok (header cfg env0 :: map (fun a => norm (Obj a)) stored) w2).
  { assert (Hadm : admitted criteria (header_line cfg env0) = Some (header cfg env0)).
    { unfold admitted. rewrite header_parses. cbn [mbind option_bind].
      unfold criteria, header. now rewrite admits_since. }
    rewrite Hq. unfold matching. rewrite (omap_cons_Some _ _ _ _ Hadm).
    fold (matching criteria (map line_of stored)). rewrite Hall.
    rewrite take_ge; [reflexivity|].
    cbn [length]. rewrite length_map. unfold all_logged in Ha. fold w2 stored in Ha.
    unfold cap, limit_of, criteria. cbn [c_limit Z.eqb]. lia. }
  unfold getRecentActivitySummary. fold (since env hoursBack). fold criteria.
  unfold bind. rewrite Hq'.
  rewrite props_readable.
  2:{ constructor; [reflexivity|]. apply Forall_map, Forall_true. intros a.
      now rewrite norm_Obj. }
  eexists. split; [reflexivity|]. cbn [totalActions length].
  rewrite length_map. unfold all_logged in Ha. fold w2 stored in Ha. lia.
Qed.

Lemma summary_counts_header_witness :
  (mem empty_disk = new_instance
   /\ fs empty_disk = ∅
   /\ initialize cfg (env_at t0) empty_disk = Ok tt booted
   /\ same_day cfg (getTodayStreamPath cfg (env_at t0)) three_calls
   /\ all_logged cfg three_calls booted
   /\ Forall (fun c => wf_object c.2 = true) three_calls
   /\ Forall (fun c => exists ts, obj_get "timestamp" c.2 = Str ts
                /\ String.ltb ts (since (env_at (t0 + 4000)) 1) = false) three_calls
   /\ Z.of_nat (length three_calls) < 1000
   /\ fault (env_at (t0 + 4000)) Readdir (storagePath cfg, EmptyString) = false
   /\ fault (env_at (t0 + 4000)) ReadFile (getTodayStreamPath cfg (env_at t0)) = false)
  /\ exists ctx,
       getRecentActivitySummary cfg (env_at (t0 + 4000)) 1 (run cfg three_calls booted)
       = Ok ctx (run cfg three_calls booted)
       /\ totalActions ctx = Z.of_nat (length three_calls) + 1.
Proof.
  match goal with |- ?P /\ _ => assert (H : P) end.
  { split; [reflexivity|]. split; [reflexivity|].
    split; [vm_compute; reflexivity|]. split; [repeat constructor|].
    split; [vm_compute; reflexivity|]. split; [repeat constructor|].
    split; [repeat constructor; eexists; (split; [reflexivity | vm_compute; reflexivity])|].
    split; [reflexivity|]. split; reflexivity. }
  split; [exact H|].
  destruct H as (H1 & H2 & H3 & H4 & H5 & H6 & H7 & H8 & H9 & H10).
  exact (summary_counts_header _ _ _ _ _ _ _ H1 H2 H3 H4 H5 H6 H7 H8 H9 H10).
Defined.

End QueryFacts.

Module AdapterFacts.
Import Json Host Store Run Chain Scenario Faults Adapter.
Import TextFacts StoreFacts ChainFacts FaultFacts.

(** ** What [true] from [logAction] means *)

(** When logging is on, [logAction] answers true only after it has
    appended a line for the entry: the stored action to today's stream
    file, or the entry marked as an emergency to the emergency log. *)
Theorem logAction_true_persisted cfg env entry w w' :
  logLevel cfg <> off ->
  logAction cfg env entry w = Ok true w' ->
  (exists stored line before,
      seal cfg (state (mem w)) entry = Some stored
      /\ JSON_stringify (Obj stored) = Some line
      /\ fs w' !! getTodayStreamPath cfg env = Some (before +:+ line +:+ LF))
  \/ (exists line,
        JSON_stringify (Obj (emergencyEntry env entry)) = Some line
        /\ fs w' !! emergencyPath cfg
           = Some (content_of w (emergencyPath cfg) +:+ line +:+ LF)).
Proof.
  intros Hlvl H.
  assert (He : forall w0,
             (forall p, p <> getTodayStreamPath cfg env -> fs w0 !! p = fs w !! p) ->
             logToEmergency cfg env entry w0 = Ok true w' ->
             exists line,
               JSON_stringify (Obj (emergencyEntry env entry)) = Some line
               /\ fs w' !! emergencyPath cfg
                  = Some (content_of w (emergencyPath cfg) +:+ line +:+ LF)).
  { intros w0 Hsame H0.
    destruct (emergency_result cfg env entry w0) as (b & w1 & E & _ & _ & Ht & _).
    rewrite E in H0. injection H0 as -> ->.
    destruct (Ht eq_refl) as (line & Hl & Hf). exists line. split; [exact Hl|].
    rewrite Hf. do 2 f_equal. apply content_of_eq, Hsame, emergency_not_stream. }
  rewrite logAction_eq in H.
  assert (H' : (if negb (initialized (mem w)) then Ok false (add_log WarnNotInitialized w)
                else if emergencyMode (mem w)
                then logToEmergency cfg env entry (add_log WarnEmergencyMode w)
                else if negb (has_space cfg env)
                then logToEmergency cfg env entry
                       (add_log ErrorLowDisk (set_mem (with_emergency true) w))
                else
                  match rotate cfg env w with
                  | Threw e w1 => Threw e w1
                  | Ok _ w1 =>
                    match seal cfg (state (mem w1)) entry with
                    | None => Threw TypeError w1
                    | Some stored =>
                      match JSON_stringify (Obj stored) with
                      | None => Ok false (add_log ErrorSerialization w1)
                      | Some line =>
                        match durable env (getTodayStreamPath cfg env) line w1 with
                        | Ok _ w2 =>
                            Ok true (add_log (DebugLogged stored)
                                       (set_mem (fun i => with_state (commit cfg stored (state i)) i)
                                          w2))
                        | Threw e w2 =>
                            logToEmergency cfg env entry (add_log (ErrorWriteFailed e) w2)
                        end
                      end
                    end
                  end) = Ok true w').
  { destruct (logLevel cfg); [contradiction | exact H | exact H]. }
  clear H.
  destruct (initialized (mem w)); cbn [negb] in H'; [|discriminate].
  destruct (emergencyMode (mem w)); [right; eapply He; [|exact H']; reflexivity|].
  destruct (has_space cfg env); cbn [negb] in H';
    [|right; eapply He; [|exact H']; reflexivity].
  pose proof (rotate_same cfg env w) as (Hrs & _ & _ & _ & Hrf).
  destruct (rotate cfg env w) as [[] w1|e w1]; [|discriminate]. simpl_world.
  rewrite Hrs in H'.
  destruct (seal cfg (state (mem w)) entry) as [stored|] eqn:Hseal; [|discriminate].
  destruct (JSON_stringify (Obj stored)) as [line|] eqn:Hline; [|discriminate].
  pose proof (durable_same env (getTodayStreamPath cfg env) line w1) as (_ & _ & Hdf).
  pose proof (durable_eq env (getTodayStreamPath cfg env) line w1) as Hde.
  destruct (durable env (getTodayStreamPath cfg env) line w1) as [[] w2|e w2]; simpl_world.
  - left. exists stored, line, (content_of w1 (getTodayStreamPath cfg env)).
    split; [reflexivity|]. split; [exact Hline|].
    injection H' as <-. simpl_world.
    destruct (fault env AppendFile _); [discriminate|].
    destruct (fault env Open _); [discriminate|].
    destruct (fault env Sync _); [discriminate|].
    destruct (fault env Close _); [discriminate|].
    injection Hde as ->. unfold appended. simpl_world. apply lookup_insert_eq.
  - right. eapply He; [|exact H'].
    intros p Hp. simpl_world. now rewrite Hdf, Hrf.
Qed.

Lemma logAction_true_persisted_witness :
  (logLevel cfg <> off
   /\ logAction cfg (env_at (t0 + 1000)) (entry "a" "w") booted
      = Ok true (res_world (logAction cfg (env_at (t0 + 1000)) (entry "a" "w") booted)))
  /\ ((exists stored line before,
         seal cfg (state (mem booted)) (entry "a" "w") = Some stored
         /\ JSON_stringify (Obj stored) = Some line
         /\ fs (res_world (logAction cfg (env_at (t0 + 1000)) (entry "a" "w") booted))
              !! getTodayStreamPath cfg (env_at (t0 + 1000))
            = Some (before +:+ line +:+ LF))
      \/ (exists line,
            JSON_stringify (Obj (emergencyEntry (env_at (t0 + 1000)) (entry "a" "w"))) = Some line
            /\ fs (res_world (logAction cfg (env_at (t0 + 1000)) (entry "a" "w") booted))
                 !! emergencyPath cfg
               = Some (content_of booted (emergencyPath cfg) +:+ line +:+ LF))).
Proof.
  assert (H1 : logLevel cfg <> off) by discriminate.
  assert (H2 : logAction cfg (env_at (t0 + 1000)) (entry "a" "w") booted
               = Ok true (res_world (logAction cfg (env_at (t0 + 1000)) (entry "a" "w") booted)))
    by (vm_compute; reflexivity).
  split; [split; [exact H1 | exact H2]|].
  exact (logAction_true_persisted _ _ _ _ _ H1 H2).
Defined.

(** ** The safety interlock *)

Section Interlock.
Variable toLowerCase : string -> string.

(** The interlock fails closed.  For a critical tool, with
    [blockOnPersistenceFailure] set and logging on, the hook lets the call
    through exactly when [logAction] answered true, and then it has put the
    action id into the parameters; when [logAction] answers false or throws
    -- an entry [JSON.stringify] rejects, a header that cannot be created --
    the call is blocked and the parameters are left alone.  Nothing
    [logAction] throws leaves the hook. *)
Theorem critical_tool_fail_closed env config sid id toolName ps agentId sessionKey w :
  logLevel (store_config config) <> off ->
  isCriticalTool toLowerCase toolName (criticalToolPatterns config) = true ->
  blockOnPersistenceFailure config = true ->
  let action := tool_call env id "critical" toolName ps sid agentId sessionKey in
  let r := logAction (store_config config) env action w in
  exists out,
    before_tool_call toLowerCase env (Some config) sid id toolName ps agentId sessionKey w
    = Ok out (res_world r)
    /\ (result out = None <-> r = Ok true (res_world r))
    /\ params out = (if result out is None
                     then obj_set ps "__continuity_action_id" (Str id) else ps)
    /\ (forall e w', r = Threw e w' -> result out = Some (LoggingError e))
    /\ (forall w', r = Ok false w' -> result out = Some PersistenceFailure).
Proof.
  intros Hlvl Hc Hb. cbv zeta.
  set (action := tool_call env id "critical" toolName ps sid agentId sessionKey).
  assert (H : catch
                (let* persisted := logAction (store_config config) env action in
                 if negb persisted && true then
                   ret {| result := Some PersistenceFailure; params := ps;
                          said := [DebugBeforeToolCall toolName "critical";
                                   ErrorFailedToPersist toolName] |}
                 else
                   ret {| result := None;
                          params := if persisted
                                    then obj_set ps "__continuity_action_id" (Str id)
                                    else ps;
                          said := [DebugBeforeToolCall toolName "critical"] |})
                (fun e =>
                   ret {| result := Some (LoggingError e); params := ps;
                          said := [DebugBeforeToolCall toolName "critical";
                                   ErrorLoggingAction e] |}) w
              = match logAction (store_config config) env action w with
                | Ok true w' =>
                    Ok {| result := None;
                          params := obj_set ps "__continuity_action_id" (Str id);
                          said := [DebugBeforeToolCall toolName "critical"] |} w'
                | Ok false w' =>
                    Ok {| result := Some PersistenceFailure; params := ps;
                          said := [DebugBeforeToolCall toolName "critical";
                                   ErrorFailedToPersist toolName] |} w'
                | Threw e w' =>
                    Ok {| result := Some (LoggingError e); params := ps;
                          said := [DebugBeforeToolCall toolName "critical";
                                   ErrorLoggingAction e] |} w'
                end).
  { unfold catch, bind, ret.
    destruct (logAction (store_config config) env action w) as [[] w'|e w']; reflexivity. }
  assert (Hhook : before_tool_call toLowerCase env (Some config) sid id toolName ps
                    agentId sessionKey w
                  = match logAction (store_config config) env action w with
                    | Ok true w' =>
                        Ok {| result := None;
                              params := obj_set ps "__continuity_action_id" (Str id);
                              said := [DebugBeforeToolCall toolName "critical"] |} w'
                    | Ok false w' =>
                        Ok {| result := Some PersistenceFailure; params := ps;
                              said := [DebugBeforeToolCall toolName "critical";
                                       ErrorFailedToPersist toolName] |} w'
                    | Threw e w' =>
                        Ok {| result := Some (LoggingError e); params := ps;
                              said := [DebugBeforeToolCall toolName "critical";
                                       ErrorLoggingAction e] |} w'
                    end).
  { unfold before_tool_call. rewrite Hc, Hb. fold action.
    destruct (logLevel (store_config config)); [contradiction | exact H | exact H]. }
  rewrite Hhook.
  destruct (logAction (store_config config) env action w) as [[] w'|e w'];
    eexists; (split; [reflexivity|]); cbn [result params res_world].
  - split; [split; reflexivity|]. split; [reflexivity|]. split; intros; discriminate.
  - split; [split; discriminate|]. split; [reflexivity|]. split; intros; [discriminate|reflexivity].
  - split; [split; discriminate|]. split; [reflexivity|].
    split; [intros e0 w0 E; now injection E as -> _ | intros; discriminate].
Qed.

(** The hook never throws, and it blocks nothing but a critical tool
    under a store: a tool no pattern matches is let through whatever
    [logAction] does, and so is every tool while there is no store (before
    the boot, after the shutdown), [blockOnPersistenceFailure] or not.  The
    answer "Store not initialized" is never given. *)
Theorem before_tool_call_returns env store sid id toolName ps agentId sessionKey w :
  exists out w',
    before_tool_call toLowerCase env store sid id toolName ps agentId sessionKey w = Ok out w'
    /\ result out <> Some StoreNotInitialized
    /\ (match store with
        | Some config => isCriticalTool toLowerCase toolName (criticalToolPatterns config) = false
        | None => True
        end ->
        result out = None /\ params out = ps).
Proof.
  unfold before_tool_call.
  destruct store as [config|];
    [|unfold ret; eexists _, _; split; [reflexivity|]; split; [discriminate | auto]].
  destruct (isCriticalTool toLowerCase toolName (criticalToolPatterns config)) eqn:Hc.
  - destruct (logLevel (store_config config)); unfold ret, catch, bind.
    + eexists _, _. split; [reflexivity|]. split; discriminate.
    + destruct (logAction _ _ _ w) as [[] w'|e w'];
        cbn [negb andb]; try destruct (blockOnPersistenceFailure config);
        eexists _, _; (split; [reflexivity | split; discriminate]).
    + destruct (logAction _ _ _ w) as [[] w'|e w'];
        cbn [negb andb]; try destruct (blockOnPersistenceFailure config);
        eexists _, _; (split; [reflexivity | split; discriminate]).
  - destruct (logLevel (store_config config)); unfold ret, catch, mbind, M_bind, bind.
    + eexists _, _. split; [reflexivity | split; [discriminate | auto]].
    + eexists _, _. split; [reflexivity | split; [discriminate | auto]].
    + destruct (logAction _ _ _ w) as [b w'|e w']; eexists _, _;
        (split; [reflexivity | split; [discriminate | auto]]).
Qed.

End Interlock.

Lemma critical_tool_fail_closed_witness :
  let ps := [("path", Str "/tmp/x"); ("size", BigInt 1)] in
  (logLevel (store_config defaults) <> off
   /\ isCriticalTool ascii_lower "Write" (criticalToolPatterns defaults) = true
   /\ blockOnPersistenceFailure defaults = true)
  /\ exists out w',
       before_tool_call ascii_lower (env_at (t0 + 1000)) (Some defaults) Null "id1" "Write" ps
         (Str "main") Undefined booted = Ok out w'
       /\ result out = Some (LoggingError TypeError)
       /\ params out = ps.
Proof.
  cbv zeta.
  assert (H1 : logLevel (store_config defaults) <> off) by discriminate.
  assert (H2 : isCriticalTool ascii_lower "Write" (criticalToolPatterns defaults) = true)
    by (vm_compute; reflexivity).
  assert (H3 : blockOnPersistenceFailure defaults = true) by reflexivity.
  split; [auto|].
  destruct (critical_tool_fail_closed ascii_lower (env_at (t0 + 1000)) defaults Null "id1" "Write"
              [("path", Str "/tmp/x"); ("size", BigInt 1)] (Str "main") Undefined booted
              H1 H2 H3) as (out & Hh & _ & Hp & Ht & _).
  assert (Hr : result out = Some (LoggingError TypeError)).
  { eapply Ht. vm_compute. reflexivity. }
  exists out. eexists. split; [exact Hh|]. split; [exact Hr|].
  rewrite Hp, Hr. reflexivity.
Defined.

End AdapterFacts.

Module LimitFacts.
Import Json Host Store Run Chain Scenario Stream Integrity Damage Query.
Import TextFacts JsonRoundTrip JsonNorm Sha256Facts StoreFacts ChainFacts.
Import StreamFacts ScanFacts SealFacts DamageFacts QueryFacts.

(** ** What the validator cannot see *)

(** The validator reads the stream files and nothing else: it does not
    know how long the stream was.  A stream cut back to any of its lines
    passes, with the lines that are left counted. *)
Theorem tail_truncation_undetected cfg env0 calls env w0 w1 l1 l2 :
  enableIntegrityCheck cfg = true ->
  mem w0 = new_instance ->
  fs w0 = ∅ ->
  initialize cfg env0 w0 = Ok tt w1 ->
  same_day cfg (getTodayStreamPath cfg env0) calls ->
  all_logged cfg calls w1 ->
  Forall (fun c => entry_ok c.2) calls ->
  logged (newly w1 (run cfg calls w1)) = l1 ++ l2 ->
  Forall no_marker l1 ->
  fault env Readdir (storagePath cfg, EmptyString) = false ->
  fault env ReadFile (getTodayStreamPath cfg env0) = false ->
  let wt := truncated (getTodayStreamPath cfg env0) (header_line cfg env0) l1
              (run cfg calls w1) in
  exists report,
    validateStream (storagePath cfg) env wt = Ok report wt
    /\ valid report = true
    /\ totalChecked report = Z.of_nat (length l1)
    /\ errors report = [].
Proof.
  intros Hi Hm Hf Hinit Hd Ha Hok Hst Hmk Hrd Hrf. cbv zeta.
  assert (Hf0 : fs w0 !! getTodayStreamPath cfg env0 = None) by (rewrite Hf; apply lookup_empty).
  destruct (fresh_stream _ _ _ _ _ Hm Hf0 Hinit Hd Ha) as (Hs & Hl & Hfs & _).
  rewrite loaded_absent in Hs by (rewrite Hf; apply lookup_empty).
  rewrite Hst in Hs, Hl.
  set (es := map snd calls) in *.
  assert (Hes : Forall entry_ok es) by now apply Forall_map.
  destruct (seal_all_split _ _ _ _ _ Hs) as [Hs1 _].
  rewrite <- (take_drop (length l1) es) in Hes.
  apply Forall_app in Hes as [Hes1 _].
  apply Forall_app in Hl as [Hl1 _].
  destruct (stream_name cfg env0) as (name & Hp & Hn1 & Hn2).
  set (wt := truncated _ _ _ _).
  assert (Hft : fs wt = {[ (storagePath cfg, name) :=
                   Text.unlines (header_line cfg env0 :: map line_of l1) ]}).
  { unfold wt, truncated. cbn [set_fs fs]. rewrite Hfs, Hf, insert_insert_eq, Hp. reflexivity. }
  rewrite Hp in Hrf.
  pose proof (validateStream_single _ _ _ _ _ Hrd Hrf Hft Hn1 Hn2) as Hv. cbv zeta in Hv.
  rewrite lines_unlines in Hv.
  2:{ constructor; [apply header_no_nl|].
      apply Forall_map. eapply Forall_impl; [exact Hl1 | exact ser_line]. }
  destruct (scanLines_sealed cfg _ fresh l1 scan0 Hi Hes1 Hs1 Hmk eq_refl) as (E1 & E2 & _).
  cbv zeta in E1, E2.
  rewrite scanLines_cons, scanLine_header, E1, E2 in Hv.
  eexists. split; [exact Hv|].
  cbn [totalChecked errors valid scan0 s_errors s_totalChecked].
  split; [reflexivity|]. split; [lia | reflexivity].
Qed.

Lemma tail_truncation_undetected_witness :
  let stored := logged (newly booted three_logged) in
  let l1 := take 1 stored in
  let l2 := drop 1 stored in
  (enableIntegrityCheck cfg = true
   /\ mem empty_disk = new_instance
   /\ fs empty_disk = ∅
   /\ initialize cfg (env_at t0) empty_disk = Ok tt booted
   /\ same_day cfg (getTodayStreamPath cfg (env_at t0)) three_calls
   /\ all_logged cfg three_calls booted
   /\ Forall (fun c => entry_ok c.2) three_calls
   /\ logged (newly booted (run cfg three_calls booted)) = l1 ++ l2
   /\ Forall no_marker l1
   /\ fault (env_at (t0 + 4000)) Readdir (storagePath cfg, EmptyString) = false
   /\ fault (env_at (t0 + 4000)) ReadFile (getTodayStreamPath cfg (env_at t0)) = false)
  /\ exists report wt,
       validateStream (storagePath cfg) (env_at (t0 + 4000)) wt = Ok report wt
       /\ valid report = true
       /\ totalChecked report = Z.of_nat (length l1).
Proof.
  cbv zeta.
  match goal with |- ?P /\ _ => assert (H : P) end.
  { split; [reflexivity|]. split; [reflexivity|]. split; [reflexivity|].
    split; [vm_compute; reflexivity|]. split; [repeat constructor|].
    split; [vm_compute; reflexivity|]. split; [repeat constructor|].
    split; [vm_compute; reflexivity|].
    split; [apply no_marker_check; vm_compute; reflexivity|].
    split; reflexivity. }
  split; [exact H|].
  destruct H as (H1 & H2 & H3 & H4 & H5 & H6 & H7 & H8 & H9 & H10 & H11).
  destruct (tail_truncation_undetected _ _ _ _ _ _ _ _ H1 H2 H3 H4 H5 H6 H7 H8 H9 H10 H11)
    as (report & Hv & Hval & Ht & _).
  exists report. eexists. split; [exact Hv|]. split; [exact Hval | exact Ht].
Defined.

(** A line whose object has no [_integrity] is counted, raises no
    error, and leaves the hash the chain goes on from as it was. *)
Lemma scanLine_unsigned s g o :
  Text.includes headerMarker g = false ->
  JSON_parse g = Some (Obj o) ->
  truthy (obj_get "_integrity" o) = false ->
  let s' := scanLine s g in
  s_errors s' = s_errors s
  /\ s_totalChecked s' = s_totalChecked s + 1
  /\ s_previousHash s' = s_previousHash s.
Proof.
  intros Hm Hp Hu. cbv zeta. unfold scanLine. rewrite Hm, Hp.
  change (prop (Obj o) "id") with (Some (obj_get "id" o)).
  cbn [s_errors s_totalChecked s_previousHash s_firstAction s_lastAction].
  unfold validateAction.
  change (prop (Obj o) "_integrity") with (Some (obj_get "_integrity" o)).
  cbn [mbind option_bind field]. rewrite Hu. cbn [negb].
  cbn [s_errors s_totalChecked s_previousHash]. auto.
Qed.

(** A line without [_integrity] passes as a legacy action wherever it
    stands: written into a stream the store made, between two of its
    lines or after the last, it is counted as an action and the stream
    still validates. *)
Theorem unsigned_line_accepted cfg env0 calls env w0 w1 l1 g o l2 :
  enableIntegrityCheck cfg = true ->
  mem w0 = new_instance ->
  fs w0 = ∅ ->
  initialize cfg env0 w0 = Ok tt w1 ->
  same_day cfg (getTodayStreamPath cfg env0) calls ->
  all_logged cfg calls w1 ->
  Forall (fun c => entry_ok c.2) calls ->
  logged (newly w1 (run cfg calls w1)) = l1 ++ l2 ->
  Forall no_marker (l1 ++ l2) ->
  Text.all Text.not_nl g = true ->
  Text.blank g = false ->
  Text.includes headerMarker g = false ->
  JSON_parse g = Some (Obj o) ->
  truthy (obj_get "_integrity" o) = false ->
  fault env Readdir (storagePath cfg, EmptyString) = false ->
  fault env ReadFile (getTodayStreamPath cfg env0) = false ->
  let wg := garbled (getTodayStreamPath cfg env0) (header_line cfg env0) l1 g l2
              (run cfg calls w1) in
  exists report,
    validateStream (storagePath cfg) env wg = Ok report wg
    /\ valid report = true
    /\ totalChecked report = Z.of_nat (length calls) + 1
    /\ errors report = [].
Proof.
  intros Hi Hm Hf Hinit Hd Ha Hok Hst Hmk Hnl Hbl Hgm Hgp Hgu Hrd Hrf. cbv zeta.
  assert (Hf0 : fs w0 !! getTodayStreamPath cfg env0 = None) by (rewrite Hf; apply lookup_empty).
  destruct (fresh_stream _ _ _ _ _ Hm Hf0 Hinit Hd Ha) as (Hs & Hl & Hfs & _).
  rewrite loaded_absent in Hs by (rewrite Hf; apply lookup_empty).
  unfold all_logged in Ha. rewrite Hst in Hs, Hl, Ha.
  set (es := map snd calls) in *.
  assert (Hes : Forall entry_ok es) by now apply Forall_map.
  destruct (seal_all_split _ _ _ _ _ Hs) as [Hs1 Hs2].
  rewrite <- (take_drop (length l1) es) in Hes.
  apply Forall_app in Hes as [Hes1 Hes2].
  apply Forall_app in Hmk as [Hmk1 Hmk2].
  apply Forall_app in Hl as [Hl1 Hl2].
  destruct (stream_name cfg env0) as (name & Hp & Hn1 & Hn2).
  set (wg := garbled _ _ _ _ _ _).
  assert (Hft : fs wg = {[ (storagePath cfg, name) :=
                   Text.unlines (header_line cfg env0 :: map line_of l1 ++ g :: map line_of l2) ]}).
  { unfold wg, garbled. cbn [set_fs fs]. rewrite Hfs, Hf, insert_insert_eq, Hp. reflexivity. }
  rewrite Hp in Hrf.
  pose proof (validateStream_single _ _ _ _ _ Hrd Hrf Hft Hn1 Hn2) as Hv. cbv zeta in Hv.
  rewrite lines_unlines in Hv.
  2:{ constructor; [apply header_no_nl|].
      apply Forall_app. split.
      - apply Forall_map. eapply Forall_impl; [exact Hl1 | exact ser_line].
      - constructor; [now split|].
        apply Forall_map. eapply Forall_impl; [exact Hl2 | exact ser_line]. }
  destruct (scanLines_sealed cfg _ fresh l1 scan0 Hi Hes1 Hs1 Hmk1 eq_refl) as (E1 & E2 & E3).
  cbv zeta in E1, E2, E3.
  destruct (scanLine_unsigned (scanLines scan0 (map line_of l1)) g o Hgm Hgp Hgu)
    as (U1 & U2 & U3).
  cbv zeta in U1, U2, U3.
  destruct (scanLines_sealed cfg _ _ l2 (scanLine (scanLines scan0 (map line_of l1)) g)
              Hi Hes2 Hs2 Hmk2 ltac:(now rewrite U3)) as (G1 & G2 & _).
  cbv zeta in G1, G2.
  rewrite scanLines_cons, scanLine_header, scanLines_app, scanLines_cons in Hv.
  rewrite G1, G2, U1, U2, E1, E2 in Hv.
  eexists. split; [exact Hv|].
  cbn [totalChecked errors valid scan0 s_errors s_totalChecked].
  split; [reflexivity|]. split; [|reflexivity].
  rewrite <- Ha, length_app. lia.
Qed.

Lemma unsigned_line_accepted_witness :
  let stored := logged (newly booted three_logged) in
  let l1 := take 1 stored in
  let l2 := drop 1 stored in
  let o := [("id", Str "x"); ("description", Str "forged")] in
  (enableIntegrityCheck cfg = true
   /\ mem empty_disk = new_instance
   /\ fs empty_disk = ∅
   /\ initialize cfg (env_at t0) empty_disk = Ok tt booted
   /\ same_day cfg (getTodayStreamPath cfg (env_at t0)) three_calls
   /\ all_logged cfg three_calls booted
   /\ Forall (fun c => entry_ok c.2) three_calls
   /\ logged (newly booted (run cfg three_calls booted)) = l1 ++ l2
   /\ Forall no_marker (l1 ++ l2)
   /\ Text.all Text.not_nl unsigned = true
   /\ Text.blank unsigned = false
   /\ Text.includes headerMarker unsigned = false
   /\ JSON_parse unsigned = Some (Obj o)
   /\ truthy (obj_get "_integrity" o) = false
   /\ fault (env_at (t0 + 4000)) Readdir (storagePath cfg, EmptyString) = false
   /\ fault (env_at (t0 + 4000)) ReadFile (getTodayStreamPath cfg (env_at t0)) = false)
  /\ exists report wg,
       validateStream (storagePath cfg) (env_at (t0 + 4000)) wg = Ok report wg
       /\ valid report = true
       /\ totalChecked report = Z.of_nat (length three_calls) + 1.
Proof.
  cbv zeta.
  match goal with |- ?P /\ _ => assert (H : P) end.
  { split; [reflexivity|]. split; [reflexivity|]. split; [reflexivity|].
    split; [vm_compute; reflexivity|]. split; [repeat constructor|].
    split; [vm_compute; reflexivity|]. split; [repeat constructor|].
    split; [vm_compute; reflexivity|].
    split; [apply no_marker_check; vm_compute; reflexivity|].
    split; [vm_compute; reflexivity|]. split; [vm_compute; reflexivity|].
    split; [vm_compute; reflexivity|]. split; [vm_compute; reflexivity|].
    split; [reflexivity|].
    split; reflexivity. }
  split; [exact H|].
  destruct H as (H1 & H2 & H3 & H4 & H5 & H6 & H7 & H8 & H9 & H10 & H11 & H12 & H13 & H14
                 & H15 & H16).
  destruct (unsigned_line_accepted _ _ _ _ _ _ _ _ _ _
              H1 H2 H3 H4 H5 H6 H7 H8 H9 H10 H11 H12 H13 H14 H15 H16)
    as (report & Hv & Hval & Ht & _).
  exists report. eexists. split; [exact Hv|]. split; [exact Hval | exact Ht].
Defined.

(** ** The newest actions *)





(** ** The emergency log reads back *)

(** The line [logToEmergency] writes for an entry parses back to the
    entry, marked: [_emergency] is true, [_emergency_timestamp] is the time
    of the call, and every other property is as the entry's own line would
    give it. *)
Theorem emergency_line_reads_back env entry line :
  wf_object entry = true ->
  JSON_stringify (Obj (emergencyEntry env entry)) = Some line ->
  let back := norm (Obj (emergencyEntry env entry)) in
  JSON_parse line = Some back
  /\ field back "_emergency" = Bool true
  /\ field back "_emergency_timestamp" = Str (now env)
  /\ forall k, k <> "_emergency" -> k <> "_emergency_timestamp" ->
       field back k = field (norm (Obj entry)) k.
Proof.
  intros Hwf Hline. cbv zeta.
  assert (Hw1 : wf_object (obj_set entry "_emergency" (Bool true)) = true)
    by (apply wf_obj_set; auto).
  assert (Hw2 : wf_object (emergencyEntry env entry) = true)
    by (apply wf_obj_set; auto).
  split; [exact (parse_stringify _ _ Hw2 Hline)|].
  rewrite !(field_norm _ _ Hw2). unfold emergencyEntry.
  split; [|split].
  - rewrite obj_get_set_ne by (reflexivity || discriminate).
    now rewrite obj_get_set_eq by reflexivity.
  - now rewrite obj_get_set_eq by reflexivity.
  - intros k Hk1 Hk2. rewrite (field_norm _ _ Hwf).
    fold (emergencyEntry env entry). rewrite (field_norm _ _ Hw2). unfold emergencyEntry.
    rewrite obj_get_set_ne by (reflexivity || congruence).
    now rewrite obj_get_set_ne by (reflexivity || congruence).
Qed.

Lemma emergency_line_reads_back_witness :
  let env := env_at (t0 + 1000) in
  let line := default EmptyString (JSON_stringify (Obj (emergencyEntry env (entry "a" "w")))) in
  (wf_object (entry "a" "w") = true
   /\ JSON_stringify (Obj (emergencyEntry env (entry "a" "w"))) = Some line)
  /\ JSON_parse line = Some (norm (Obj (emergencyEntry env (entry "a" "w")))).
Proof.
  cbv zeta.
  match goal with |- ?P /\ _ => assert (H : P) end.
  { split; [reflexivity|]. vm_compute; reflexivity. }
  split; [exact H|].
  destruct H as (H1 & H2).
  exact (proj1 (emergency_line_reads_back _ _ _ H1 H2)).
Defined.

End LimitFacts.

Module RotationFacts.
Import Json Host Store Run Chain Scenario Faults Stream Integrity Rotation.
Import TextFacts JsonRoundTrip JsonNorm Sha256Facts StoreFacts ChainFacts.
Import StreamFacts ScanFacts SealFacts DamageFacts.

(** ** The first call of a new day *)

(** A run that starts on a day whose stream file is not there yet, every
    call of it appending on the primary path: the first call creates the
    file with its header, and the stored actions follow, sealed from the
    state the instance had. *)
Lemma run_new_day cfg env entry calls w p :
  currentStreamPath (mem w) <> Some p ->
  fs w !! p = None ->
  same_day cfg p ((env, entry) :: calls) ->
  all_logged cfg ((env, entry) :: calls) w ->
  let w' := run cfg ((env, entry) :: calls) w in
  let stored := logged (newly w w') in
  seal_all cfg (state (mem w)) (entry :: map snd calls) = Some stored
  /\ Forall (fun a => JSON_stringify (Obj a) = Some (line_of a)) stored
  /\ fs w' = <[p := (header_line cfg env +:+ LF) +:+ Text.unlines (map line_of stored)]> (fs w)
  /\ state (mem w') = final cfg (state (mem w)) stored.
Proof.
  intros Hcur Hf0 Hd Ha. cbv zeta.
  remember (header_line cfg env) as hdr eqn:Ehdr.
  unfold all_logged in Ha. rewrite run_newly, logged_app in *. rewrite length_app in Ha.
  simpl length in Ha. simpl run.
  apply Forall_cons in Hd as [Hd1 Hd]. simpl in Hd1.
  pose proof (run_logged_le cfg calls (res_world (logAction cfg env entry w))) as Hle.
  destruct (logAction_cases cfg env entry w)
    as [(stored & w1 & line & Hseal & Hline & Hrot & Hok & Hl & Hst & _)|(_ & d & Hd0 & Hld)].
  2:{ rewrite (newly_app _ _ _ Hd0), Hld in Ha. simpl in Ha. lia. }
  rewrite rotate_eq, Hd1 in Hrot.
  rewrite bool_decide_eq_false_2 in Hrot by exact Hcur.
  rewrite (writeStreamHeader_eq cfg env (set_mem (with_path (Some p)) w) p eq_refl) in Hrot.
  rewrite <- Ehdr in Hrot.
  destruct (fault env WriteFile p); [discriminate|].
  simpl_world. rewrite Hf0 in Hrot. injection Hrot as <-.
  rewrite (newly_app _ _ _ Hl) in *. simpl in Ha.
  rewrite Hok, Hd1 in *. simpl_world.
  set (wA := add_log (DebugLogged stored) _) in *.
  assert (HpA : currentStreamPath (mem wA) = Some p) by reflexivity.
  assert (HfA : fs wA = <[p := (hdr +:+ LF) +:+ line +:+ LF]> (fs w)).
  { subst wA. unfold appended, content_of. simpl_world.
    rewrite lookup_insert_eq. cbn [default].
    rewrite insert_insert_eq. reflexivity. }
  assert (HaA : all_logged cfg calls wA) by (unfold all_logged; lia).
  destruct (run_file cfg calls wA p ((hdr +:+ LF) +:+ line +:+ LF)
              HpA ltac:(rewrite HfA; apply lookup_insert_eq) Hd HaA)
    as (R1 & R2 & R3 & _).
  pose proof (run_state cfg calls wA p HpA Hd HaA) as R4.
  assert (HsA : state (mem wA) = commit cfg stored (state (mem w))) by reflexivity.
  rewrite HsA in R1, R4.
  assert (Hlo : line_of stored = line) by (unfold line_of; now rewrite Hline).
  change (logged [DebugLogged stored]) with [stored]. cbn [app].
  split; [|split; [|split]].
  - cbn [seal_all]. rewrite Hseal. cbn [mbind option_bind]. rewrite R1. reflexivity.
  - constructor; [now rewrite Hlo | exact R2].
  - rewrite R3, HfA, insert_insert_eq. f_equal. cbn [map Text.unlines].
    rewrite Hlo. unfold LF. now rewrite !sapp_assoc.
  - rewrite R4. reflexivity.
Qed.

(** ** A directory with two stream files *)

Lemma getStreamFiles_two dir env n1 n2 c1 c2 w :
  fault env Readdir (dir, EmptyString) = false ->
  fs w = <[ (dir, n2) := c2 ]> {[ (dir, n1) := c1 ]} ->
  n1 <> n2 ->
  String.le n1 n2 ->
  Text.startsWith "action-stream-" n1 = true ->
  Text.endsWith ".jsonl" n1 = true ->
  Text.startsWith "action-stream-" n2 = true ->
  Text.endsWith ".jsonl" n2 = true ->
  getStreamFiles dir env w = Ok [(dir, n1); (dir, n2)] w.
Proof.
  intros Hf Hfs Hne Hle H1 H2 H3 H4. unfold getStreamFiles, fs_readdir. unfold_m.
  rewrite Hf, Hfs.
  set (P := fun entry => Text.startsWith "action-stream-" entry = true
                         /\ Text.endsWith ".jsonl" entry = true).
  set (f := fun p : Path => if decide (p.1 = dir) then Some p.2 else None).
  assert (Hperm : filter P (omap f (map fst (map_to_list
                     (<[ (dir, n2) := c2 ]> ({[ (dir, n1) := c1 ]} : gmap Path string)))))
                  ≡ₚ [n1; n2]).
  { rewrite map_to_list_insert
      by (apply lookup_singleton_ne; intros E; injection E as E; congruence).
    rewrite map_to_list_singleton. simpl. unfold f at 1 2. simpl.
    rewrite !decide_True by reflexivity.
    rewrite filter_cons_True by (split; assumption).
    rewrite filter_cons_True by (split; assumption).
    rewrite filter_nil. apply perm_swap. }
  fold f. fold P.
  assert (Hs : merge_sort String.le (filter P (omap f (map fst (map_to_list
                 (<[ (dir, n2) := c2 ]> ({[ (dir, n1) := c1 ]} : gmap Path string))))))
               = [n1; n2]).
  { apply (Sorted_unique String.le _ _).
    - apply Sorted_merge_sort, _.
    - repeat constructor. exact Hle.
    - rewrite merge_sort_Permutation. exact Hperm. }
  rewrite Hs. reflexivity.
Qed.

Lemma validateStream_two dir env p1 p2 c1 c2 w :
  getStreamFiles dir env w = Ok [p1; p2] w ->
  fault env ReadFile p1 = false ->
  fault env ReadFile p2 = false ->
  fs w !! p1 = Some c1 ->
  fs w !! p2 = Some c2 ->
  let s := scanLines (scanLines scan0 (Text.lines c1)) (Text.lines c2) in
  validateStream dir env w
  = Ok {| valid := bool_decide (s_errors s = []);
          totalChecked := s_totalChecked s;
          errors := s_errors s;
          firstAction := s_firstAction s;
          lastAction := s_lastAction s |} w.
Proof.
  intros Hg Hr1 Hr2 Hf1 Hf2. cbv zeta. unfold validateStream.
  unfold bind at 1. rewrite Hg.
  unfold scanFiles, scanFile, fs_readFile. unfold_m.
  rewrite Hr1, Hf1, Hr2, Hf2. reflexivity.
Qed.

(** The chain runs through the daily files.  After a day of appends and
    a second day of them by the same instance, the second day's file opens
    with its own header and its first entry is chained to the last entry
    of the first day; the validator, reading the files in the order of
    their names, finds the whole stream valid and counts the entries of
    both days. *)
Theorem rotated_stream_valid cfg env0 calls1 env2 entry2 calls2 env w0 w1 :
  enableIntegrityCheck cfg = true ->
  mem w0 = new_instance ->
  fs w0 = ∅ ->
  initialize cfg env0 w0 = Ok tt w1 ->
  same_day cfg (getTodayStreamPath cfg env0) calls1 ->
  all_logged cfg calls1 w1 ->
  Forall (fun c => entry_ok c.2) calls1 ->
  Forall no_marker (logged (newly w1 (run cfg calls1 w1))) ->
  getTodayStreamPath cfg env2 <> getTodayStreamPath cfg env0 ->
  String.le (getTodayStreamPath cfg env0).2 (getTodayStreamPath cfg env2).2 ->
  same_day cfg (getTodayStreamPath cfg env2) ((env2, entry2) :: calls2) ->
  all_logged cfg ((env2, entry2) :: calls2) (run cfg calls1 w1) ->
  Forall (fun c => entry_ok c.2) ((env2, entry2) :: calls2) ->
  Forall no_marker (logged (newly (run cfg calls1 w1)
                              (run cfg ((env2, entry2) :: calls2) (run cfg calls1 w1)))) ->
  fault env Readdir (storagePath cfg, EmptyString) = false ->
  fault env ReadFile (getTodayStreamPath cfg env0) = false ->
  fault env ReadFile (getTodayStreamPath cfg env2) = false ->
  let w2 := run cfg calls1 w1 in
  let w3 := run cfg ((env2, entry2) :: calls2) w2 in
  exists report first,
    validateStream (storagePath cfg) env w3 = Ok report w3
    /\ valid report = true
    /\ totalChecked report = Z.of_nat (length calls1) + Z.of_nat (length calls2) + 1
    /\ errors report = []
    /\ head (logged (newly w2 w3)) = Some first
    /\ previous_of first = Str (or_genesis (lastHash (state (mem w2))))
    /\ obj_get "sequence" first = Num (Z.of_nat (length calls1) + 1).
Proof.
  intros Hi Hm Hf Hinit Hd1 Ha1 Hok1 Hmk1 Hne Hle Hd2 Ha2 Hok2 Hmk2 Hrd Hrf1 Hrf2. cbv zeta.
  assert (Hf0 : fs w0 !! getTodayStreamPath cfg env0 = None) by (rewrite Hf; apply lookup_empty).
  destruct (fresh_stream _ _ _ _ _ Hm Hf0 Hinit Hd1 Ha1) as (Hs1 & Hl1 & Hfs1 & Hcur1).
  rewrite loaded_absent in Hs1 by (rewrite Hf; apply lookup_empty).
  destruct (initialize_spec _ _ _ _ Hm Hinit) as [Hm1 _].
  rewrite loaded_absent in Hm1 by (rewrite Hf; apply lookup_empty).
  pose proof (run_state cfg calls1 w1 (getTodayStreamPath cfg env0)
                ltac:(now rewrite Hm1) Hd1 Ha1) as Hm2.
  rewrite Hm1 in Hm2. cbn [state with_state] in Hm2.
  set (w2 := run cfg calls1 w1) in *. set (stored1 := logged (newly w1 w2)) in *.
  set (p1 := getTodayStreamPath cfg env0) in *.
  set (p2 := getTodayStreamPath cfg env2) in *.
  destruct (run_new_day cfg env2 entry2 calls2 w2 p2) as (Hs2 & Hl2 & Hfs2 & Hst3).
  { rewrite Hcur1. intros E. apply Hne. symmetry. now apply (inj Some). }
  { rewrite Hfs1, Hf. rewrite lookup_insert_ne by (intros E; apply Hne; congruence).
    apply lookup_empty. }
  { exact Hd2. }
  { exact Ha2. }
  set (w3 := run cfg ((env2, entry2) :: calls2) w2) in *.
  set (stored2 := logged (newly w2 w3)) in *.
  rewrite Hm2 in Hs2. cbn [state with_state] in Hs2.
  rewrite Hfs1, Hf in Hfs2.
  (* the two files *)
  destruct (stream_name cfg env0) as (n1 & Hp1 & Hn11 & Hn12). fold p1 in Hp1.
  destruct (stream_name cfg env2) as (n2 & Hp2 & Hn21 & Hn22). fold p2 in Hp2.
  rewrite Hp1, Hp2 in Hfs2, Hle, Hne. rewrite Hp1 in Hrf1. rewrite Hp2 in Hrf2.
  cbn [snd] in Hle.
  assert (Hnn : n1 <> n2) by (intros ->; now apply Hne).
  pose proof (getStreamFiles_two _ _ _ _ _ _ _ Hrd Hfs2 Hnn Hle Hn11 Hn12 Hn21 Hn22) as Hg.
  pose proof (validateStream_two _ _ _ _ _ _ _ Hg Hrf1 Hrf2
                ltac:(rewrite Hfs2, lookup_insert_ne by (intros E; apply Hne; congruence);
                      apply lookup_insert_eq)
                ltac:(rewrite Hfs2; apply lookup_insert_eq)) as Hv.
  cbv zeta in Hv.
  rewrite (stream_lines _ _ _ Hl1), (stream_lines _ _ _ Hl2) in Hv.
  (* the validator over the two days *)
  assert (Hes1 : Forall entry_ok (map snd calls1)) by now apply Forall_map.
  assert (Hes2 : Forall entry_ok (entry2 :: map snd calls2)).
  { apply Forall_cons in Hok2 as [He Hok2]. constructor; [exact He | now apply Forall_map]. }
  destruct (scanLines_sealed cfg _ fresh stored1 scan0 Hi Hes1 Hs1 Hmk1 eq_refl)
    as (E1 & E2 & E3).
  cbv zeta in E1, E2, E3.
  destruct (scanLines_sealed cfg _ _ stored2 (scanLines scan0 (map line_of stored1))
              Hi Hes2 Hs2 Hmk2 E3) as (G1 & G2 & _).
  cbv zeta in G1, G2.
  rewrite scanLines_cons, scanLine_header in Hv.
  rewrite scanLines_cons, scanLine_header in Hv.
  rewrite G1, G2, E1, E2 in Hv.
  unfold all_logged in Ha1, Ha2. fold w2 stored1 in Ha1. fold w3 stored2 in Ha2.
  cbn [length] in Ha2.
  (* the first entry of the second day *)
  cbn [seal_all] in Hs2.
  destruct (seal cfg (final cfg fresh stored1) entry2) as [a|] eqn:Ea;
    [|cbn [mbind option_bind] in Hs2; discriminate Hs2].
  cbn [mbind option_bind] in Hs2.
  destruct (seal_all cfg (commit cfg a (final cfg fresh stored1)) (map snd calls2))
    as [l|] eqn:El; [|cbn [mbind option_bind] in Hs2; discriminate Hs2].
  injection Hs2 as Hs2.
  eexists _, a. split; [exact Hv|].
  cbn [totalChecked errors valid scan0 s_errors s_totalChecked].
  split; [reflexivity|]. split; [lia|]. split; [reflexivity|].
  split; [now rewrite <- Hs2|].
  destruct (seal_integrity _ _ _ _ Hi Ea) as (c & _ & Eg & _).
  split.
  - unfold previous_of. rewrite Eg, Hm2. reflexivity.
  - rewrite (seal_sequence _ _ _ _ Ea), (final_sequence _ _ _ _ Hs1).
    cbn [Host.sequence fresh]. f_equal. lia.
Qed.

Lemma rotated_stream_valid_witness :
  let env2 := env_at (t0 + day + 1000) in
  let w2 := run cfg two_calls booted in
  let w3 := run cfg next_day_calls w2 in
  (enableIntegrityCheck cfg = true
   /\ mem empty_disk = new_instance
   /\ fs empty_disk = ∅
   /\ initialize cfg (env_at t0) empty_disk = Ok tt booted
   /\ same_day cfg (getTodayStreamPath cfg (env_at t0)) two_calls
   /\ all_logged cfg two_calls booted
   /\ Forall (fun c => entry_ok c.2) two_calls
   /\ Forall no_marker (logged (newly booted w2))
   /\ getTodayStreamPath cfg env2 <> getTodayStreamPath cfg (env_at t0)
   /\ String.le (getTodayStreamPath cfg (env_at t0)).2 (getTodayStreamPath cfg env2).2
   /\ same_day cfg (getTodayStreamPath cfg env2) next_day_calls
   /\ all_logged cfg next_day_calls w2
   /\ Forall (fun c => entry_ok c.2) next_day_calls
   /\ Forall no_marker (logged (newly w2 w3))
   /\ fault (env_at (t0 + day + 4000)) Readdir (storagePath cfg, EmptyString) = false
   /\ fault (env_at (t0 + day + 4000)) ReadFile (getTodayStreamPath cfg (env_at t0)) = false
   /\ fault (env_at (t0 + day + 4000)) ReadFile (getTodayStreamPath cfg env2) = false)
  /\ exists report,
       validateStream (storagePath cfg) (env_at (t0 + day + 4000)) w3 = Ok report w3
       /\ valid report = true
       /\ totalChecked report = Z.of_nat (length two_calls) + Z.of_nat 1 + 1.
Proof.
  cbv zeta.
  match goal with |- ?P /\ _ => assert (H : P) end.
  { split; [reflexivity|]. split; [reflexivity|]. split; [reflexivity|].
    split; [vm_compute; reflexivity|]. split; [repeat constructor|].
    split; [vm_compute; reflexivity|]. split; [repeat constructor|].
    split; [apply no_marker_check; vm_compute; reflexivity|].
    split; [vm_compute; discriminate|].
    split; [vm_compute; exact I|].
    split; [repeat constructor|].
    split; [vm_compute; reflexivity|]. split; [repeat constructor|].
    split; [apply no_marker_check; vm_compute; reflexivity|].
    split; [reflexivity|]. split; reflexivity. }
  split; [exact H|].
  destruct H as (H1 & H2 & H3 & H4 & H5 & H6 & H7 & H8 & H9 & H10 & H11 & H12 & H13 & H14
                 & H15 & H16 & H17).
  destruct (rotated_stream_valid cfg (env_at t0) two_calls (env_at (t0 + day + 1000))
              (entry "d" "z") [(env_at (t0 + day + 2000), entry "e" "u")]
              (env_at (t0 + day + 4000)) empty_disk booted
              H1 H2 H3 H4 H5 H6 H7 H8 H9 H10 H11 H12 H13 H14 H15 H16 H17)
    as (report & first & Hv & Hval & Ht & _).
  exists report. split; [exact Hv|]. split; [exact Hval | exact Ht].
Defined.

End RotationFacts.

Module OrphanFacts.
Import Json Host Store Run Chain Scenario Faults Stream Integrity Lifecycle Orphan.
Import TextFacts JsonRoundTrip JsonNorm Sha256Facts StoreFacts ChainFacts FaultFacts.
Import StreamFacts ScanFacts SealFacts LifecycleFacts DamageFacts.

(** What the call leaves: the instance as it was, and the disk with the
    line in the stream file and at most the emergency log beside. *)
Lemma failed_sync_world cfg env entry w stored line :
  logLevel cfg <> off ->
  initialized (mem w) = true ->
  emergencyMode (mem w) = false ->
  has_space cfg env = true ->
  currentStreamPath (mem w) = Some (getTodayStreamPath cfg env) ->
  seal cfg (state (mem w)) entry = Some stored ->
  JSON_stringify (Obj stored) = Some line ->
  sync_fails env (getTodayStreamPath cfg env) ->
  let p := getTodayStreamPath cfg env in
  let f := <[p := content_of w p +:+ line +:+ LF]> (fs w) in
  exists b w',
    logAction cfg env entry w = Ok b w'
    /\ mem w' = mem w
    /\ (fs w' = f \/ exists t, fs w' = <[emergencyPath cfg := t]> f).
Proof.
  intros Hlvl Hinit Hem Hsp Hcur Hseal Hline Hs. cbv zeta.
  destruct (failed_sync_eq _ _ _ _ _ _ Hlvl Hinit Hem Hsp Hcur Hseal Hline Hs) as (e & ->).
  rewrite logToEmergency_eq.
  destruct (JSON_stringify (Obj (emergencyEntry env entry))) as [l|].
  - destruct (fault env AppendFile (emergencyPath cfg)).
    + eexists _, _. split; [reflexivity|]. split; [reflexivity|]. left. reflexivity.
    + eexists _, _. split; [reflexivity|]. split; [reflexivity|]. right.
      eexists. reflexivity.
  - eexists _, _. split; [reflexivity|]. split; [reflexivity|]. left. reflexivity.
Qed.

Lemma getStreamFiles_with_other dir env name other c text w :
  fault env Readdir (dir, EmptyString) = false ->
  fs w = <[ (dir, other) := text ]> {[ (dir, name) := c ]} ->
  Text.startsWith "action-stream-" other = false ->
  Text.startsWith "action-stream-" name = true ->
  Text.endsWith ".jsonl" name = true ->
  getStreamFiles dir env w = Ok [(dir, name)] w.
Proof.
  intros Hf Hfs H0 H1 H2. unfold getStreamFiles, fs_readdir. unfold_m.
  rewrite Hf, Hfs.
  assert (Hne : (dir, other) <> (dir, name)).
  { intros E. injection E as <-. congruence. }
  set (P := fun entry => Text.startsWith "action-stream-" entry = true
                         /\ Text.endsWith ".jsonl" entry = true).
  set (f := fun p : Path => if decide (p.1 = dir) then Some p.2 else None).
  assert (Hperm : filter P (omap f (map fst (map_to_list
                     (<[ (dir, other) := text ]> ({[ (dir, name) := c ]} : gmap Path string)))))
                  = [name]).
  { apply Permutation_singleton_r.
    rewrite map_to_list_insert by now apply lookup_singleton_ne.
    rewrite map_to_list_singleton. simpl. unfold f at 1 2. simpl.
    rewrite !decide_True by reflexivity.
    rewrite filter_cons_False by (intros [E _]; congruence).
    rewrite filter_cons_True by (split; assumption).
    reflexivity. }
  fold f. fold P. rewrite Hperm. reflexivity.
Qed.

(** A stored action has a line. *)
Lemma seal_line cfg st entry stored :
  enableIntegrityCheck cfg = true ->
  has_key "_integrity" entry = false ->
  seal cfg st entry = Some stored ->
  JSON_stringify (Obj stored) = Some (line_of stored).
Proof.
  intros Hi Hk Hs.
  destruct (seal_shape _ _ _ _ Hi Hk Hs) as (content & Hc & _ & E). cbv zeta in *.
  destruct (ser_snoc _ content "_integrity"
              (integrity (Sha256.sha256_hex (content +:+ or_genesis (lastHash st)))
                 (or_genesis (lastHash st))) _ Hc eq_refl) as (line & Hl).
  rewrite <- E in Hl. unfold line_of. rewrite Hl. reflexivity.
Qed.

(** A line the state does not know breaks the chain for the validator.
    After a call whose line reached the stream file and could not be made
    durable, the next entry is sealed from the state as it was: it carries
    the sequence number of the line on disk and is chained to the entry
    before that line.  The validator counts both, and reports the second
    one as a chain break unless the two hashes coincide; when the line is
    the first of the stream it is always reported, and the stream nobody
    edited is invalid. *)
Theorem failed_sync_breaks_chain cfg env0 calls1 envf entryf orphan b calls2 env w0 w1 w3 :
  enableIntegrityCheck cfg = true ->
  logLevel cfg <> off ->
  mem w0 = new_instance ->
  fs w0 = ∅ ->
  initialize cfg env0 w0 = Ok tt w1 ->
  same_day cfg (getTodayStreamPath cfg env0) calls1 ->
  all_logged cfg calls1 w1 ->
  Forall (fun c => entry_ok c.2) calls1 ->
  Forall no_marker (logged (newly w1 (run cfg calls1 w1))) ->
  getTodayStreamPath cfg envf = getTodayStreamPath cfg env0 ->
  has_space cfg envf = true ->
  sync_fails envf (getTodayStreamPath cfg envf) ->
  entry_ok entryf ->
  seal cfg (state (mem (run cfg calls1 w1))) entryf = Some orphan ->
  no_marker orphan ->
  logAction cfg envf entryf (run cfg calls1 w1) = Ok b w3 ->
  same_day cfg (getTodayStreamPath cfg env0) calls2 ->
  all_logged cfg calls2 w3 ->
  Forall (fun c => entry_ok c.2) calls2 ->
  Forall no_marker (logged (newly w3 (run cfg calls2 w3))) ->
  fault env Readdir (storagePath cfg, EmptyString) = false ->
  fault env ReadFile (getTodayStreamPath cfg env0) = false ->
  let w4 := run cfg calls2 w3 in
  let before := or_genesis (lastHash (state (mem (run cfg calls1 w1)))) in
  exists report h,
    obj_get "_integrity" orphan = integrity h before
    /\ fs w4 !! getTodayStreamPath cfg env0
       = Some (Text.unlines (header_line cfg env0
                             :: map line_of (logged (newly w1 (run cfg calls1 w1))
                                             ++ orphan :: logged (newly w3 w4))))
    /\ validateStream (storagePath cfg) env w4 = Ok report w4
    /\ totalChecked report = Z.of_nat (length calls1) + 1 + Z.of_nat (length calls2)
    /\ errors report
       = match calls2 with
         | [] => []
         | _ :: _ =>
             if bool_decide (before = h) then []
             else [{| sequence := Num (Z.of_nat (length calls1) + 1); type := chain_break;
                      details := ExpectedPrevious (Str h) (Str before) |}]
         end
    /\ (calls1 = [] -> calls2 <> [] -> valid report = false).
Proof.
  intros Hi Hlvl Hm Hf Hinit Hd1 Ha1 Hok1 Hmk1 Hpf Hsp Hsf Hokf Hseal Hmo Hcall
         Hd2 Ha2 Hok2 Hmk2 Hrd Hrf. cbv zeta.
  assert (Hf0 : fs w0 !! getTodayStreamPath cfg env0 = None) by (rewrite Hf; apply lookup_empty).
  destruct (fresh_stream _ _ _ _ _ Hm Hf0 Hinit Hd1 Ha1) as (Hs1 & Hl1 & Hfs2 & Hcur2).
  rewrite loaded_absent in Hs1 by (rewrite Hf; apply lookup_empty).
  destruct (initialize_spec _ _ _ _ Hm Hinit) as [Hm1 _].
  pose proof (run_state cfg calls1 w1 (getTodayStreamPath cfg env0)) as Hst2.
  rewrite Hm1 in Hst2. specialize (Hst2 eq_refl Hd1 Ha1).
  rewrite loaded_absent in Hst2 by (rewrite Hf; apply lookup_empty).
  cbn [state] in Hst2.
  set (w2 := run cfg calls1 w1) in *.
  set (l1 := logged (newly w1 w2)) in *.
  set (p := getTodayStreamPath cfg env0) in *.
  assert (Est : state (mem w2) = final cfg fresh l1) by (rewrite Hst2; reflexivity).
  assert (Ein : initialized (mem w2) = true) by (rewrite Hst2; reflexivity).
  assert (Eem : emergencyMode (mem w2) = false) by (rewrite Hst2; reflexivity).
  destruct Hokf as [Hwf Hk].
  pose proof (seal_line _ _ _ _ Hi Hk Hseal) as Hline.
  rewrite Hpf in Hsf.
  assert (Hcurf : currentStreamPath (mem w2) = Some (getTodayStreamPath cfg envf))
    by (rewrite Hpf; exact Hcur2).
  assert (Hsf' : sync_fails envf (getTodayStreamPath cfg envf)) by (rewrite Hpf; exact Hsf).
  destruct (failed_sync_world _ _ _ _ _ _ Hlvl Ein Eem Hsp Hcurf Hseal Hline Hsf')
    as (b' & w3' & Hcall' & Hm3 & Hfs3).
  cbv zeta in Hfs3. rewrite Hpf in Hfs3. fold p in Hfs3.
  rewrite Hcall in Hcall'. injection Hcall' as <- <-.
  set (c2 := (header_line cfg env0 +:+ LF) +:+ Text.unlines (map line_of l1)) in *.
  assert (Ec2 : content_of w2 p = c2).
  { unfold content_of. rewrite Hfs2, lookup_insert_eq. reflexivity. }
  rewrite Ec2, Hfs2, Hf, insert_insert_eq in Hfs3.
  set (c3 := c2 +:+ line_of orphan +:+ LF) in *.
  assert (Hcur3 : currentStreamPath (mem w3) = Some p) by (rewrite Hm3; exact Hcur2).
  assert (Hp3 : fs w3 !! p = Some c3).
  { destruct Hfs3 as [->|(t & ->)]; [apply lookup_insert_eq|].
    rewrite lookup_insert_ne by apply emergency_not_stream. apply lookup_insert_eq. }
  destruct (run_file cfg calls2 w3 p c3 Hcur3 Hp3 Hd2 Ha2) as (Hs2 & Hl2 & Hfs4 & _).
  rewrite Hm3, Est in Hs2.
  set (w4 := run cfg calls2 w3) in *.
  set (l2 := logged (newly w3 w4)) in *.
  set (c4 := c3 +:+ Text.unlines (map line_of l2)) in *.
  assert (Hp4 : fs w4 !! p = Some c4) by (rewrite Hfs4; apply lookup_insert_eq).
  assert (Ec4 : c4 = Text.unlines (header_line cfg env0 :: map line_of (l1 ++ orphan :: l2))).
  { unfold c4, c3, c2. rewrite map_app. cbn [map].
    change (header_line cfg env0 :: map line_of l1 ++ line_of orphan :: map line_of l2)
      with ((header_line cfg env0 :: map line_of l1) ++ line_of orphan :: map line_of l2).
    rewrite unlines_app. cbn [Text.unlines]. rewrite !sapp_assoc. reflexivity. }
  destruct (stream_name cfg env0) as (name & Hp & Hn1 & Hn2). fold p in Hp.
  assert (Hg : getStreamFiles (storagePath cfg) env w4 = Ok [p] w4).
  { rewrite Hp. destruct Hfs3 as [E|(t & E)]; rewrite E in Hfs4.
    - rewrite insert_insert_eq in Hfs4.
      apply (getStreamFiles_single _ _ _ c4); try assumption.
      rewrite Hfs4, Hp. reflexivity.
    - rewrite insert_insert_ne in Hfs4
        by (intros E'; symmetry in E'; revert E'; apply emergency_not_stream).
      rewrite insert_insert_eq in Hfs4.
      apply (getStreamFiles_with_other _ _ _ "EMERGENCY_RECOVERY.jsonl" c4 t);
        try assumption; [|reflexivity].
      rewrite Hfs4, Hp. reflexivity. }
  pose proof (validateStream_files _ _ _ _ _ Hg Hrf Hp4) as Hv. cbv zeta in Hv.
  rewrite Ec4 in Hv, Hp4.
  rewrite lines_unlines in Hv.
  2:{ constructor; [apply header_no_nl|].
      apply Forall_map, Forall_app. split; [eapply Forall_impl; [exact Hl1 | exact ser_line]|].
      constructor; [now apply ser_line|].
      eapply Forall_impl; [exact Hl2 | exact ser_line]. }
  (* the parts under the validator *)
  set (es1 := map snd calls1) in *. set (es2 := map snd calls2) in *.
  assert (Hes1 : Forall entry_ok es1) by now apply Forall_map.
  assert (Hes2 : Forall entry_ok es2) by now apply Forall_map.
  destruct (scanLines_sealed cfg _ fresh l1 scan0 Hi Hes1 Hs1 Hmk1 eq_refl) as (E1 & E2 & E3).
  cbv zeta in E1, E2, E3.
  rewrite Est in Hseal.
  destruct (scanLine_seal cfg _ entryf orphan (scanLines scan0 (map line_of l1)) Hi
              (conj Hwf Hk) Hseal Hmo) as (O1 & O2 & O3).
  cbv zeta in O1, O2, O3.
  rewrite E3 in O3. unfold strict_eq in O3 at 1.
  rewrite bool_decide_eq_true_2, List.app_nil_r in O3 by reflexivity.
  destruct (seal_integrity _ _ _ _ Hi Hseal) as (content & _ & Hg0 & Hla).
  set (h := Sha256.sha256_hex _) in *.
  rewrite Est.
  set (before := or_genesis (lastHash (final cfg fresh l1))) in *.
  assert (Hoh : or_genesis (Some h) = h) by (unfold h; apply or_genesis_hash).
  rewrite Hla, Hoh in O2.
  rewrite scanLines_cons, scanLine_header, map_app, scanLines_app in Hv.
  cbn [map] in Hv. rewrite scanLines_cons in Hv.
  unfold all_logged in Ha1, Ha2. fold w2 l1 in Ha1. fold w4 l2 in Ha2.
  eexists _, h.
  split; [exact Hg0|]. split; [exact Hp4|]. split; [exact Hv|].
  cbn [totalChecked errors valid].
  destruct calls2 as [|[env2 e2] calls2].
  - destruct l2; [|discriminate Ha2].
    cbn [map scanLines fold_left].
    rewrite O1, O3, E1, E2. cbn [scan0 s_errors s_totalChecked length]. 
    split; [lia|]. split; [reflexivity|].
    intros _ Hne. now contradiction Hne.
  - cbn [map] in es2. subst es2. apply Forall_cons in Hes2 as [He2 Hes2].
    cbn [seal_all snd] in Hs2, He2.
    destruct (seal cfg (final cfg fresh l1) e2) as [a2|] eqn:Ea2;
      [|cbn [mbind option_bind] in Hs2; discriminate Hs2].
    cbn [mbind option_bind] in Hs2.
    destruct (seal_all cfg (commit cfg a2 (final cfg fresh l1)) (map snd calls2))
      as [l2'|] eqn:El2; [|cbn [mbind option_bind] in Hs2; discriminate Hs2].
    cbn [mbind option_bind] in Hs2. injection Hs2 as Hs2.
    rewrite <- Hs2 in *. clear Hs2.
    apply Forall_cons in Hmk2 as [Hm2 Hmk2].
    destruct (scanLine_seal cfg _ e2 a2
                (scanLine (scanLines scan0 (map line_of l1)) (line_of orphan))
                Hi He2 Ea2 Hm2) as (F1 & F2 & F3).
    cbv zeta in F1, F2, F3.
    destruct (scanLines_sealed cfg _ _ l2'
                (scanLine (scanLine (scanLines scan0 (map line_of l1)) (line_of orphan))
                   (line_of a2))
                Hi Hes2 El2 Hmk2 F2) as (G1 & G2 & _).
    cbv zeta in G1, G2.
    cbn [map]. rewrite scanLines_cons.
    rewrite G1, G2, F1, F3, O1, O2, O3, E1, E2.
    cbn [scan0 s_errors s_totalChecked app length] in *.
    rewrite (final_sequence _ _ _ _ Hs1). cbn [Host.sequence fresh].
    fold before. unfold strict_eq.
    split; [lia|].
    replace (0 + Z.of_nat (length l1) + 1) with (Z.of_nat (length calls1) + 1) by lia.
    split; [reflexivity|].
    intros -> _.
    assert (Hl1nil : l1 = []) by (apply nil_length_inv; exact Ha1).
    assert (Hne : before <> h).
    { unfold before. rewrite Hl1nil. cbn [final fold_left fresh lastHash or_genesis].
      intros E. symmetry in E. revert E. unfold h. apply sha256_hex_not_genesis. }
    rewrite (bool_decide_eq_false_2 (before = h)) by exact Hne.
    apply bool_decide_eq_false_2. intros E. discriminate E.
Qed.

Lemma failed_sync_breaks_chain_witness :
  let orphan := default [] (seal cfg (state (mem booted)) (entry "a" "w")) in
  (enableIntegrityCheck cfg = true
   /\ logLevel cfg <> off
   /\ mem empty_disk = new_instance
   /\ fs empty_disk = ∅
   /\ initialize cfg (env_at t0) empty_disk = Ok tt booted
   /\ same_day cfg (getTodayStreamPath cfg (env_at t0)) []
   /\ all_logged cfg [] booted
   /\ Forall (fun c : Env * object => entry_ok c.2) []
   /\ Forall no_marker (logged (newly booted (run cfg [] booted)))
   /\ getTodayStreamPath cfg sync_failing = getTodayStreamPath cfg (env_at t0)
   /\ has_space cfg sync_failing = true
   /\ sync_fails sync_failing (getTodayStreamPath cfg sync_failing)
   /\ entry_ok (entry "a" "w")
   /\ seal cfg (state (mem (run cfg [] booted))) (entry "a" "w") = Some orphan
   /\ no_marker orphan
   /\ logAction cfg sync_failing (entry "a" "w") (run cfg [] booted) = Ok true sync_failed
   /\ same_day cfg (getTodayStreamPath cfg (env_at t0)) later_calls
   /\ all_logged cfg later_calls sync_failed
   /\ Forall (fun c => entry_ok c.2) later_calls
   /\ Forall no_marker (logged (newly sync_failed (run cfg later_calls sync_failed)))
   /\ fault (env_at (t0 + 4000)) Readdir (storagePath cfg, EmptyString) = false
   /\ fault (env_at (t0 + 4000)) ReadFile (getTodayStreamPath cfg (env_at t0)) = false)
  /\ exists report,
       validateStream (storagePath cfg) (env_at (t0 + 4000)) (run cfg later_calls sync_failed)
       = Ok report (run cfg later_calls sync_failed)
       /\ valid report = false
       /\ totalChecked report = 2.
Proof.
  cbv zeta.
  match goal with |- ?P /\ _ => assert (H : P) end.
  { split; [reflexivity|]. split; [discriminate|]. split; [reflexivity|].
    split; [reflexivity|]. split; [vm_compute; reflexivity|].
    split; [constructor|]. split; [vm_compute; reflexivity|]. split; [constructor|].
    split; [apply no_marker_check; vm_compute; reflexivity|].
    split; [vm_compute; reflexivity|]. split; [vm_compute; reflexivity|].
    split; [split; [vm_compute; reflexivity|right; left; vm_compute; reflexivity]|].
    split; [repeat constructor|]. split; [vm_compute; reflexivity|].
    split; [vm_compute; reflexivity|]. split; [vm_compute; reflexivity|].
    split; [repeat constructor|]. split; [vm_compute; reflexivity|].
    split; [repeat constructor|].
    split; [apply no_marker_check; vm_compute; reflexivity|].
    split; reflexivity. }
  split; [exact H|].
  destruct H as (H1 & H2 & H3 & H4 & H5 & H6 & H7 & H8 & H9 & H10 & H11 & H12 & H13 & H14
                 & H15 & H16 & H17 & H18 & H19 & H20 & H21 & H22).
  destruct (failed_sync_breaks_chain _ _ _ _ _ _ _ _ _ _ _ _
              H1 H2 H3 H4 H5 H6 H7 H8 H9 H10 H11 H12 H13 H14 H15 H16 H17 H18 H19 H20 H21 H22)
    as (report & h & _ & _ & Hv & Ht & _ & Hval).
  exists report. split; [exact Hv|]. split; [|exact Ht].
  apply Hval; [reflexivity | discriminate].
Defined.

End OrphanFacts.
